(** * ts-ws-machine: the WebSocket client state machine of [src/index.ts]

    A shallow embedding of the transition function [update], of the backoff
    function [calcBackoff] and of the effect interpreter and facade built by
    [wsMachine], followed by the properties stated about them.

    JavaScript numbers are modelled by exact rationals ([Q]): [+], [*], [**]
    and [Math.min] are the exact operations, [===] on numbers is equality of
    rationals. *)

From Stdlib Require Import QArith Qminmax Lqa.
From stdpp Require Import gmap strings list fin_maps.

Local Open Scope string_scope.

(** ** Data model *)

(** [type BackoffFn = (attempt: number, randSeed: number) => number] *)
Definition BackoffFn : Type := Q -> Q -> Q.

(** [type Context] *)
Record Context : Type := mkContext {
  url : string;
  reconnectAttempt : Q;
  randSeed : Q;
  pingTimeoutMillis : Q;
  pongTimeoutMillis : Q;
  backoffFn : BackoffFn
}.

(** [{ ...state, reconnectAttempt: n }] *)
Definition with_reconnectAttempt (c : Context) (n : Q) : Context :=
  {| url := url c;
     reconnectAttempt := n;
     randSeed := randSeed c;
     pingTimeoutMillis := pingTimeoutMillis c;
     pongTimeoutMillis := pongTimeoutMillis c;
     backoffFn := backoffFn c |}.

(** [States = unionize({INITIAL: ofType<Context>(), ...})]: a tag and the
    fields of a [Context]. *)
Module States.
Inductive State : Type :=
| INITIAL (c : Context)
| CONNECTING (c : Context)
| OPEN (c : Context)
| CLOSED (c : Context)
| RECONNECTING (c : Context).
End States.
Abbreviation State := States.State.

(** The fields of a state other than its tag: what [States.X(state)] and
    [{...state}] copy. *)
Definition context (state : State) : Context :=
  match state with
  | States.INITIAL c | States.CONNECTING c | States.OPEN c
  | States.CLOSED c | States.RECONNECTING c => c
  end.

(** [Actions = unionize({CONNECT: {}, ...})] *)
Module Actions.
Inductive Action : Type :=
| CONNECT | OPEN | HEARTBEAT | PING_TIMEOUT | PONG_TIMEOUT | CLOSE | RECONNECT.
End Actions.
Abbreviation Action := Actions.Action.

(** [type TimeoutKey = "ping" | "pong" | "connect"] *)
Module TimeoutKey.
Inductive t : Type := ping | pong | connect.
End TimeoutKey.
Abbreviation TimeoutKey := TimeoutKey.t.

(** [Effects = unionize({CONNECT_WS: ..., ...})] *)
Module Effects.
Inductive Effect : Type :=
| CONNECT_WS (url : string) (onOpen onClose onPongMessage : Action)
| SCHEDULE_TIMEOUT (key : TimeoutKey) (timeoutMillis : Q) (onTimeout : Action)
| SEND_PING
| CLEAR_TIMEOUT (key : TimeoutKey)
| TRIGGER_ACTION (action : Action).
End Effects.
Abbreviation Effect := Effects.Effect.

(** ** The backoff function *)

(** [calcBackoff(attempt, randSeed, maxVal = 30000)]; the optional third
    argument is [None] when the caller leaves it out. *)
Definition calcBackoff (attempt randSeed : Q) (maxVal : option Q) : Q :=
  let maxVal := default 30000%Q maxVal in
  if Qeq_bool attempt 0 then 0%Q
  else (Qmin maxVal (attempt ^ 2 * 1000) + 2000 * randSeed)%Q.

(** [calcBackoff] used as a [BackoffFn]: called with two arguments. *)
Definition calcBackoffFn : BackoffFn := fun attempt randSeed =>
  calcBackoff attempt randSeed None.

(** ** The transition function *)

Definition connect (state : State) : State * list Effect :=
  (States.CONNECTING (context state),
   [ Effects.CLEAR_TIMEOUT TimeoutKey.connect;
     Effects.CONNECT_WS (url (context state))
       Actions.OPEN Actions.CLOSE Actions.HEARTBEAT ]).

Definition clearTimeoutEffect (key : TimeoutKey) : Effect :=
  Effects.CLEAR_TIMEOUT key.

Definition clearAllTimeoutsEffects : list Effect :=
  [ clearTimeoutEffect TimeoutKey.connect;
    clearTimeoutEffect TimeoutKey.ping;
    clearTimeoutEffect TimeoutKey.pong ].

Definition scheduleConnect (state : State) : Effect :=
  Effects.SCHEDULE_TIMEOUT TimeoutKey.connect
    (backoffFn (context state)
       (reconnectAttempt (context state) + 1)%Q (randSeed (context state)))
    Actions.CONNECT.

Definition schedulePing (state : State) : Effect :=
  Effects.SCHEDULE_TIMEOUT TimeoutKey.ping
    (pingTimeoutMillis (context state)) Actions.PING_TIMEOUT.

Definition waitForPong (state : State) : Effect :=
  Effects.SCHEDULE_TIMEOUT TimeoutKey.pong
    (pongTimeoutMillis (context state)) Actions.PONG_TIMEOUT.

Definition update (action : Action) (state : State) : State * list Effect :=
  match state with
  | States.INITIAL _ =>
      match action with
      | Actions.CONNECT => connect state
      | _ => (state, [])
      end
  | States.CONNECTING _ =>
      match action with
      | Actions.OPEN =>
          (States.OPEN (with_reconnectAttempt (context state) 0),
           [schedulePing state])
      | Actions.CLOSE => (States.CLOSED (context state), clearAllTimeoutsEffects)
      | _ => (state, [])
      end
  | States.OPEN _ =>
      match action with
      | Actions.PING_TIMEOUT =>
          (state,
           [ Effects.CLEAR_TIMEOUT TimeoutKey.ping;
             Effects.SEND_PING;
             waitForPong state ])
      | Actions.PONG_TIMEOUT =>
          (state,
           [ Effects.TRIGGER_ACTION Actions.CLOSE;
             Effects.TRIGGER_ACTION Actions.RECONNECT ])
      | Actions.HEARTBEAT =>
          (state,
           [ Effects.CLEAR_TIMEOUT TimeoutKey.ping;
             Effects.CLEAR_TIMEOUT TimeoutKey.pong;
             schedulePing state ])
      | Actions.CLOSE => (States.CLOSED (context state), clearAllTimeoutsEffects)
      | _ => (state, [])
      end
  | States.CLOSED _ =>
      match action with
      | Actions.RECONNECT =>
          (States.RECONNECTING
             (with_reconnectAttempt (context state)
                (reconnectAttempt (context state) + 1)%Q),
           [scheduleConnect state])
      | _ => (state, [])
      end
  | States.RECONNECTING _ =>
      match action with
      | Actions.CONNECT => connect state
      | _ => (state, [])
      end
  end.

(** ** The machine built by [wsMachine] *)

(** [type Config = Pick<Context, "url" | "pingTimeoutMillis" |
    "pongTimeoutMillis" | "backoffFn"> & { pingMsg?, onMessage,
    onStateChange? }].  The two callbacks are not stored as functions: every
    call of [config.onMessage] and [config.onStateChange] is recorded in the
    run-time state below, and [cfg_onStateChange] says whether the optional
    observer was supplied. *)
Record Config : Type := mkConfig {
  cfg_url : string;
  cfg_pingTimeoutMillis : Q;
  cfg_pongTimeoutMillis : Q;
  cfg_backoffFn : BackoffFn;
  cfg_pingMsg : option string;
  cfg_onStateChange : bool
}.

(** A configuration as a caller writes it: an object literal, in which any
    property may be left out. *)
Record ConfigLiteral : Type := mkConfigLiteral {
  lit_url : option string;
  lit_pingTimeoutMillis : option Q;
  lit_pongTimeoutMillis : option Q;
  lit_backoffFn : option BackoffFn;
  lit_pingMsg : option string;
  lit_onMessage : bool;
  lit_onStateChange : bool
}.

(** The literals that have type [Config]: the four properties picked from
    [Context] and [onMessage] carry no [?] and must be present; [pingMsg] and
    [onStateChange] are optional. *)
Definition asConfig (l : ConfigLiteral) : option Config :=
  match lit_url l, lit_pingTimeoutMillis l, lit_pongTimeoutMillis l,
        lit_backoffFn l, lit_onMessage l with
  | Some u, Some pi, Some po, Some f, true =>
      Some {| cfg_url := u;
              cfg_pingTimeoutMillis := pi;
              cfg_pongTimeoutMillis := po;
              cfg_backoffFn := f;
              cfg_pingMsg := lit_pingMsg l;
              cfg_onStateChange := lit_onStateChange l |}
  | _, _, _, _, _ => None
  end.

(** [{ ...config, reconnectAttempt: 0, randSeed: Math.random() }], with the
    value drawn by [Math.random()] as a parameter. *)
Definition initialContext (config : Config) (rand : Q) : Context :=
  {| url := cfg_url config;
     reconnectAttempt := 0;
     randSeed := rand;
     pingTimeoutMillis := cfg_pingTimeoutMillis config;
     pongTimeoutMillis := cfg_pongTimeoutMillis config;
     backoffFn := cfg_backoffFn config |}.

(** [keyof WebSocketEventMap] *)
Module WsMessageKeys.
Inductive t : Type := close | error | message | open.
End WsMessageKeys.
Abbreviation WsMessageKeys := WsMessageKeys.t.

(** The three closures that [CONNECT_WS] creates.  Each is determined by the
    action of the effect it captures; [handler_socket] is the socket it was
    created for and tells closures of different connections apart, as
    [removeEventListener] compares functions by identity. *)
Inductive HandlerBody : Type :=
| OnOpen (a : Action)
| OnClose (a : Action)
| OnMessage (a : Action).

Record Handler : Type := mkHandler {
  handler_socket : nat;
  handler_body : HandlerBody
}.

(** A [WebSocket] of the environment: its url, the listeners attached to it,
    whether [close()] was called on it, and what was written to it. *)
Record WebSocket : Type := mkWebSocket {
  ws_url : string;
  ws_listeners : list (WsMessageKeys * Handler);
  ws_closed : bool;
  ws_sent : list string
}.

(** A timer of the environment, started by [setTimeout] for a
    [SCHEDULE_TIMEOUT] effect [t]: the payload the callback captures and
    whether the timer is still pending.  A timer is named by its position in
    the list of all timers; the position stands for the handle returned by
    [setTimeout], which is never falsy. *)
Record Timer : Type := mkTimer {
  timer_key : TimeoutKey;
  timer_millis : Q;
  timer_onTimeout : Action;
  timer_live : bool
}.

Global Instance Action_eq_dec : EqDecision Action.
Proof. solve_decision. Defined.

Global Instance HandlerBody_eq_dec : EqDecision HandlerBody.
Proof. solve_decision. Defined.

Global Instance Handler_eq_dec : EqDecision Handler.
Proof. solve_decision. Defined.

Global Instance TimeoutKey_eq_dec : EqDecision TimeoutKey.
Proof. solve_decision. Defined.

Global Instance WsMessageKeys_eq_dec : EqDecision WsMessageKeys.
Proof. solve_decision. Defined.

Definition TimeoutKey_code (k : TimeoutKey) : nat :=
  match k with
  | TimeoutKey.ping => 0 | TimeoutKey.pong => 1 | TimeoutKey.connect => 2
  end.

Definition TimeoutKey_decode (n : nat) : TimeoutKey :=
  match n with
  | 0 => TimeoutKey.ping | 1 => TimeoutKey.pong | _ => TimeoutKey.connect
  end.

Global Instance TimeoutKey_countable : Countable TimeoutKey.
Proof.
  apply (inj_countable' TimeoutKey_code TimeoutKey_decode).
  intros []; reflexivity.
Defined.

Definition WsMessageKeys_code (k : WsMessageKeys) : nat :=
  match k with
  | WsMessageKeys.close => 0 | WsMessageKeys.error => 1
  | WsMessageKeys.message => 2 | WsMessageKeys.open => 3
  end.

Definition WsMessageKeys_decode (n : nat) : WsMessageKeys :=
  match n with
  | 0 => WsMessageKeys.close | 1 => WsMessageKeys.error
  | 2 => WsMessageKeys.message | _ => WsMessageKeys.open
  end.

Global Instance WsMessageKeys_countable : Countable WsMessageKeys.
Proof.
  apply (inj_countable' WsMessageKeys_code WsMessageKeys_decode).
  intros []; reflexivity.
Defined.

(** The mutable variables captured by the closures of one [wsMachine] call
    ([ws], [wsState] and its change handler, [timeouts], [wsHandlers]), the
    part of the environment they act on ([sockets], [timers], indexed by
    handle), and the calls made so far to the two callbacks of the
    configuration. *)
Record Runtime : Type := mkRuntime {
  ws : option nat;
  wsState : State;
  observed : bool;
  timeouts : gmap TimeoutKey nat;
  wsHandlers : gmap WsMessageKeys Handler;
  sockets : list WebSocket;
  timers : list Timer;
  messages : list string;
  stateChanges : list (State * State)
}.

Definition set_ws (v : option nat) (rt : Runtime) : Runtime :=
  mkRuntime v (wsState rt) (observed rt) (timeouts rt) (wsHandlers rt)
    (sockets rt) (timers rt) (messages rt) (stateChanges rt).

Definition set_wsState (v : State) (rt : Runtime) : Runtime :=
  mkRuntime (ws rt) v (observed rt) (timeouts rt) (wsHandlers rt)
    (sockets rt) (timers rt) (messages rt) (stateChanges rt).

Definition set_observed (v : bool) (rt : Runtime) : Runtime :=
  mkRuntime (ws rt) (wsState rt) v (timeouts rt) (wsHandlers rt)
    (sockets rt) (timers rt) (messages rt) (stateChanges rt).

Definition set_timeouts (v : gmap TimeoutKey nat) (rt : Runtime) : Runtime :=
  mkRuntime (ws rt) (wsState rt) (observed rt) v (wsHandlers rt)
    (sockets rt) (timers rt) (messages rt) (stateChanges rt).

Definition set_wsHandlers (v : gmap WsMessageKeys Handler) (rt : Runtime)
  : Runtime :=
  mkRuntime (ws rt) (wsState rt) (observed rt) (timeouts rt) v
    (sockets rt) (timers rt) (messages rt) (stateChanges rt).

Definition set_sockets (v : list WebSocket) (rt : Runtime) : Runtime :=
  mkRuntime (ws rt) (wsState rt) (observed rt) (timeouts rt) (wsHandlers rt)
    v (timers rt) (messages rt) (stateChanges rt).

Definition set_timers (v : list Timer) (rt : Runtime) : Runtime :=
  mkRuntime (ws rt) (wsState rt) (observed rt) (timeouts rt) (wsHandlers rt)
    (sockets rt) v (messages rt) (stateChanges rt).

Definition set_messages (v : list string) (rt : Runtime) : Runtime :=
  mkRuntime (ws rt) (wsState rt) (observed rt) (timeouts rt) (wsHandlers rt)
    (sockets rt) (timers rt) v (stateChanges rt).

Definition set_stateChanges (v : list (State * State)) (rt : Runtime)
  : Runtime :=
  mkRuntime (ws rt) (wsState rt) (observed rt) (timeouts rt) (wsHandlers rt)
    (sockets rt) (timers rt) (messages rt) v.

(** *** Timers and listeners *)

(** What [clearTimeout] and the firing of a timer do to it: it is no longer
    pending. *)
Definition stopped (t : Timer) : Timer :=
  {| timer_key := timer_key t;
     timer_millis := timer_millis t;
     timer_onTimeout := timer_onTimeout t;
     timer_live := false |}.

(** [clearTimeout(t)] *)
Definition clearTimeout (t : nat) (rt : Runtime) : Runtime :=
  set_timers (alter stopped t (timers rt)) rt.

Definition nukeTimeout (k : TimeoutKey) (rt : Runtime) : Runtime :=
  match timeouts rt !! k with
  | Some t => clearTimeout t rt
  | None => rt
  end.

(** [timeouts.forEach((v, k) => nukeTimeout(k))] *)
Definition clearTimeouts (rt : Runtime) : Runtime :=
  map_fold (fun k _ acc => nukeTimeout k acc) rt (timeouts rt).

(** [webSocket.addEventListener(type, handler)] *)
Definition attach (type : WsMessageKeys) (handler : Handler) (s : WebSocket)
  : WebSocket :=
  {| ws_url := ws_url s;
     ws_listeners := ws_listeners s ++ [(type, handler)];
     ws_closed := ws_closed s;
     ws_sent := ws_sent s |}.

(** [webSocket.removeEventListener(type, handler)] *)
Definition detach (type : WsMessageKeys) (handler : Handler) (s : WebSocket)
  : WebSocket :=
  {| ws_url := ws_url s;
     ws_listeners :=
       filter (fun l => l ≠ (type, handler)) (ws_listeners s);
     ws_closed := ws_closed s;
     ws_sent := ws_sent s |}.

(** [ws.close()] *)
Definition closed (s : WebSocket) : WebSocket :=
  {| ws_url := ws_url s;
     ws_listeners := ws_listeners s;
     ws_closed := true;
     ws_sent := ws_sent s |}.

(** [ws.send(data)]: the payload is recorded on the socket. *)
Definition sent (data : string) (s : WebSocket) : WebSocket :=
  {| ws_url := ws_url s;
     ws_listeners := ws_listeners s;
     ws_closed := ws_closed s;
     ws_sent := ws_sent s ++ [data] |}.

(** [new WebSocket(url)] *)
Definition newWebSocket (url : string) : WebSocket :=
  {| ws_url := url; ws_listeners := []; ws_closed := false; ws_sent := [] |}.

Definition addEventListener (webSocket : nat) (type : WsMessageKeys)
    (handler : Handler) (rt : Runtime) : Runtime :=
  set_wsHandlers (<[type := handler]> (wsHandlers rt))
    (set_sockets (alter (attach type handler) webSocket (sockets rt)) rt).

Definition removeEventListeners (webSocket : nat) (rt : Runtime) : Runtime :=
  map_fold
    (fun k h acc => set_sockets (alter (detach k h) webSocket (sockets acc)) acc)
    rt (wsHandlers rt).

(** *** The state cell *)

(** [swap(wsState, f)] of [@libre/atom]: the new state replaces the old one
    and the registered change handler, if any, is called with
    [{previous, current}]. *)
Definition swap (f : State -> State) (rt : Runtime) : Runtime :=
  let previous := wsState rt in
  let current := f previous in
  let rt := set_wsState current rt in
  if observed rt
  then set_stateChanges (stateChanges rt ++ [(previous, current)]) rt
  else rt.

(** *** The effect interpreter *)

(** [handleEffect]; the argument [transition] is the function of the same
    name, with which [handleEffect] is mutually recursive. *)
Definition handleEffect (config : Config)
    (transition : Action -> Runtime -> option Runtime)
    (effect : Effect) (rt : Runtime) : option Runtime :=
  match effect with
  | Effects.CONNECT_WS url aOpen aClose aPongMessage =>
      let rt :=
        match ws rt with
        | Some w =>
            let rt := removeEventListeners w rt in
            let rt := clearTimeouts rt in
            set_sockets (alter closed w (sockets rt)) rt
        | None => rt
        end in
      let w := length (sockets rt) in
      let rt := set_ws (Some w) (set_sockets (sockets rt ++ [newWebSocket url]) rt) in
      let rt := addEventListener w WsMessageKeys.open (mkHandler w (OnOpen aOpen)) rt in
      let rt := addEventListener w WsMessageKeys.close (mkHandler w (OnClose aClose)) rt in
      let rt :=
        addEventListener w WsMessageKeys.message
          (mkHandler w (OnMessage aPongMessage)) rt in
      Some rt
  | Effects.SCHEDULE_TIMEOUT key timeoutMillis aTimeout =>
      let t := length (timers rt) in
      let rt := set_timers (timers rt ++ [mkTimer key timeoutMillis aTimeout true]) rt in
      Some (set_timeouts (<[key := t]> (timeouts rt)) rt)
  | Effects.SEND_PING =>
      match ws rt with
      | Some w =>
          Some (set_sockets
                  (alter (sent (default "ping" (cfg_pingMsg config))) w (sockets rt))
                  rt)
      | None => Some rt
      end
  | Effects.CLEAR_TIMEOUT key => Some (nukeTimeout key rt)
  | Effects.TRIGGER_ACTION a => transition a rt
  end.

(** [effects.forEach((e) => handleEffect(e))] *)
Fixpoint handleEffects (handle : Effect -> Runtime -> option Runtime)
    (effects : list Effect) (rt : Runtime) : option Runtime :=
  match effects with
  | [] => Some rt
  | e :: effects' => rt' ← handle e rt; handleEffects handle effects' rt'
  end.

(** [transition]: [fuel] bounds the depth of the calls of [transition] nested
    through [TRIGGER_ACTION]; [None] means the bound was reached. *)
Fixpoint transition (config : Config) (fuel : nat) (a : Action) (rt : Runtime)
  : option Runtime :=
  match fuel with
  | O => None
  | S fuel' =>
      let '(newState, effects) := update a (wsState rt) in
      let rt := swap (fun _ => newState) rt in
      handleEffects (handleEffect config (transition config fuel')) effects rt
  end.

(** *** Callbacks run by the environment *)

(** The bodies of [onOpen], [onClose] and [onMessage]; [data] is [ev.data]. *)
Definition runHandler (config : Config) (fuel : nat) (h : Handler)
    (data : string) (rt : Runtime) : option Runtime :=
  match handler_body h with
  | OnOpen a => transition config fuel a rt
  | OnClose a =>
      rt' ← transition config fuel a rt;
      transition config fuel Actions.RECONNECT rt'
  | OnMessage a =>
      let msg := data in
      let rt :=
        if negb (String.eqb msg "pong")
        then set_messages (messages rt ++ [msg]) rt
        else rt in
      transition config fuel a rt
  end.

Fixpoint runHandlers (config : Config) (fuel : nat) (hs : list Handler)
    (data : string) (rt : Runtime) : option Runtime :=
  match hs with
  | [] => Some rt
  | h :: hs' =>
      rt' ← runHandler config fuel h data rt;
      runHandlers config fuel hs' data rt'
  end.

(** The listeners of a socket for one type of event, in the order in which
    they were attached. *)
Definition listenersFor (type : WsMessageKeys) (s : WebSocket) : list Handler :=
  (filter (fun l => l.1 = type) (ws_listeners s)).*2.

(** What can happen to a machine: a call of one of the members of the object
    that [wsMachine] returns, a pending timer firing, or an event on a
    socket. *)
Inductive Event : Type :=
| call_connect
| call_currentState
| call_disconnect
| timer_fires (t : nat)
| socket_event (w : nat) (type : WsMessageKeys) (data : string).

(** [disconnect] of the returned object. *)
Definition disconnect (rt : Runtime) : Runtime :=
  let rt := set_observed false rt in
  match ws rt with
  | Some w =>
      let rt := removeEventListeners w rt in
      let rt := clearTimeouts rt in
      let rt :=
        swap (fun currState =>
                States.INITIAL (with_reconnectAttempt (context currState) 0)) rt in
      set_sockets (alter closed w (sockets rt)) rt
  | None => rt
  end.

(** [currentState] of the returned object. *)
Definition currentState (rt : Runtime) : State := wsState rt.

(** The callback [() => transition(t.onTimeout)] of a pending timer runs. *)
Definition fireTimer (config : Config) (fuel : nat) (t : nat) (rt : Runtime)
  : option Runtime :=
  match timers rt !! t with
  | Some tm =>
      if timer_live tm
      then transition config fuel (timer_onTimeout tm)
             (set_timers (alter stopped t (timers rt)) rt)
      else Some rt
  | None => Some rt
  end.

Definition dispatchEvent (config : Config) (fuel : nat) (w : nat)
    (type : WsMessageKeys) (data : string) (rt : Runtime) : option Runtime :=
  match sockets rt !! w with
  | Some s => runHandlers config fuel (listenersFor type s) data rt
  | None => Some rt
  end.

Definition step (config : Config) (fuel : nat) (e : Event) (rt : Runtime)
  : option Runtime :=
  match e with
  | call_connect => transition config fuel Actions.CONNECT rt
  | call_currentState => Some rt
  | call_disconnect => Some (disconnect rt)
  | timer_fires t => fireTimer config fuel t rt
  | socket_event w type data => dispatchEvent config fuel w type data rt
  end.

(** The variables of a fresh [wsMachine(config)]; [rand] is the value of
    [Math.random()]. *)
Definition wsMachine (config : Config) (rand : Q) : Runtime :=
  {| ws := None;
     wsState := States.INITIAL (initialContext config rand);
     observed := cfg_onStateChange config;
     timeouts := ∅;
     wsHandlers := ∅;
     sockets := [];
     timers := [];
     messages := [];
     stateChanges := [] |}.

(** The states of a machine between two events. *)
Inductive reachable (config : Config) (rand : Q) : Runtime -> Prop :=
| reachable_init : reachable config rand (wsMachine config rand)
| reachable_step rt fuel e rt' :
    reachable config rand rt ->
    step config fuel e rt = Some rt' ->
    reachable config rand rt'.

(** *** The object returned by [wsMachine] *)

(** [type WsMachine = { connect, currentState, disconnect }] and the object
    literal returned by [wsMachine]: its properties, by name. *)
Module WsMachine.
Inductive Member : Type := connect | currentState | disconnect.

Definition member (name : string) : option Member :=
  if String.eqb name "connect" then Some connect
  else if String.eqb name "currentState" then Some currentState
  else if String.eqb name "disconnect" then Some disconnect
  else None.
End WsMachine.

(** How a call [machine.name(...)] completes: it returns, or it throws the
    [TypeError] of calling a property that is [undefined]. *)
Inductive Completion : Type :=
| Returns (rt : option Runtime)
| TypeError_not_a_function.

Definition callMember (config : Config) (fuel : nat) (name : string)
    (rt : Runtime) : Completion :=
  match WsMachine.member name with
  | Some WsMachine.connect => Returns (step config fuel call_connect rt)
  | Some WsMachine.currentState => Returns (step config fuel call_currentState rt)
  | Some WsMachine.disconnect => Returns (step config fuel call_disconnect rt)
  | None => TypeError_not_a_function
  end.

(** ** The transition table of the specification *)

(** The nine rows of the table, as the specification lists them; [None] for
    the combinations it does not list. *)
Definition transitionTable (state : State) (action : Action)
  : option (State * list Effect) :=
  match state, action with
  | States.INITIAL c, Actions.CONNECT =>
      Some (States.CONNECTING c,
            [ Effects.CLEAR_TIMEOUT TimeoutKey.connect;
              Effects.CONNECT_WS (url c)
                Actions.OPEN Actions.CLOSE Actions.HEARTBEAT ])
  | States.CONNECTING c, Actions.OPEN =>
      Some (States.OPEN (with_reconnectAttempt c 0),
            [ Effects.SCHEDULE_TIMEOUT TimeoutKey.ping
                (pingTimeoutMillis c) Actions.PING_TIMEOUT ])
  | States.CONNECTING c, Actions.CLOSE =>
      Some (States.CLOSED c,
            [ Effects.CLEAR_TIMEOUT TimeoutKey.connect;
              Effects.CLEAR_TIMEOUT TimeoutKey.ping;
              Effects.CLEAR_TIMEOUT TimeoutKey.pong ])
  | States.OPEN c, Actions.PING_TIMEOUT =>
      Some (States.OPEN c,
            [ Effects.CLEAR_TIMEOUT TimeoutKey.ping;
              Effects.SEND_PING;
              Effects.SCHEDULE_TIMEOUT TimeoutKey.pong
                (pongTimeoutMillis c) Actions.PONG_TIMEOUT ])
  | States.OPEN c, Actions.PONG_TIMEOUT =>
      Some (States.OPEN c,
            [ Effects.TRIGGER_ACTION Actions.CLOSE;
              Effects.TRIGGER_ACTION Actions.RECONNECT ])
  | States.OPEN c, Actions.HEARTBEAT =>
      Some (States.OPEN c,
            [ Effects.CLEAR_TIMEOUT TimeoutKey.ping;
              Effects.CLEAR_TIMEOUT TimeoutKey.pong;
              Effects.SCHEDULE_TIMEOUT TimeoutKey.ping
                (pingTimeoutMillis c) Actions.PING_TIMEOUT ])
  | States.OPEN c, Actions.CLOSE =>
      Some (States.CLOSED c,
            [ Effects.CLEAR_TIMEOUT TimeoutKey.connect;
              Effects.CLEAR_TIMEOUT TimeoutKey.ping;
              Effects.CLEAR_TIMEOUT TimeoutKey.pong ])
  | States.CLOSED c, Actions.RECONNECT =>
      Some (States.RECONNECTING
              (with_reconnectAttempt c (reconnectAttempt c + 1)%Q),
            [ Effects.SCHEDULE_TIMEOUT TimeoutKey.connect
                (backoffFn c (reconnectAttempt c + 1)%Q (randSeed c))
                Actions.CONNECT ])
  | States.RECONNECTING c, Actions.CONNECT =>
      Some (States.CONNECTING c,
            [ Effects.CLEAR_TIMEOUT TimeoutKey.connect;
              Effects.CONNECT_WS (url c)
                Actions.OPEN Actions.CLOSE Actions.HEARTBEAT ])
  | _, _ => None
  end.

(** ** Vocabulary of the properties *)

Definition isConnectWs (e : Effect) : bool :=
  match e with Effects.CONNECT_WS _ _ _ _ => true | _ => false end.

Definition isTrigger (e : Effect) : bool :=
  match e with Effects.TRIGGER_ACTION _ => true | _ => false end.

(** The two combinations of the table that lead into CONNECTING. *)
Definition entersConnecting (state : State) (action : Action) : bool :=
  match state, action with
  | States.INITIAL _, Actions.CONNECT
  | States.RECONNECTING _, Actions.CONNECT => true
  | _, _ => false
  end.

Definition isReconnecting (state : State) : bool :=
  match state with States.RECONNECTING _ => true | _ => false end.

Definition isClosed (state : State) : bool :=
  match state with States.CLOSED _ => true | _ => false end.

Definition isConnecting (state : State) : bool :=
  match state with States.CONNECTING _ => true | _ => false end.


(** A number that is a non-negative integer. *)
Definition isNonNegInteger (q : Q) : Prop :=
  exists n : nat, q = inject_Z (Z.of_nat n).

(** The action that the timer scheduled for a key injects, as
    [scheduleConnect], [schedulePing] and [waitForPong] set it. *)
Definition timeoutAction (k : TimeoutKey) : Action :=
  match k with
  | TimeoutKey.ping => Actions.PING_TIMEOUT
  | TimeoutKey.pong => Actions.PONG_TIMEOUT
  | TimeoutKey.connect => Actions.CONNECT
  end.

(** A timer for key [k] is pending. *)
Definition liveKey (rt : Runtime) (k : TimeoutKey) : Prop :=
  exists t tm,
    timers rt !! t = Some tm /\ timer_live tm = true /\ timer_key tm = k.

(** ** An abstraction of the machine

    Used to establish the invariants of the interpreter: the pending timers
    are abstracted to the set of their keys ([SCHEDULE_TIMEOUT] adds the key,
    [CLEAR_TIMEOUT] removes it, a timer that fires is removed), the socket to
    whether one was ever opened.  Scheduling a key that is still in the set
    has no result. *)
Record Live : Type := mkLive {
  live_ping : bool;
  live_pong : bool;
  live_connect : bool
}.

Definition isLive (L : Live) (k : TimeoutKey) : bool :=
  match k with
  | TimeoutKey.ping => live_ping L
  | TimeoutKey.pong => live_pong L
  | TimeoutKey.connect => live_connect L
  end.

Definition setLive (k : TimeoutKey) (b : bool) (L : Live) : Live :=
  match k with
  | TimeoutKey.ping => mkLive b (live_pong L) (live_connect L)
  | TimeoutKey.pong => mkLive (live_ping L) b (live_connect L)
  | TimeoutKey.connect => mkLive (live_ping L) (live_pong L) b
  end.

Record Abstract : Type := mkAbstract {
  a_state : State;
  a_live : Live;
  a_ws : bool
}.

Definition absEffect (tr : Action -> Abstract -> option Abstract)
    (e : Effect) (x : Abstract) : option Abstract :=
  match e with
  | Effects.CONNECT_WS _ aOpen aClose aPongMessage =>
      if bool_decide (aOpen = Actions.OPEN /\ aClose = Actions.CLOSE
                      /\ aPongMessage = Actions.HEARTBEAT)
      then Some (mkAbstract (a_state x) (a_live x) true)
      else None
  | Effects.SCHEDULE_TIMEOUT key _ aTimeout =>
      if isLive (a_live x) key then None
      else if bool_decide (aTimeout = timeoutAction key)
      then Some (mkAbstract (a_state x) (setLive key true (a_live x)) (a_ws x))
      else None
  | Effects.SEND_PING => Some x
  | Effects.CLEAR_TIMEOUT key =>
      Some (mkAbstract (a_state x) (setLive key false (a_live x)) (a_ws x))
  | Effects.TRIGGER_ACTION a => tr a x
  end.

Fixpoint absEffects (handle : Effect -> Abstract -> option Abstract)
    (effects : list Effect) (x : Abstract) : option Abstract :=
  match effects with
  | [] => Some x
  | e :: effects' => x' ← handle e x; absEffects handle effects' x'
  end.

Fixpoint absTransition (fuel : nat) (a : Action) (x : Abstract)
  : option Abstract :=
  match fuel with
  | O => None
  | S fuel' =>
      let '(newState, effects) := update a (a_state x) in
      absEffects (absEffect (absTransition fuel')) effects
        (mkAbstract newState (a_live x) (a_ws x))
  end.

(** Which timers may be pending in which state, and what holds before the
    first socket is opened. *)
Definition shape (x : Abstract) : Prop :=
  match a_state x with
  | States.INITIAL _ | States.CONNECTING _ | States.CLOSED _ =>
      a_live x = mkLive false false false
  | States.OPEN _ =>
      live_connect (a_live x) = false
      /\ live_ping (a_live x) && live_pong (a_live x) = false
  | States.RECONNECTING _ =>
      live_ping (a_live x) = false /\ live_pong (a_live x) = false
  end
  /\ (a_ws x = false ->
      exists c, a_state x = States.INITIAL c /\ reconnectAttempt c = 0%Q).

(** ** Invariants of the interpreter *)

(** The timer map and the timers agree: a pending timer is the one stored
    under its key, a stored handle is a timer of that key, and every timer
    injects the action of its key. *)
Record TimersOk (rt : Runtime) : Prop := mkTimersOk {
  ok_tracked : forall t tm,
    timers rt !! t = Some tm -> timer_live tm = true ->
    timeouts rt !! timer_key tm = Some t;
  ok_key : forall k t,
    timeouts rt !! k = Some t ->
    exists tm, timers rt !! t = Some tm /\ timer_key tm = k;
  ok_action : forall t tm,
    timers rt !! t = Some tm ->
    timer_onTimeout tm = timeoutAction (timer_key tm)
}.

Definition handlerOk (h : Handler) : Prop :=
  handler_body h = OnOpen Actions.OPEN
  \/ handler_body h = OnClose Actions.CLOSE
  \/ handler_body h = OnMessage Actions.HEARTBEAT.

Definition listenersOk (ss : list WebSocket) : Prop :=
  forall w s l, ss !! w = Some s -> l ∈ ws_listeners s -> handlerOk l.2.

(** Every listener is one of the three that [CONNECT_WS] attaches for the
    effect of [connect], and the socket variable holds a handle of the
    environment. *)
Record SocketsOk (rt : Runtime) : Prop := mkSocketsOk {
  ok_listeners : listenersOk (sockets rt);
  ok_ws : forall w, ws rt = Some w -> w < length (sockets rt)
}.

(** The timers of [ts'] are those of [ts], some of them stopped. *)
Definition stoppedSome (ts ts' : list Timer) : Prop :=
  forall t, ts' !! t = ts !! t \/ ts' !! t = stopped <$> ts !! t.

(** The state cell, its observer and the calls recorded so far. *)
Definition cell (rt : Runtime)
  : State * bool * list string * list (State * State) :=
  (wsState rt, observed rt, messages rt, stateChanges rt).

(** [x] describes [rt]: same state, every pending key is in the set. *)
Record Abs (rt : Runtime) (x : Abstract) : Prop := mkAbs {
  abs_state : a_state x = wsState rt;
  abs_live : forall k, liveKey rt k -> isLive (a_live x) k = true;
  abs_ws : a_ws x = bool_decide (is_Some (ws rt))
}.

Record Inv (config : Config) (rand : Q) (rt : Runtime) : Prop := mkInv {
  inv_timers : TimersOk rt;
  inv_sockets : SocketsOk rt;
  inv_shape : exists x, Abs rt x /\ shape x;
  inv_context :
    with_reconnectAttempt (context (wsState rt)) 0
    = initialContext config rand
}.


(** [x] describes [rt] and [rt] is well formed. *)
Definition Sim (rt : Runtime) (x : Abstract) : Prop :=
  TimersOk rt /\ SocketsOk rt /\ Abs rt x.

(** ** Scenarios of the tests *)

(** A sequence of events, one after the other. *)
Fixpoint run (config : Config) (fuel : nat) (es : list Event) (rt : Runtime)
  : option Runtime :=
  match es with
  | [] => Some rt
  | e :: es' => rt' ← step config fuel e rt; run config fuel es' rt'
  end.

(** The configuration of the tests of [wsMachine]. *)
Definition testConfig : Config :=
  {| cfg_url := "ws://localhost:1234";
     cfg_pingTimeoutMillis := 5;
     cfg_pongTimeoutMillis := 5;
     cfg_backoffFn := calcBackoffFn;
     cfg_pingMsg := None;
     cfg_onStateChange := true |}.

(** The configuration of the test "custom ping and pong works", as far as
    [Config] has the properties that the test passes. *)
Definition customConfig : Config :=
  {| cfg_url := "ws://localhost:2345";
     cfg_pingTimeoutMillis := 5;
     cfg_pongTimeoutMillis := 5;
     cfg_backoffFn := calcBackoffFn;
     cfg_pingMsg := Some "MyPing";
     cfg_onStateChange := false |}.

(** A machine after [connect()] and the open event of its socket. *)
Definition openMachine (config : Config) : Runtime :=
  default (wsMachine config 0)
    (run config 2 [call_connect; socket_event 0 WsMessageKeys.open ""]
       (wsMachine config 0)).

(** A configuration literal with every required property ... *)
Definition testLiteral : ConfigLiteral :=
  {| lit_url := Some "ws://localhost:1234";
     lit_pingTimeoutMillis := Some 5%Q;
     lit_pongTimeoutMillis := Some 5%Q;
     lit_backoffFn := Some calcBackoffFn;
     lit_pingMsg := None;
     lit_onMessage := true;
     lit_onStateChange := true |}.

(** ... and the same literal without [backoffFn]. *)
Definition literalWithoutBackoffFn : ConfigLiteral :=
  {| lit_url := Some "ws://localhost:1234";
     lit_pingTimeoutMillis := Some 5%Q;
     lit_pongTimeoutMillis := Some 5%Q;
     lit_backoffFn := None;
     lit_pingMsg := None;
     lit_onMessage := true;
     lit_onStateChange := true |}.


(** An action whose transition triggers no further action, in any state. *)
Definition triggerFree (a : Action) : Prop :=
  forall s, existsb isTrigger (update a s).2 = false.


(** ** Vocabulary of the further properties *)

(** The delay of a timer for key [k], in terms of the configuration: the
    configured ping and pong timeouts, and the backoff function of the
    configuration at some attempt 1, 2, ... and the seed of the machine. *)
Definition delayOk (config : Config) (rand : Q) (k : TimeoutKey) (ms : Q)
  : Prop :=
  match k with
  | TimeoutKey.ping => ms = cfg_pingTimeoutMillis config
  | TimeoutKey.pong => ms = cfg_pongTimeoutMillis config
  | TimeoutKey.connect =>
      exists n : nat, ms = cfg_backoffFn config (inject_Z (Z.of_nat (S n))) rand
  end.

(** The notifications [l] lead from [s0] to [s] without a gap: each one
    starts in the state in which the one before it ended. *)
Fixpoint isPath (s0 : State) (l : list (State * State)) (s : State) : Prop :=
  match l with
  | [] => s0 = s
  | (previous, current) :: l' => previous = s0 /\ isPath current l' s
  end.

Definition isInitial (state : State) : bool :=
  match state with States.INITIAL _ => true | _ => false end.

Definition isSchedule (e : Effect) : bool :=
  match e with Effects.SCHEDULE_TIMEOUT _ _ _ => true | _ => false end.

(** The three listeners that [CONNECT_WS] attaches to socket [w] for the
    effect of [connect], in the order in which it attaches them. *)
Definition connListeners (w : nat) : list (WsMessageKeys * Handler) :=
  [ (WsMessageKeys.open, mkHandler w (OnOpen Actions.OPEN));
    (WsMessageKeys.close, mkHandler w (OnClose Actions.CLOSE));
    (WsMessageKeys.message, mkHandler w (OnMessage Actions.HEARTBEAT)) ].


(** What the effects of [update] schedule, in terms of the configuration. *)
Definition scheduleOk (config : Config) (rand : Q) (e : Effect) : Prop :=
  match e with
  | Effects.SCHEDULE_TIMEOUT key timeoutMillis _ =>
      delayOk config rand key timeoutMillis
  | _ => True
  end.

(** The context of the machine is the one built from the configuration, up
    to the reconnect counter, which is a non-negative integer; and every
    timer ever started has a delay taken from the configuration. *)
Record ContextInv (config : Config) (rand : Q) (rt : Runtime) : Prop :=
  mkContextInv {
  ci_context :
    with_reconnectAttempt (context (wsState rt)) 0
    = initialContext config rand;
  ci_counter : isNonNegInteger (reconnectAttempt (context (wsState rt)));
  ci_delays : forall t tm,
    timers rt !! t = Some tm ->
    delayOk config rand (timer_key tm) (timer_millis tm)
}.


(** The two halves of the CONNECT_WS branch of [handleEffect]: what it does
    with the socket it already has, and how it opens the new one. *)
Definition retireSocket (rt : Runtime) : Runtime :=
  match ws rt with
  | Some w =>
      let rt := removeEventListeners w rt in
      let rt := clearTimeouts rt in
      set_sockets (alter closed w (sockets rt)) rt
  | None => rt
  end.

Definition openSocket (url : string) (aOpen aClose aPongMessage : Action)
    (rt : Runtime) : Runtime :=
  let w := length (sockets rt) in
  let rt := set_ws (Some w) (set_sockets (sockets rt ++ [newWebSocket url]) rt) in
  let rt := addEventListener w WsMessageKeys.open (mkHandler w (OnOpen aOpen)) rt in
  let rt := addEventListener w WsMessageKeys.close (mkHandler w (OnClose aClose)) rt in
  addEventListener w WsMessageKeys.message
    (mkHandler w (OnMessage aPongMessage)) rt.

(** Where the listeners are: sockets other than the current one have none;
    the current one has none while the machine is INITIAL and otherwise the
    three of its CONNECT_WS, each of which is the handler stored for its
    event type; and a machine without a socket is INITIAL. *)
Record ListenersInv (rt : Runtime) : Prop := mkListenersInv {
  li_stale : forall w s,
    sockets rt !! w = Some s -> ws rt <> Some w -> ws_listeners s = [];
  li_current : forall w,
    ws rt = Some w ->
    exists s,
      sockets rt !! w = Some s
      /\ ws_listeners s
         = if isInitial (wsState rt) then [] else connListeners w;
  li_handlers : forall w s l,
    ws rt = Some w -> sockets rt !! w = Some s -> l ∈ ws_listeners s ->
    wsHandlers rt !! l.1 = Some l.2;
  li_none : ws rt = None -> isInitial (wsState rt) = true
}.


(** Every socket was opened to the configured url, and all that was written
    to it is the ping payload. *)
Definition socketsContent (config : Config) (rt : Runtime) : Prop :=
  forall w s,
    sockets rt !! w = Some s ->
    ws_url s = cfg_url config
    /\ forall d, d ∈ ws_sent s -> d = default "ping" (cfg_pingMsg config).

Definition connectOk (config : Config) (e : Effect) : Prop :=
  match e with
  | Effects.CONNECT_WS u _ _ _ => u = cfg_url config
  | _ => True
  end.


(** The state in which a transition for [a] ends when it starts in [s]:
    the state that [update] returns, followed by the transitions for the
    actions that its effects trigger, in order. *)
Definition settle (a : Action) (s : State) : State :=
  foldl
    (fun s e =>
       match e with
       | Effects.TRIGGER_ACTION a' => (update a' s).1
       | _ => s
       end)
    (update a s).1 (update a s).2.


(** ** The abstraction, with the set of pending keys exact

    As [absEffect], except that CONNECT_WS has a result only when no key is
    pending: in the runs of the machine that is always so when CONNECT_WS is
    executed, and the set is then exact whether or not CONNECT_WS clears the
    timers. *)
Definition noneLive (L : Live) : bool :=
  negb (live_ping L || live_pong L || live_connect L).

Definition absEffectX (tr : Action -> Abstract -> option Abstract)
    (e : Effect) (x : Abstract) : option Abstract :=
  match e with
  | Effects.CONNECT_WS _ _ _ _ =>
      if noneLive (a_live x) then absEffect tr e x else None
  | _ => absEffect tr e x
  end.

Fixpoint absTransitionX (fuel : nat) (a : Action) (x : Abstract)
  : option Abstract :=
  match fuel with
  | O => None
  | S fuel' =>
      let '(newState, effects) := update a (a_state x) in
      absEffects (absEffectX (absTransitionX fuel')) effects
        (mkAbstract newState (a_live x) (a_ws x))
  end.

(** Every key of the set is pending. *)
Definition Low (rt : Runtime) (x : Abstract) : Prop :=
  forall k, isLive (a_live x) k = true -> liveKey rt k.

(** Which timers are pending in which state. *)
Definition exactShape (x : Abstract) : Prop :=
  match a_state x with
  | States.INITIAL _ | States.CONNECTING _ | States.CLOSED _ =>
      a_live x = mkLive false false false
  | States.OPEN _ =>
      a_live x = mkLive true false false
      \/ a_live x = mkLive false true false
  | States.RECONNECTING _ => a_live x = mkLive false false true
  end.

(** The invariant of the interpreter with the pending keys exact. *)
Definition InvX (rt : Runtime) : Prop :=
  exists x, Sim rt x /\ Low rt x /\ exactShape x.


(** The SCHEDULE_TIMEOUT and SEND_PING branches of [handleEffect]. *)
Definition scheduleTimeout (key : TimeoutKey) (timeoutMillis : Q)
    (aTimeout : Action) (rt : Runtime) : Runtime :=
  let t := length (timers rt) in
  let rt :=
    set_timers (timers rt ++ [mkTimer key timeoutMillis aTimeout true]) rt in
  set_timeouts (<[key := t]> (timeouts rt)) rt.

Definition sendPing (config : Config) (rt : Runtime) : Runtime :=
  match ws rt with
  | Some w =>
      set_sockets
        (alter (sent (default "ping" (cfg_pingMsg config))) w (sockets rt)) rt
  | None => rt
  end.

(** The keys with a pending timer are those of [ks]. *)
Definition pendingExactly (rt : Runtime) (ks : list TimeoutKey) : Prop :=
  forall k, liveKey rt k <-> k ∈ ks.

(** The timer with handle [t] is [tm], it is pending, and no other timer
    is. *)
Definition onlyPending (rt : Runtime) (t : nat) (tm : Timer) : Prop :=
  timers rt !! t = Some tm
  /\ timer_live tm = true
  /\ forall t' tm',
       timers rt !! t' = Some tm' -> timer_live tm' = true -> t' = t.


(** [rt'] has the socket, the sockets and the messages of [rt], and as
    many timers. *)
Definition sameFrame (rt rt' : Runtime) : Prop :=
  ws rt' = ws rt /\ sockets rt' = sockets rt
  /\ messages rt' = messages rt
  /\ length (timers rt') = length (timers rt).


(** A machine after [connect()], before its socket has opened. *)
Definition connectingMachine (config : Config) : Runtime :=
  default (wsMachine config 0)
    (run config 1 [call_connect] (wsMachine config 0)).


(** An open machine whose ping timer has fired: it waits for the pong. *)
Definition awaitingPong (config : Config) : Runtime :=
  default (wsMachine config 0)
    (run config 2
       [call_connect; socket_event 0 WsMessageKeys.open ""; timer_fires 0]
       (wsMachine config 0)).


(** * Properties *)

(** ** The transition function *)

(** C1: [update] is a total function and agrees with the transition table
    of the specification: on each of the nine listed combinations it returns
    the state and the effects of the row, in order, and on every other
    combination the state it was given and no effect. *)
Theorem update_transition_table (action : Action) (state : State) :
  update action state = default (state, []) (transitionTable state action).
Proof. destruct state, action; reflexivity. Qed.

(** ** The backoff function *)

Lemma calcBackoff_nonzero (attempt randSeed : Q) (maxVal : option Q) :
  ~ (attempt == 0)%Q ->
  calcBackoff attempt randSeed maxVal
  = (Qmin (default 30000 maxVal) (attempt ^ 2 * 1000) + 2000 * randSeed)%Q.
Proof.
  intros Hne. unfold calcBackoff.
  destruct (Qeq_bool attempt 0) eqn:E; [|reflexivity].
  apply Qeq_bool_iff in E. contradiction.
Qed.

(** C2: [calcBackoff] is 0 for attempt 0; for an attempt of at least 1 it
    is [min(maxVal, attempt^2 * 1000) + 2000 * randSeed], the jitter being
    added to the capped value, so that the result can exceed [maxVal];
    [calcBackoff(1, 0.5)] is 2000 and [calcBackoff(6, 0.5, 60000)] is
    37000. *)
Theorem calcBackoff_spec (attempt randSeed : Q) (maxVal : option Q) :
  (1 <= attempt)%Q ->
  (0 <= randSeed)%Q /\ (randSeed < 1)%Q ->
  calcBackoff 0 randSeed maxVal = 0%Q
  /\ calcBackoff attempt randSeed maxVal
     = (Qmin (default 30000 maxVal) (attempt ^ 2 * 1000) + 2000 * randSeed)%Q
  /\ (calcBackoff 1 (1 # 2) None == 2000)%Q
  /\ (calcBackoff 6 (1 # 2) (Some 60000%Q) == 37000)%Q
  /\ exists a r m,
       (1 <= a)%Q /\ (0 <= r)%Q /\ (r < 1)%Q
       /\ (default 30000 m < calcBackoff a r m)%Q.
Proof.
  intros Ha _. split; [reflexivity|]. split.
  - apply calcBackoff_nonzero. intros E. rewrite E in Ha.
    revert Ha. apply Qlt_not_le. reflexivity.
  - split; [reflexivity|]. split; [reflexivity|].
    exists 6%Q, (1 # 2)%Q, None. repeat split; discriminate.
Qed.

Lemma calcBackoff_spec_witness :
  (1 <= 6)%Q /\ ((0 <= 1 # 2)%Q /\ (1 # 2 < 1)%Q)
  /\ calcBackoff 6 (1 # 2) None
     = (Qmin 30000 (6 ^ 2 * 1000) + 2000 * (1 # 2))%Q.
Proof.
  assert (H1 : (1 <= 6)%Q) by discriminate.
  assert (H2 : (0 <= 1 # 2)%Q /\ (1 # 2 < 1)%Q) by (split; [discriminate|reflexivity]).
  split; [exact H1|]. split; [exact H2|].
  exact (proj1 (proj2 (calcBackoff_spec 6 (1 # 2) None H1 H2))).
Defined.

(** ** The reconnect counter *)

Lemma inject_Z_succ (n : nat) :
  (inject_Z (Z.of_nat n) + 1)%Q = inject_Z (Z.of_nat (S n)).
Proof.
  unfold Qplus, inject_Z. simpl Qnum. simpl Qden.
  f_equal. lia.
Qed.

Lemma update_isNonNegInteger (a : Action) (s : State) :
  isNonNegInteger (reconnectAttempt (context s)) ->
  isNonNegInteger (reconnectAttempt (context (update a s).1)).
Proof.
  intros [n Hn].
  destruct s, a; simpl in *; try (exists n; exact Hn).
  - exists 0%nat. reflexivity.
  - exists (S n). rewrite Hn. apply inject_Z_succ.
Qed.

Lemma update_context (a : Action) (s : State) :
  with_reconnectAttempt (context (update a s).1) 0
  = with_reconnectAttempt (context s) 0.
Proof. destruct s, a; reflexivity. Qed.



(** ** The effect that opens a socket *)

(** C10: the effects of [update] contain a CONNECT_WS effect exactly in
    the transitions INITIAL with CONNECT and RECONNECTING with CONNECT, which
    are the transitions that enter CONNECTING; it then occurs once, as the
    last effect, for the url of the state and with OPEN, CLOSE and HEARTBEAT
    as [onOpen], [onClose] and [onPongMessage]. *)
Theorem connect_ws_effect (action : Action) (state : State) :
  let effects := (update action state).2 in
  let connectWs :=
    Effects.CONNECT_WS (url (context state))
      Actions.OPEN Actions.CLOSE Actions.HEARTBEAT in
  existsb isConnectWs effects = entersConnecting state action
  /\ List.filter isConnectWs effects
     = (if entersConnecting state action then [connectWs] else [])
  /\ (if entersConnecting state action
      then last effects = Some connectWs else True)
  /\ entersConnecting state action
     = isConnecting (update action state).1 && negb (isConnecting state).
Proof. destruct state, action; repeat split; reflexivity. Qed.

(** ** Timers: what stopping and scheduling do *)

Section Timers.

Lemma stoppedSome_refl ts : stoppedSome ts ts.
Proof. intros t. left. reflexivity. Qed.

Lemma stoppedSome_trans ts1 ts2 ts3 :
  stoppedSome ts1 ts2 -> stoppedSome ts2 ts3 -> stoppedSome ts1 ts3.
Proof.
  intros H12 H23 t.
  destruct (H23 t) as [E|E], (H12 t) as [E'|E']; rewrite E, E'; auto.
  right. destruct (ts1 !! t); reflexivity.
Qed.

Lemma stoppedSome_alter ts t : stoppedSome ts (alter stopped t ts).
Proof.
  intros t'. rewrite list_lookup_alter. case_decide; subst; auto.
Qed.

Lemma stoppedSome_live ts ts' t tm :
  stoppedSome ts ts' -> ts' !! t = Some tm -> timer_live tm = true ->
  ts !! t = Some tm.
Proof.
  intros H Ht Hl. destruct (H t) as [E|E]; [congruence|].
  rewrite Ht in E. destruct (ts !! t) as [tm0|]; [|discriminate].
  injection E as ->. discriminate.
Qed.

Lemma stoppedSome_key ts ts' t tm :
  stoppedSome ts ts' -> ts !! t = Some tm ->
  exists tm', ts' !! t = Some tm' /\ timer_key tm' = timer_key tm
              /\ timer_onTimeout tm' = timer_onTimeout tm.
Proof.
  intros H Ht. destruct (H t) as [E|E]; rewrite Ht in E; eauto.
Qed.

Lemma stoppedSome_inv ts ts' t tm' :
  stoppedSome ts ts' -> ts' !! t = Some tm' ->
  exists tm, ts !! t = Some tm /\ timer_key tm' = timer_key tm
             /\ timer_onTimeout tm' = timer_onTimeout tm.
Proof.
  intros H Ht. destruct (H t) as [E|E]; rewrite Ht in E; eauto.
  destruct (ts !! t) as [tm|]; [|discriminate].
  injection E as ->. eauto.
Qed.

(** Stopping timers keeps the timer map and the timers in agreement. *)
Lemma TimersOk_stoppedSome rt rt' :
  TimersOk rt -> timeouts rt' = timeouts rt ->
  stoppedSome (timers rt) (timers rt') -> TimersOk rt'.
Proof.
  intros [Htr Hk Ha] Em Hs. split.
  - intros t tm Ht Hl. rewrite Em. apply Htr; [|exact Hl].
    eapply stoppedSome_live; eauto.
  - intros k t Hm. rewrite Em in Hm.
    destruct (Hk k t Hm) as (tm & Ht & Hkey).
    destruct (stoppedSome_key _ _ _ _ Hs Ht) as (tm' & Ht' & Hk' & _).
    exists tm'. split; [exact Ht'|congruence].
  - intros t tm' Ht'.
    destruct (stoppedSome_inv _ _ _ _ Hs Ht') as (tm & Ht & Hk' & Ha').
    rewrite Ha', Hk'. eapply Ha; eauto.
Qed.

Lemma liveKey_stoppedSome rt rt' k :
  stoppedSome (timers rt) (timers rt') -> liveKey rt' k -> liveKey rt k.
Proof.
  intros Hs (t & tm & Ht & Hl & Hk). exists t, tm. split; [|auto].
  eapply stoppedSome_live; eauto.
Qed.

Lemma nukeTimeout_frame k rt :
  ws (nukeTimeout k rt) = ws rt
  /\ cell (nukeTimeout k rt) = cell rt
  /\ sockets (nukeTimeout k rt) = sockets rt
  /\ wsHandlers (nukeTimeout k rt) = wsHandlers rt
  /\ timeouts (nukeTimeout k rt) = timeouts rt
  /\ stoppedSome (timers rt) (timers (nukeTimeout k rt)).
Proof.
  unfold nukeTimeout. destruct (timeouts rt !! k); simpl;
    repeat split; auto using stoppedSome_refl, stoppedSome_alter.
Qed.

(** After [nukeTimeout(k)] no timer is pending for [k]. *)
Lemma nukeTimeout_not_live k rt :
  TimersOk rt -> ~ liveKey (nukeTimeout k rt) k.
Proof.
  intros [Htr Hk Ha] (t & tm & Ht & Hl & Hkey).
  destruct (nukeTimeout_frame k rt) as (_ & _ & _ & _ & _ & Hs).
  pose proof (stoppedSome_live _ _ _ _ Hs Ht Hl) as Ht0.
  pose proof (Htr _ _ Ht0 Hl) as Hm. rewrite Hkey in Hm.
  unfold nukeTimeout in Ht. rewrite Hm in Ht. simpl in Ht.
  rewrite list_lookup_alter_eq, Ht0 in Ht. simpl in Ht.
  injection Ht as E. rewrite <- E in Hl. discriminate.
Qed.

Lemma clearTimeouts_spec rt :
  ws (clearTimeouts rt) = ws rt
  /\ cell (clearTimeouts rt) = cell rt
  /\ sockets (clearTimeouts rt) = sockets rt
  /\ wsHandlers (clearTimeouts rt) = wsHandlers rt
  /\ timeouts (clearTimeouts rt) = timeouts rt
  /\ stoppedSome (timers rt) (timers (clearTimeouts rt))
  /\ forall k t tm,
       timeouts rt !! k = Some t ->
       timers (clearTimeouts rt) !! t = Some tm -> timer_live tm = false.
Proof.
  unfold clearTimeouts.
  set (P := fun (acc : Runtime) (m : gmap TimeoutKey nat) =>
    m ⊆ timeouts rt ->
    ws acc = ws rt /\ cell acc = cell rt /\ sockets acc = sockets rt
    /\ wsHandlers acc = wsHandlers rt /\ timeouts acc = timeouts rt
    /\ stoppedSome (timers rt) (timers acc)
    /\ forall k t tm, m !! k = Some t ->
         timers acc !! t = Some tm -> timer_live tm = false).
  assert (HP : P (map_fold (fun k _ acc => nukeTimeout k acc) rt (timeouts rt))
                 (timeouts rt)).
  { apply (map_fold_weak_ind P).
    - intros _. repeat split; auto using stoppedSome_refl.
      intros k t tm Hk. rewrite lookup_empty in Hk. discriminate.
    - intros i x m r Hi IH Hsub.
      assert (Hm : m ⊆ timeouts rt).
      { etrans; [|exact Hsub]. apply insert_subseteq. exact Hi. }
      destruct (IH Hm) as (E1 & E2 & E3 & E4 & E5 & Hs & Hall).
      destruct (nukeTimeout_frame i r) as (F1 & F2 & F3 & F4 & F5 & Fs).
      repeat split; try congruence.
      + eapply stoppedSome_trans; eauto.
      + intros k t tm Hk Ht.
        assert (Hx : timeouts r !! i = Some x).
        { rewrite E5. eapply lookup_weaken; [|exact Hsub].
          apply lookup_insert_eq. }
        destruct (decide (i = k)) as [->|Hne].
        * rewrite lookup_insert_eq in Hk. injection Hk as ->.
          unfold nukeTimeout in Ht. rewrite Hx in Ht. simpl in Ht.
          rewrite list_lookup_alter_eq in Ht.
          destruct (timers r !! t); [|discriminate].
          injection Ht as <-. reflexivity.
        * rewrite lookup_insert_ne in Hk by exact Hne.
          destruct (Fs t) as [E|E]; rewrite Ht in E.
          -- eapply Hall; eauto.
          -- destruct (timers r !! t); [|discriminate].
             injection E as ->. reflexivity. }
  apply HP. reflexivity.
Qed.

(** After [clearTimeouts()] no timer is pending. *)
Lemma clearTimeouts_not_live rt t tm :
  TimersOk rt ->
  timers (clearTimeouts rt) !! t = Some tm -> timer_live tm = false.
Proof.
  intros [Htr Hk Ha] Ht.
  destruct (clearTimeouts_spec rt) as (_ & _ & _ & _ & _ & Hs & Hall).
  destruct (timer_live tm) eqn:Hl; [|reflexivity].
  pose proof (stoppedSome_live _ _ _ _ Hs Ht Hl) as Ht0.
  rewrite <- Hl. eapply Hall; eauto.
Qed.

End Timers.

(** ** Sockets: what attaching, detaching and closing do *)

Section Sockets.

Lemma listenersOk_alter f i ss :
  (forall s l, l ∈ ws_listeners (f s) ->
               l ∈ ws_listeners s \/ handlerOk l.2) ->
  listenersOk ss -> listenersOk (alter f i ss).
Proof.
  intros Hf H w s l Hw Hl. rewrite list_lookup_alter in Hw.
  case_decide; [|eauto]. subst.
  destruct (ss !! w) as [s0|] eqn:E; [|discriminate].
  injection Hw as <-. destruct (Hf _ _ Hl); eauto.
Qed.

Lemma listenersOk_new ss u :
  listenersOk ss -> listenersOk (ss ++ [newWebSocket u]).
Proof.
  intros H w s l Hw Hl.
  apply lookup_snoc_Some in Hw as [[_ Hw]|[_ <-]]; [eauto|].
  simpl in Hl. inversion Hl.
Qed.

Lemma listenersOk_closed i ss :
  listenersOk ss -> listenersOk (alter closed i ss).
Proof. apply listenersOk_alter. intros s l Hl. left. exact Hl. Qed.

Lemma listenersOk_sent d i ss :
  listenersOk ss -> listenersOk (alter (sent d) i ss).
Proof. apply listenersOk_alter. intros s l Hl. left. exact Hl. Qed.

Lemma listenersOk_detach k h i ss :
  listenersOk ss -> listenersOk (alter (detach k h) i ss).
Proof.
  apply listenersOk_alter. intros s l Hl. left.
  simpl in Hl. apply list_elem_of_filter in Hl. tauto.
Qed.

Lemma listenersOk_attach k h i ss :
  handlerOk h -> listenersOk ss -> listenersOk (alter (attach k h) i ss).
Proof.
  intros Hh. apply listenersOk_alter. intros s l Hl.
  simpl in Hl. apply elem_of_app in Hl as [Hl|Hl]; [left; exact Hl|].
  apply list_elem_of_singleton in Hl as ->. right. exact Hh.
Qed.

Lemma removeEventListeners_spec w rt :
  ws (removeEventListeners w rt) = ws rt
  /\ cell (removeEventListeners w rt) = cell rt
  /\ timers (removeEventListeners w rt) = timers rt
  /\ timeouts (removeEventListeners w rt) = timeouts rt
  /\ wsHandlers (removeEventListeners w rt) = wsHandlers rt
  /\ length (sockets (removeEventListeners w rt)) = length (sockets rt)
  /\ (listenersOk (sockets rt) ->
      listenersOk (sockets (removeEventListeners w rt))).
Proof.
  unfold removeEventListeners.
  apply (map_fold_weak_ind
    (fun (acc : Runtime) (_ : gmap WsMessageKeys Handler) =>
       ws acc = ws rt /\ cell acc = cell rt /\ timers acc = timers rt
       /\ timeouts acc = timeouts rt /\ wsHandlers acc = wsHandlers rt
       /\ length (sockets acc) = length (sockets rt)
       /\ (listenersOk (sockets rt) -> listenersOk (sockets acc)))).
  - repeat split; auto.
  - intros k h m r _ (E1 & E2 & E3 & E4 & E5 & E6 & Hl).
    simpl. repeat split; auto.
    + rewrite length_alter. exact E6.
    + intros H. apply listenersOk_detach. auto.
Qed.

Lemma addEventListener_spec w k h rt :
  ws (addEventListener w k h rt) = ws rt
  /\ cell (addEventListener w k h rt) = cell rt
  /\ timers (addEventListener w k h rt) = timers rt
  /\ timeouts (addEventListener w k h rt) = timeouts rt
  /\ length (sockets (addEventListener w k h rt)) = length (sockets rt)
  /\ (handlerOk h -> listenersOk (sockets rt) ->
      listenersOk (sockets (addEventListener w k h rt))).
Proof.
  unfold addEventListener. simpl. repeat split; auto.
  - apply length_alter.
  - apply listenersOk_attach.
Qed.

End Sockets.

(** ** The state cell *)

Lemma swap_spec f rt :
  ws (swap f rt) = ws rt
  /\ timers (swap f rt) = timers rt
  /\ timeouts (swap f rt) = timeouts rt
  /\ sockets (swap f rt) = sockets rt
  /\ wsHandlers (swap f rt) = wsHandlers rt
  /\ observed (swap f rt) = observed rt
  /\ messages (swap f rt) = messages rt
  /\ wsState (swap f rt) = f (wsState rt)
  /\ stateChanges (swap f rt)
     = if observed rt
       then (stateChanges rt ++ [(wsState rt, f (wsState rt))])%list
       else stateChanges rt.
Proof.
  unfold swap. simpl. destruct (observed rt) eqn:E; simpl; rewrite ?E;
    repeat split; reflexivity.
Qed.

(** ** The interpreter follows its abstraction *)

Section Simulation.

Variable config : Config.

Lemma cell_eq rt rt' :
  cell rt' = cell rt ->
  wsState rt' = wsState rt /\ observed rt' = observed rt
  /\ messages rt' = messages rt /\ stateChanges rt' = stateChanges rt.
Proof. unfold cell. intros E. injection E as -> -> -> ->. auto. Qed.

Lemma Abs_frame rt rt' x :
  Abs rt x -> wsState rt' = wsState rt -> ws rt' = ws rt ->
  stoppedSome (timers rt) (timers rt') -> Abs rt' x.
Proof.
  intros [As Al Aw] Es Ew Hs. split.
  - congruence.
  - intros k Hk. apply Al. eapply liveKey_stoppedSome; eauto.
  - rewrite Ew. exact Aw.
Qed.

Lemma isLive_setLive k k' b L :
  isLive (setLive k b L) k' = if decide (k' = k) then b else isLive L k'.
Proof. destruct k, k'; reflexivity. Qed.

Lemma Sim_swap s rt x :
  Sim rt x ->
  Sim (swap (fun _ => s) rt) (mkAbstract s (a_live x) (a_ws x)).
Proof.
  intros (Ht & [Hl Hw] & [As Al Aw]).
  destruct (swap_spec (fun _ => s) rt)
    as (E1 & E2 & E3 & E4 & E5 & E6 & E7 & E8 & E9).
  split; [|split].
  - eapply TimersOk_stoppedSome; eauto. rewrite E2. apply stoppedSome_refl.
  - split; rewrite E4; [exact Hl|]. rewrite E1. exact Hw.
  - split; simpl.
    + symmetry. exact E8.
    + intros k Hk. apply Al. destruct Hk as (t & tm & Hk).
      rewrite E2 in Hk. exists t, tm. exact Hk.
    + rewrite E1. exact Aw.
Qed.

Lemma Sim_clear k rt x :
  Sim rt x ->
  Sim (nukeTimeout k rt)
    (mkAbstract (a_state x) (setLive k false (a_live x)) (a_ws x)).
Proof.
  intros (Ht & [Hl Hw] & [As Al Aw]).
  destruct (nukeTimeout_frame k rt) as (E1 & E2 & E3 & E4 & E5 & Hs).
  apply cell_eq in E2 as (E2 & _).
  split; [|split].
  - eapply TimersOk_stoppedSome; eauto.
  - split; rewrite E3; [exact Hl|]. rewrite E1. exact Hw.
  - split; simpl.
    + congruence.
    + intros k' Hk'. rewrite isLive_setLive. case_decide.
      * subst. exfalso. eapply nukeTimeout_not_live; eauto.
      * apply Al. eapply liveKey_stoppedSome; eauto.
    + rewrite E1. exact Aw.
Qed.

Lemma Sim_schedule k ms rt x :
  Sim rt x -> isLive (a_live x) k = false ->
  Sim (set_timeouts (<[k := length (timers rt)]> (timeouts rt))
         (set_timers
            (timers rt ++ [mkTimer k ms (timeoutAction k) true]) rt))
    (mkAbstract (a_state x) (setLive k true (a_live x)) (a_ws x)).
Proof.
  intros ([Htr Hk Ha] & [Hl Hw] & [As Al Aw]) Hnl.
  split; [|split].
  - split; simpl.
    + intros t tm Ht Hlive.
      apply lookup_snoc_Some in Ht as [[_ Ht]|[-> <-]].
      * assert (Hne : timer_key tm <> k).
        { intros <-. rewrite Al in Hnl; [discriminate|].
          exists t, tm. auto. }
        rewrite lookup_insert_ne by auto. auto.
      * simpl. apply lookup_insert_eq.
    + intros k' t Hm. destruct (decide (k = k')) as [<-|Hne].
      * rewrite lookup_insert_eq in Hm. injection Hm as <-.
        eexists. split; [apply list_lookup_middle; reflexivity|reflexivity].
      * rewrite lookup_insert_ne in Hm by exact Hne.
        destruct (Hk _ _ Hm) as (tm & Ht & Hkey).
        exists tm. split; [apply lookup_app_l_Some; exact Ht|exact Hkey].
    + intros t tm Ht.
      apply lookup_snoc_Some in Ht as [[_ Ht]|[_ <-]]; [eauto|reflexivity].
  - split; simpl; auto.
  - split; simpl; [exact As| |exact Aw].
    intros k' (t & tm & Ht & Hlive & Hkey). simpl in Ht.
    rewrite isLive_setLive. case_decide; [reflexivity|].
    apply lookup_snoc_Some in Ht as [[_ Ht]|[_ <-]].
    * apply Al. exists t, tm. auto.
    * simpl in Hkey. congruence.
Qed.

Lemma Sim_send_ping d w rt x :
  Sim rt x -> Sim (set_sockets (alter (sent d) w (sockets rt)) rt) x.
Proof.
  intros (Ht & [Hl Hw] & Ha). split; [|split].
  - destruct Ht as [Htr Hk Hact]. split; simpl; auto.
  - split; simpl.
    + apply listenersOk_sent. exact Hl.
    + intros w' Hw'. rewrite length_alter. auto.
  - destruct Ha as [As Al Aw]. split; simpl; auto.
Qed.

Lemma Sim_connect_ws u tr rt x :
  Sim rt x ->
  exists rt',
    handleEffect config tr
      (Effects.CONNECT_WS u Actions.OPEN Actions.CLOSE Actions.HEARTBEAT) rt
    = Some rt'
    /\ Sim rt' (mkAbstract (a_state x) (a_live x) true).
Proof.
  intros (Ht & [Hl Hw] & [As Al Aw]).
  unfold handleEffect. cbv zeta.
  set (rt1 := match ws rt with Some w => _ | None => rt end).
  assert (H1 : cell rt1 = cell rt /\ timeouts rt1 = timeouts rt
               /\ stoppedSome (timers rt) (timers rt1)
               /\ listenersOk (sockets rt1)).
  { subst rt1. destruct (ws rt) as [w|].
    - destruct (removeEventListeners_spec w rt)
        as (_ & R2 & R3 & R4 & _ & _ & R7).
      destruct (clearTimeouts_spec (removeEventListeners w rt))
        as (_ & C2 & C3 & _ & C5 & C6 & _).
      simpl. repeat split.
      + rewrite <- R2, <- C2. reflexivity.
      + congruence.
      + rewrite <- R3. exact C6.
      + apply listenersOk_closed. rewrite C3. auto.
    - repeat split; auto using stoppedSome_refl. }
  destruct H1 as (K1 & K2 & K3 & K4).
  apply cell_eq in K1 as (K1 & _).
  set (w := length (sockets rt1)).
  set (rt2 := set_ws (Some w) _).
  set (h1 := mkHandler w (OnOpen Actions.OPEN)).
  set (h2 := mkHandler w (OnClose Actions.CLOSE)).
  set (h3 := mkHandler w (OnMessage Actions.HEARTBEAT)).
  set (rt3 := addEventListener w WsMessageKeys.open h1 rt2).
  set (rt4 := addEventListener w WsMessageKeys.close h2 rt3).
  destruct (addEventListener_spec w WsMessageKeys.open h1 rt2)
    as (A1 & A2 & A3 & A4 & A5 & A6).
  destruct (addEventListener_spec w WsMessageKeys.close h2 rt3)
    as (B1 & B2 & B3 & B4 & B5 & B6).
  destruct (addEventListener_spec w WsMessageKeys.message h3 rt4)
    as (D1 & D2 & D3 & D4 & D5 & D6).
  fold rt3 in A1, A2, A3, A4, A5, A6.
  fold rt4 in B1, B2, B3, B4, B5, B6.
  apply cell_eq in A2 as (A2 & _).
  apply cell_eq in B2 as (B2 & _).
  apply cell_eq in D2 as (D2 & _).
  eexists. split; [reflexivity|].
  assert (Hs : stoppedSome (timers rt)
                 (timers (addEventListener w WsMessageKeys.message h3 rt4))).
  { rewrite D3, B3, A3. exact K3. }
  split; [|split].
  - eapply TimersOk_stoppedSome; [exact Ht| |exact Hs].
    rewrite D4, B4, A4. exact K2.
  - split.
    + apply D6; [right; right; reflexivity|].
      apply B6; [right; left; reflexivity|].
      apply A6; [left; reflexivity|].
      simpl. apply listenersOk_new. exact K4.
    + intros w' Hw'. rewrite D1, B1, A1 in Hw'. simpl in Hw'.
      injection Hw' as <-. rewrite D5, B5, A5. simpl.
      rewrite length_app. simpl. subst w. lia.
  - split; simpl a_state; simpl a_live; simpl a_ws.
    + rewrite D2, B2, A2. simpl. congruence.
    + intros k Hk. apply Al. eapply liveKey_stoppedSome; eauto.
    + rewrite D1, B1, A1. simpl. reflexivity.
Qed.

Lemma Sim_effect tr atr e rt x x' :
  (forall a rt x x',
      Sim rt x -> atr a x = Some x' ->
      exists rt', tr a rt = Some rt' /\ Sim rt' x') ->
  Sim rt x -> absEffect atr e x = Some x' ->
  exists rt', handleEffect config tr e rt = Some rt' /\ Sim rt' x'.
Proof.
  intros IH HS He. destruct e; simpl in He.
  - case_bool_decide as Hd; [|discriminate].
    destruct Hd as (-> & -> & ->). injection He as <-.
    apply Sim_connect_ws. exact HS.
  - destruct (isLive (a_live x) key) eqn:E; [discriminate|].
    case_bool_decide as Hd; [|discriminate]. subst onTimeout.
    injection He as <-. eexists. split; [reflexivity|].
    exact (Sim_schedule key timeoutMillis rt x HS E).
  - injection He as <-. simpl. destruct (ws rt) as [w|].
    + eexists. split; [reflexivity|]. apply Sim_send_ping. exact HS.
    + eexists. split; [reflexivity|exact HS].
  - injection He as <-. eexists. split; [reflexivity|].
    apply Sim_clear. exact HS.
  - simpl. eauto.
Qed.

Lemma Sim_effects tr atr effects :
  (forall a rt x x',
      Sim rt x -> atr a x = Some x' ->
      exists rt', tr a rt = Some rt' /\ Sim rt' x') ->
  forall rt x x',
    Sim rt x -> absEffects (absEffect atr) effects x = Some x' ->
    exists rt',
      handleEffects (handleEffect config tr) effects rt = Some rt'
      /\ Sim rt' x'.
Proof.
  intros IH. induction effects as [|e effects IHe]; intros rt x x' HS He.
  - injection He as <-. exists rt. split; [reflexivity|exact HS].
  - simpl in He.
    destruct (absEffect atr e x) as [x1|] eqn:E1; [|discriminate].
    simpl in He.
    destruct (Sim_effect tr atr e rt x x1 IH HS E1) as (rt1 & R1 & S1).
    destruct (IHe rt1 x1 x' S1 He) as (rt' & R' & S').
    exists rt'. split; [|exact S']. simpl. rewrite R1. exact R'.
Qed.

(** Whatever the abstraction can do, the interpreter does, and the
    abstraction still describes it afterwards. *)
Lemma Sim_transition fuel :
  forall a rt x x',
    Sim rt x -> absTransition fuel a x = Some x' ->
    exists rt', transition config fuel a rt = Some rt' /\ Sim rt' x'.
Proof.
  induction fuel as [|fuel IH]; intros a rt x x' HS Ha; [discriminate|].
  simpl in Ha. simpl.
  assert (As : a_state x = wsState rt) by apply HS.
  rewrite As in Ha.
  destruct (update a (wsState rt)) as [newState effects].
  eapply Sim_effects; [exact IH| |exact Ha].
  apply Sim_swap. exact HS.
Qed.

End Simulation.

(** ** The abstraction keeps its shape *)

Section Abstraction.

Lemma absEffects_state atr effects :
  (forall a x x', atr a x = Some x' ->
      with_reconnectAttempt (context (a_state x')) 0
      = with_reconnectAttempt (context (a_state x)) 0) ->
  forall x x',
    absEffects (absEffect atr) effects x = Some x' ->
    with_reconnectAttempt (context (a_state x')) 0
    = with_reconnectAttempt (context (a_state x)) 0.
Proof.
  intros IH. induction effects as [|e effects IHe]; intros x x' He.
  - injection He as <-. reflexivity.
  - simpl in He.
    destruct (absEffect atr e x) as [x1|] eqn:E1; [|discriminate].
    simpl in He. rewrite (IHe _ _ He).
    destruct e; simpl in E1.
    + case_bool_decide; [|discriminate]. injection E1 as <-. reflexivity.
    + destruct (isLive (a_live x) key); [discriminate|].
      case_bool_decide; [|discriminate]. injection E1 as <-. reflexivity.
    + injection E1 as <-. reflexivity.
    + injection E1 as <-. reflexivity.
    + eauto.
Qed.

(** No transition changes a field of the context other than the reconnect
    counter. *)
Lemma absTransition_context fuel :
  forall a x x',
    absTransition fuel a x = Some x' ->
    with_reconnectAttempt (context (a_state x')) 0
    = with_reconnectAttempt (context (a_state x)) 0.
Proof.
  induction fuel as [|fuel IH]; intros a x x' Ha; [discriminate|].
  simpl in Ha. pose proof (update_context a (a_state x)) as Hu.
  destruct (update a (a_state x)) as [newState effects].
  rewrite (absEffects_state _ _ IH _ _ Ha). exact Hu.
Qed.

(** An action other than PING_TIMEOUT can be taken in every state of the
    right shape, schedules no key that is pending and leaves a state of
    the right shape. *)
Lemma absTransition_external n a x :
  shape x -> a <> Actions.PING_TIMEOUT ->
  exists x', absTransition (S (S n)) a x = Some x' /\ shape x'.
Proof.
  destruct x as [s [p q c] w]. unfold shape. simpl.
  intros [Hl Hw] Ha.
  destruct s, a; simpl in *; try congruence.
  all: try (injection Hl as -> -> ->).
  all: try (destruct Hl as [-> Hl]).
  all: try subst q.
  all: eexists; (split; [reflexivity|]); simpl; split;
    [ repeat split; solve [reflexivity | assumption]
    | intros Hf; first
        [ discriminate Hf
        | exact (Hw Hf)
        | destruct (Hw Hf) as (cc & Hcc & _); discriminate Hcc ] ].
Qed.

(** A pending timer can fire in every state of the right shape, with the
    same conclusion. *)
Lemma absTransition_fire n k x :
  shape x -> isLive (a_live x) k = true ->
  exists x',
    absTransition (S (S n)) (timeoutAction k)
      (mkAbstract (a_state x) (setLive k false (a_live x)) (a_ws x))
    = Some x'
    /\ shape x'.
Proof.
  destruct x as [s [p q c] w]. unfold shape. simpl.
  intros [Hl Hw] Hk.
  destruct s, k, p, q, c; simpl in *; try discriminate;
    try (destruct Hl; discriminate).
  all: eexists; (split; [reflexivity|]); simpl; split;
    [ repeat split; solve [reflexivity | assumption]
    | intros Hf; first
        [ discriminate Hf
        | exact (Hw Hf)
        | destruct (Hw Hf) as (cc & Hcc & _); discriminate Hcc ] ].
Qed.

End Abstraction.

(** ** Fuel *)

Section Fuel.

Variable config : Config.

Lemma transition_S n a rt :
  transition config (S n) a rt
  = handleEffects (handleEffect config (transition config n))
      (update a (wsState rt)).2
      (swap (fun _ => (update a (wsState rt)).1) rt).
Proof. simpl. destruct (update a (wsState rt)). reflexivity. Qed.

Lemma handleEffects_mono tr1 tr2 effects :
  (forall a rt rt', tr1 a rt = Some rt' -> tr2 a rt = Some rt') ->
  forall rt rt',
    handleEffects (handleEffect config tr1) effects rt = Some rt' ->
    handleEffects (handleEffect config tr2) effects rt = Some rt'.
Proof.
  intros Htr. induction effects as [|e effects IH]; intros rt rt' H.
  - exact H.
  - simpl in *.
    destruct (handleEffect config tr1 e rt) as [rt1|] eqn:E1; [|discriminate].
    assert (E2 : handleEffect config tr2 e rt = Some rt1).
    { destruct e; try exact E1. simpl in *. auto. }
    rewrite E2. simpl in *. auto.
Qed.

Lemma transition_mono n :
  forall a rt rt',
    transition config n a rt = Some rt' ->
    transition config (S n) a rt = Some rt'.
Proof.
  induction n as [|n IH]; intros a rt rt' H; [discriminate|].
  rewrite transition_S in H. rewrite transition_S.
  eapply handleEffects_mono; [exact IH|exact H].
Qed.

(** More fuel does not change a result. *)
Lemma transition_fuel n m a rt rt' :
  n <= m ->
  transition config n a rt = Some rt' ->
  transition config m a rt = Some rt'.
Proof.
  intros Hle H. induction Hle as [|m Hle IH]; [exact H|].
  apply transition_mono. exact IH.
Qed.

End Fuel.

(** ** The invariant holds in every reachable state *)

Section Invariant.

Variable config : Config.
Variable rand : Q.

Lemma Inv_of_Sim rt' x0 x' n a :
  with_reconnectAttempt (context (a_state x0)) 0 = initialContext config rand ->
  absTransition n a x0 = Some x' ->
  Sim rt' x' -> shape x' ->
  Inv config rand rt'.
Proof.
  intros Hc Hx' (Ht' & Hs' & Ha') Hsh'. split; auto.
  - exists x'. auto.
  - rewrite <- (abs_state _ _ Ha'), (absTransition_context _ _ _ _ Hx').
    exact Hc.
Qed.

Lemma Inv_transition fuel a rt rt' :
  Inv config rand rt -> a <> Actions.PING_TIMEOUT ->
  transition config fuel a rt = Some rt' ->
  Inv config rand rt'.
Proof.
  intros [Ht Hs (x & Ha & Hsh) Hc] Hne H.
  destruct (absTransition_external fuel a x Hsh Hne) as (x' & Hx' & Hsh').
  destruct (Sim_transition config _ a rt x x' (conj Ht (conj Hs Ha)) Hx')
    as (rt'' & Hrt'' & HS').
  assert (E : rt'' = rt').
  { apply (transition_fuel config fuel (S (S fuel))) in H; [congruence|lia]. }
  subst rt''. eapply Inv_of_Sim; eauto.
  rewrite (abs_state _ _ Ha). exact Hc.
Qed.

Lemma fire_is_nukeTimeout rt t tm :
  TimersOk rt -> timers rt !! t = Some tm -> timer_live tm = true ->
  set_timers (alter stopped t (timers rt)) rt = nukeTimeout (timer_key tm) rt.
Proof.
  intros Ht Hl Hlive. unfold nukeTimeout.
  rewrite (ok_tracked _ Ht _ _ Hl Hlive). reflexivity.
Qed.

Lemma Inv_fireTimer fuel t rt rt' :
  Inv config rand rt ->
  fireTimer config fuel t rt = Some rt' ->
  Inv config rand rt'.
Proof.
  intros HI H. unfold fireTimer in H.
  destruct (timers rt !! t) as [tm|] eqn:Et; [|congruence].
  destruct (timer_live tm) eqn:El; [|congruence].
  destruct HI as [Ht Hs (x & Ha & Hsh) Hc].
  rewrite (fire_is_nukeTimeout _ _ _ Ht Et El) in H.
  rewrite (ok_action _ Ht _ _ Et) in H.
  assert (Hk : isLive (a_live x) (timer_key tm) = true).
  { apply (abs_live _ _ Ha). exists t, tm. auto. }
  destruct (absTransition_fire fuel _ x Hsh Hk) as (x' & Hx' & Hsh').
  pose proof (Sim_clear (timer_key tm) rt x (conj Ht (conj Hs Ha))) as HS0.
  destruct (Sim_transition config _ _ _ _ x' HS0 Hx') as (rt'' & Hrt'' & HS').
  assert (E : rt'' = rt').
  { apply (transition_fuel config fuel (S (S fuel))) in H; [congruence|lia]. }
  subst rt''. eapply Inv_of_Sim; eauto.
  simpl. rewrite (abs_state _ _ Ha). exact Hc.
Qed.

Lemma Inv_frame rt rt' :
  ws rt' = ws rt -> wsState rt' = wsState rt ->
  timers rt' = timers rt -> timeouts rt' = timeouts rt ->
  sockets rt' = sockets rt ->
  Inv config rand rt -> Inv config rand rt'.
Proof.
  intros E1 E2 E3 E4 E5 [Ht [Hl Hw] (x & Ha & Hsh) Hc]. split.
  - eapply TimersOk_stoppedSome; eauto. rewrite E3. apply stoppedSome_refl.
  - split; rewrite E5; [exact Hl|]. rewrite E1. exact Hw.
  - exists x. split; [|exact Hsh].
    eapply Abs_frame; eauto. rewrite E3. apply stoppedSome_refl.
  - rewrite E2. exact Hc.
Qed.

Lemma Inv_runHandler fuel h data rt rt' :
  Inv config rand rt -> handlerOk h ->
  runHandler config fuel h data rt = Some rt' ->
  Inv config rand rt'.
Proof.
  intros HI Hh H. unfold runHandler in H.
  destruct Hh as [E|[E|E]]; rewrite E in H.
  - eapply Inv_transition; eauto. discriminate.
  - destruct (transition config fuel Actions.CLOSE rt) as [rt1|] eqn:E1;
      [|discriminate].
    simpl in H.
    apply (Inv_transition fuel Actions.RECONNECT rt1 rt');
      [|discriminate|exact H].
    apply (Inv_transition fuel Actions.CLOSE rt rt1);
      [exact HI|discriminate|exact E1].
  - eapply Inv_transition; [| |exact H]; [|discriminate].
    destruct (negb (String.eqb data "pong")); [|exact HI].
    eapply Inv_frame; [..|exact HI]; reflexivity.
Qed.

Lemma Inv_runHandlers fuel hs data :
  Forall handlerOk hs ->
  forall rt rt',
    Inv config rand rt ->
    runHandlers config fuel hs data rt = Some rt' ->
    Inv config rand rt'.
Proof.
  induction 1 as [|h hs Hh Hhs IH]; intros rt rt' HI H; simpl in H.
  - injection H as <-. exact HI.
  - destruct (runHandler config fuel h data rt) as [rt1|] eqn:E1;
      [|discriminate].
    simpl in H. eapply IH; [|exact H].
    eapply Inv_runHandler; eauto.
Qed.

Lemma listenersFor_ok type s :
  (forall l, l ∈ ws_listeners s -> handlerOk l.2) ->
  Forall handlerOk (listenersFor type s).
Proof.
  intros H. apply Forall_forall. intros h Hh. unfold listenersFor in Hh.
  apply list_elem_of_fmap in Hh as (l & -> & Hl).
  apply list_elem_of_filter in Hl as [_ Hl]. auto.
Qed.

Lemma disconnect_spec rt w :
  ws rt = Some w ->
  TimersOk rt ->
  let rt' := disconnect rt in
  ws rt' = Some w
  /\ observed rt' = false
  /\ wsState rt'
     = States.INITIAL (with_reconnectAttempt (context (wsState rt)) 0)
  /\ timeouts rt' = timeouts rt
  /\ stoppedSome (timers rt) (timers rt')
  /\ (forall t tm, timers rt' !! t = Some tm -> timer_live tm = false)
  /\ length (sockets rt') = length (sockets rt)
  /\ (listenersOk (sockets rt) -> listenersOk (sockets rt'))
  /\ (forall s, sockets rt' !! w = Some s -> ws_closed s = true)
  /\ messages rt' = messages rt
  /\ stateChanges rt' = stateChanges rt.
Proof.
  intros Hw Ht. unfold disconnect. simpl. rewrite Hw.
  set (rt1 := set_observed false rt).
  assert (Ht1 : TimersOk rt1) by (destruct Ht; split; auto).
  destruct (removeEventListeners_spec w rt1)
    as (R1 & R2 & R3 & R4 & _ & R6 & R7).
  set (rt2 := removeEventListeners w rt1) in *.
  assert (Ht2 : TimersOk rt2).
  { eapply TimersOk_stoppedSome; [exact Ht1|exact R4|].
    rewrite R3. apply stoppedSome_refl. }
  destruct (clearTimeouts_spec rt2) as (C1 & C2 & C3 & _ & C5 & C6 & _).
  pose proof (fun t tm => clearTimeouts_not_live rt2 t tm Ht2) as C7.
  set (rt3 := clearTimeouts rt2) in *.
  destruct (swap_spec
              (fun currState =>
                 States.INITIAL
                   (with_reconnectAttempt (context currState) 0)) rt3)
    as (S1 & S2 & S3 & S4 & _ & S6 & S7 & S8 & S9).
  apply cell_eq in R2 as (R2a & R2b & R2c & R2d).
  apply cell_eq in C2 as (C2a & C2b & C2c & C2d).
  rewrite C2b, R2b in S9. simpl in S9.
  simpl. repeat split.
  - rewrite S1, C1, R1. exact Hw.
  - rewrite S6, C2b, R2b. reflexivity.
  - rewrite S8, C2a, R2a. reflexivity.
  - rewrite S3, C5, R4. reflexivity.
  - rewrite S2. rewrite R3 in C6. exact C6.
  - intros t tm. rewrite S2. apply C7.
  - rewrite length_alter, S4, C3, R6. reflexivity.
  - intros Hl. apply listenersOk_closed. rewrite S4, C3. auto.
  - intros s Hs. rewrite list_lookup_alter_eq in Hs.
    destruct (sockets _ !! w); [|discriminate].
    injection Hs as <-. reflexivity.
  - rewrite S7, C2c, R2c. reflexivity.
  - rewrite S9, C2d, R2d. reflexivity.
Qed.

Lemma Inv_disconnect rt :
  Inv config rand rt -> Inv config rand (disconnect rt).
Proof.
  intros HI. destruct (ws rt) as [w|] eqn:Hw.
  - destruct HI as [Ht [Hl Hws] (x & Ha & Hsh) Hc].
    destruct (disconnect_spec rt w Hw Ht)
      as (D1 & D2 & D3 & D4 & D5 & D6 & D7 & D8 & _).
    split.
    + eapply TimersOk_stoppedSome; eauto.
    + split; [auto|]. intros w' Hw'. rewrite D7.
      apply Hws. congruence.
    + exists (mkAbstract
                (States.INITIAL
                   (with_reconnectAttempt (context (wsState rt)) 0))
                (mkLive false false false) true).
      split; [split; simpl|].
      * symmetry. exact D3.
      * intros k (t & tm & Hl' & Hlive & _).
        rewrite (D6 _ _ Hl') in Hlive. discriminate.
      * rewrite D1. reflexivity.
      * split; simpl; [reflexivity|discriminate].
    + rewrite D3. exact Hc.
  - unfold disconnect. simpl. rewrite Hw.
    eapply Inv_frame; [..|exact HI]; reflexivity.
Qed.

Lemma Inv_wsMachine : Inv config rand (wsMachine config rand).
Proof.
  split.
  - split; simpl.
    + intros t tm H. rewrite lookup_nil in H. discriminate.
    + intros k t H. rewrite lookup_empty in H. discriminate.
    + intros t tm H. rewrite lookup_nil in H. discriminate.
  - split; simpl.
    + intros w s l H. rewrite lookup_nil in H. discriminate.
    + discriminate.
  - exists (mkAbstract (States.INITIAL (initialContext config rand))
              (mkLive false false false) false).
    split; [split; simpl|split; simpl].
    + reflexivity.
    + intros k (t & tm & H & _). simpl in H.
      rewrite lookup_nil in H. discriminate.
    + reflexivity.
    + reflexivity.
    + intros _. eexists. split; reflexivity.
  - reflexivity.
Qed.

Lemma Inv_step fuel e rt rt' :
  Inv config rand rt -> step config fuel e rt = Some rt' ->
  Inv config rand rt'.
Proof.
  intros HI H. destruct e; simpl in H.
  - eapply Inv_transition; eauto. discriminate.
  - injection H as <-. exact HI.
  - injection H as <-. apply Inv_disconnect. exact HI.
  - eapply Inv_fireTimer; eauto.
  - unfold dispatchEvent in H.
    destruct (sockets rt !! w) as [s|] eqn:Es.
    + eapply Inv_runHandlers; [|exact HI|exact H].
      apply listenersFor_ok. intros l Hl.
      eapply (ok_listeners _ (inv_sockets _ _ _ HI)); eauto.
    + injection H as <-. exact HI.
Qed.

Lemma reachable_Inv rt : reachable config rand rt -> Inv config rand rt.
Proof.
  induction 1 as [|rt fuel e rt' _ IH Hstep].
  - apply Inv_wsMachine.
  - eapply Inv_step; eauto.
Qed.

End Invariant.

(** ** Scenarios *)

Lemma run_reachable config rand fuel es :
  forall rt rt',
    reachable config rand rt -> run config fuel es rt = Some rt' ->
    reachable config rand rt'.
Proof.
  induction es as [|e es IH]; intros rt rt' Hr H; simpl in H.
  - injection H as <-. exact Hr.
  - destruct (step config fuel e rt) as [rt1|] eqn:E; [|discriminate].
    simpl in H. eapply IH; [|exact H].
    eapply reachable_step; eauto.
Qed.

Lemma openMachine_run :
  run testConfig 2 [call_connect; socket_event 0 WsMessageKeys.open ""]
    (wsMachine testConfig 0)
  = Some (openMachine testConfig).
Proof. vm_compute. reflexivity. Qed.

Lemma openMachine_reachable : reachable testConfig 0 (openMachine testConfig).
Proof.
  eapply run_reachable; [apply reachable_init|apply openMachine_run].
Qed.

Example openMachine_state :
  wsState (openMachine testConfig)
  = States.OPEN (initialContext testConfig 0).
Proof. vm_compute. reflexivity. Qed.

Example openMachine_timers :
  timers (openMachine testConfig)
  = [mkTimer TimeoutKey.ping 5 Actions.PING_TIMEOUT true].
Proof. vm_compute. reflexivity. Qed.

Example openMachine_changes :
  stateChanges (openMachine testConfig)
  = [ (States.INITIAL (initialContext testConfig 0),
       States.CONNECTING (initialContext testConfig 0));
      (States.CONNECTING (initialContext testConfig 0),
       States.OPEN (initialContext testConfig 0)) ].
Proof. vm_compute. reflexivity. Qed.

(** ** What a transition does to the state cell and to the callbacks *)

Section Cell.

Variable config : Config.

Lemma handleEffects_cons handle e effects rt :
  handleEffects handle (e :: effects) rt
  = handle e rt ≫= handleEffects handle effects.
Proof. reflexivity. Qed.

Lemma handleEffect_cell tr e rt :
  isTrigger e = false ->
  exists rt', handleEffect config tr e rt = Some rt' /\ cell rt' = cell rt.
Proof.
  intros He. destruct e; try discriminate.
  - eexists. split; [reflexivity|].
    destruct (ws rt) as [w|]; [|reflexivity].
    transitivity (cell (clearTimeouts (removeEventListeners w rt)));
      [reflexivity|].
    destruct (clearTimeouts_spec (removeEventListeners w rt))
      as (_ & -> & _).
    apply removeEventListeners_spec.
  - eexists. split; reflexivity.
  - simpl. destruct (ws rt); eexists; split; reflexivity.
  - eexists. split; [reflexivity|]. apply nukeTimeout_frame.
Qed.

Lemma handleEffects_cell tr effects :
  existsb isTrigger effects = false ->
  forall rt,
    exists rt',
      handleEffects (handleEffect config tr) effects rt = Some rt'
      /\ cell rt' = cell rt.
Proof.
  induction effects as [|e effects IH]; intros H rt.
  - exists rt. split; reflexivity.
  - simpl in H. apply orb_false_iff in H as [He H].
    destruct (handleEffect_cell tr e rt He) as (rt1 & E1 & C1).
    destruct (IH H rt1) as (rt' & E' & C').
    exists rt'. simpl. rewrite E1. simpl. split; [exact E'|congruence].
Qed.

(** A transition that triggers nothing needs no more fuel than 1, and
    changes the cell by one [swap]. *)
Lemma transition_triggerFree n a rt :
  existsb isTrigger (update a (wsState rt)).2 = false ->
  exists rt',
    transition config (S n) a rt = Some rt'
    /\ cell rt' = cell (swap (fun _ => (update a (wsState rt)).1) rt).
Proof.
  intros H. rewrite transition_S. apply handleEffects_cell. exact H.
Qed.

Lemma handleEffects_total n effects :
  (forall a, Effects.TRIGGER_ACTION a ∈ effects -> triggerFree a) ->
  forall rt,
    is_Some (handleEffects
               (handleEffect config (transition config (S n))) effects rt).
Proof.
  induction effects as [|e effects IH]; intros H rt.
  - eexists. reflexivity.
  - assert (H1 : exists rt1,
               handleEffect config (transition config (S n)) e rt = Some rt1).
    { destruct (isTrigger e) eqn:He.
      - destruct e; try discriminate. simpl.
        destruct (transition_triggerFree n action rt) as (rt1 & E1 & _);
          [|eauto].
        apply H. left.
      - destruct (handleEffect_cell (transition config (S n)) e rt He)
          as (rt1 & E1 & _). eauto. }
    destruct H1 as (rt1 & E1). rewrite handleEffects_cons, E1.
    apply IH. intros a Ha. apply H. right. exact Ha.
Qed.

Lemma update_triggers a s a' :
  Effects.TRIGGER_ACTION a' ∈ (update a s).2 ->
  a' = Actions.CLOSE \/ a' = Actions.RECONNECT.
Proof.
  destruct s, a; simpl; intros H;
    repeat (apply elem_of_cons in H as [H|H]; [try discriminate|]);
    try (inversion H; fail).
  - injection H as ->. auto.
  - injection H as ->. auto.
Qed.

Lemma triggerFree_CLOSE : triggerFree Actions.CLOSE.
Proof. intros []; reflexivity. Qed.

Lemma triggerFree_RECONNECT : triggerFree Actions.RECONNECT.
Proof. intros []; reflexivity. Qed.

(** Two levels of calls of [transition] are enough for every action in
    every state of the machine: [transition] returns. *)
Lemma transition_total n a rt :
  is_Some (transition config (S (S n)) a rt).
Proof.
  rewrite transition_S. apply handleEffects_total.
  intros a' Ha'. apply update_triggers in Ha' as [->| ->].
  - apply triggerFree_CLOSE.
  - apply triggerFree_RECONNECT.
Qed.

Lemma handleEffects_callbacks tr effects :
  (forall a rt rt', tr a rt = Some rt' ->
      messages rt' = messages rt /\ observed rt' = observed rt) ->
  forall rt rt',
    handleEffects (handleEffect config tr) effects rt = Some rt' ->
    messages rt' = messages rt /\ observed rt' = observed rt.
Proof.
  intros Htr. induction effects as [|e effects IH]; intros rt rt' H.
  - injection H as <-. auto.
  - simpl in H.
    destruct (handleEffect config tr e rt) as [rt1|] eqn:E1; [|discriminate].
    simpl in H. destruct (IH _ _ H) as [-> ->].
    destruct (isTrigger e) eqn:He.
    + destruct e; try discriminate. simpl in E1. eauto.
    + destruct (handleEffect_cell tr e rt He) as (rt1' & E1' & C1).
      rewrite E1 in E1'. injection E1' as <-.
      apply cell_eq in C1. tauto.
Qed.

(** No transition calls [config.onMessage] or touches the observer. *)
Lemma transition_callbacks fuel :
  forall a rt rt',
    transition config fuel a rt = Some rt' ->
    messages rt' = messages rt /\ observed rt' = observed rt.
Proof.
  induction fuel as [|fuel IH]; intros a rt rt' H; [discriminate|].
  rewrite transition_S in H.
  destruct (handleEffects_callbacks _ _ IH _ _ H) as [-> ->].
  destruct (swap_spec (fun _ => (update a (wsState rt)).1) rt)
    as (_ & _ & _ & _ & _ & E6 & E7 & _).
  auto.
Qed.

End Cell.

(** Every event is handled: with two levels of calls of [transition],
    [step] returns. *)
Lemma runHandlers_total config n hs data :
  forall rt, is_Some (runHandlers config (S (S n)) hs data rt).
Proof.
  induction hs as [|h hs IH]; intros rt; [eexists; reflexivity|].
  assert (H : is_Some (runHandler config (S (S n)) h data rt)).
  { unfold runHandler. destruct (handler_body h) as [a|a|a].
    - apply transition_total.
    - destruct (transition_total config n a rt) as (rt1 & E1).
      rewrite E1. apply transition_total.
    - apply transition_total. }
  destruct H as (rt1 & E1).
  change (is_Some (runHandler config (S (S n)) h data rt
                   ≫= runHandlers config (S (S n)) hs data)).
  rewrite E1. apply IH.
Qed.

Lemma step_total config n e rt : is_Some (step config (S (S n)) e rt).
Proof.
  destruct e.
  - apply transition_total.
  - eexists. reflexivity.
  - eexists. reflexivity.
  - unfold step, fireTimer. destruct (timers rt !! t) as [tm|].
    + destruct (timer_live tm); [apply transition_total|eexists; reflexivity].
    + eexists. reflexivity.
  - unfold step, dispatchEvent. destruct (sockets rt !! w) as [s|].
    + apply runHandlers_total.
    + eexists. reflexivity.
Qed.

(** The test "connect to machine and verify ping": after the ping timer
    fires the socket has received ["ping"] and the observer has seen three
    changes, the last from OPEN to OPEN. *)
Example scenario_verify_ping :
  exists rt s,
    run testConfig 2
      [call_connect; socket_event 0 WsMessageKeys.open ""; timer_fires 0]
      (wsMachine testConfig 0) = Some rt
    /\ sockets rt !! 0%nat = Some s
    /\ ws_sent s = ["ping"]
    /\ stateChanges rt
       = [ (States.INITIAL (initialContext testConfig 0),
            States.CONNECTING (initialContext testConfig 0));
           (States.CONNECTING (initialContext testConfig 0),
            States.OPEN (initialContext testConfig 0));
           (States.OPEN (initialContext testConfig 0),
            States.OPEN (initialContext testConfig 0)) ].
Proof.
  eexists. eexists. split; [vm_compute; reflexivity|].
  split; [vm_compute; reflexivity|].
  split; vm_compute; reflexivity.
Qed.

(** The test "no pong triggers reconnect": the pong timer fires, the
    machine is RECONNECTING; after [disconnect()] it is INITIAL. *)
Example scenario_no_pong :
  exists rt c c',
    run testConfig 2
      [ call_connect; socket_event 0 WsMessageKeys.open "";
        timer_fires 0; timer_fires 1 ]
      (wsMachine testConfig 0) = Some rt
    /\ wsState rt = States.RECONNECTING c
    /\ (reconnectAttempt c == 1)%Q
    /\ wsState (disconnect rt) = States.INITIAL c'
    /\ reconnectAttempt c' = 0%Q.
Proof.
  eexists. eexists. eexists. split; [vm_compute; reflexivity|].
  split; [vm_compute; reflexivity|].
  split; [reflexivity|].
  split; [vm_compute; reflexivity|reflexivity].
Qed.

(** The test "custom ping and pong works", as far as [Config] has the
    properties it passes: the socket receives ["MyPing"], but both
    ["MyPong"] and ["SomeMessage"] reach [config.onMessage]. *)
Example scenario_custom_ping_pong :
  exists rt s,
    run customConfig 2
      [ call_connect; socket_event 0 WsMessageKeys.open ""; timer_fires 0;
        socket_event 0 WsMessageKeys.message "MyPong";
        socket_event 0 WsMessageKeys.message "SomeMessage" ]
      (wsMachine customConfig 0) = Some rt
    /\ sockets rt !! 0%nat = Some s
    /\ ws_sent s = ["MyPing"]
    /\ messages rt = ["MyPong"; "SomeMessage"].
Proof.
  eexists. eexists. split; [vm_compute; reflexivity|].
  split; [vm_compute; reflexivity|].
  split; vm_compute; reflexivity.
Qed.

(** ** The facade *)

(** C3: the object returned by [wsMachine] has the members [connect],
    [currentState] and [disconnect] and no member [send]: in every state of
    the machine, also in state OPEN with a live socket, a call of [send]
    throws the [TypeError] of calling [undefined], writes nothing to the
    socket and raises no error about the open state. *)
Theorem send_is_not_a_member (config : Config) (fuel : nat) (rt : Runtime) :
  WsMachine.member "send" = None
  /\ callMember config fuel "send" rt = TypeError_not_a_function
  /\ callMember testConfig 2 "send" (openMachine testConfig)
     = TypeError_not_a_function.
Proof. repeat split. Qed.

(** ** The message handler *)

(** C4: the [onMessage] listener compares the message with the literal
    ["pong"], whatever the configuration: the message ["MyPong"] of the test
    with custom payloads is passed to [config.onMessage], and ["pong"] is
    swallowed in every configuration; in general the message is forwarded if
    and only if it differs from ["pong"]. *)
Theorem onMessage_filters_literal_pong
    (config : Config) (n w : nat) (a : Action) (msg : string) (rt : Runtime) :
  (exists rt',
      runHandler config (S (S n)) (mkHandler w (OnMessage a)) msg rt = Some rt'
      /\ messages rt'
         = if String.eqb msg "pong" then messages rt
           else (messages rt ++ [msg])%list)
  /\ (exists rt',
        runHandler customConfig (S (S n)) (mkHandler w (OnMessage a))
          "MyPong" rt = Some rt'
        /\ messages rt' = (messages rt ++ ["MyPong"])%list).
Proof.
  assert (H : forall config' msg',
             exists rt',
               runHandler config' (S (S n)) (mkHandler w (OnMessage a)) msg' rt
               = Some rt'
               /\ messages rt'
                  = if String.eqb msg' "pong" then messages rt
                    else (messages rt ++ [msg'])%list).
  { intros config' msg'. unfold runHandler. cbv zeta.
    change (handler_body (mkHandler w (OnMessage a))) with (OnMessage a).
    cbv iota.
    set (rt1 := if negb (String.eqb msg' "pong") then _ else rt).
    destruct (transition_total config' n a rt1) as (rt' & E).
    exists rt'. split; [exact E|].
    apply transition_callbacks in E as [-> _].
    subst rt1. destruct (String.eqb msg' "pong"); reflexivity. }
  split; [apply H|]. apply (H customConfig "MyPong").
Qed.

(** ** Disconnecting *)



(** ** Timers *)

(** C8: in every state that a machine can be in, a pending timer is the
    one whose handle the timer map stores under its key, so that for each of
    [ping], [pong] and [connect] at most one timer is pending: no
    SCHEDULE_TIMEOUT was ever executed for a key whose timer was still
    pending, since such a timer would remain pending without being in the
    map.  In terms of the set of pending keys, in which SCHEDULE_TIMEOUT for
    a key of the set has no result: from the set that describes the state,
    every action that the facade or a socket can inject, and the firing of
    every pending timer, has a result. *)
Theorem one_live_timer_per_key (config : Config) (rand : Q) (rt : Runtime) :
  reachable config rand rt ->
  (forall t tm,
      timers rt !! t = Some tm -> timer_live tm = true ->
      timeouts rt !! timer_key tm = Some t)
  /\ (forall t1 tm1 t2 tm2,
        timers rt !! t1 = Some tm1 -> timer_live tm1 = true ->
        timers rt !! t2 = Some tm2 -> timer_live tm2 = true ->
        timer_key tm1 = timer_key tm2 -> t1 = t2)
  /\ exists x,
       Abs rt x
       /\ (forall n a,
             a <> Actions.PING_TIMEOUT ->
             is_Some (absTransition (S (S n)) a x))
       /\ (forall n k,
             isLive (a_live x) k = true ->
             is_Some
               (absTransition (S (S n)) (timeoutAction k)
                  (mkAbstract (a_state x) (setLive k false (a_live x))
                     (a_ws x)))).
Proof.
  intros Hr.
  pose proof (reachable_Inv _ _ _ Hr) as [Ht _ (x & Ha & Hsh) _].
  split; [apply Ht|]. split.
  - intros t1 tm1 t2 tm2 H1 L1 H2 L2 Hk.
    pose proof (ok_tracked _ Ht _ _ H1 L1) as E1.
    pose proof (ok_tracked _ Ht _ _ H2 L2) as E2.
    rewrite Hk in E1. congruence.
  - exists x. split; [exact Ha|]. split.
    + intros n a Hne.
      destruct (absTransition_external n a x Hsh Hne) as (x' & E & _).
      exists x'. exact E.
    + intros n k Hk.
      destruct (absTransition_fire n k x Hsh Hk) as (x' & E & _).
      exists x'. exact E.
Qed.

Lemma one_live_timer_per_key_witness :
  reachable testConfig 0 (openMachine testConfig)
  /\ timeouts (openMachine testConfig) !! TimeoutKey.ping = Some 0%nat.
Proof.
  assert (Hr : reachable testConfig 0 (openMachine testConfig)).
  { apply (run_reachable testConfig 0 2
             [call_connect; socket_event 0 WsMessageKeys.open ""]
             (wsMachine testConfig 0)).
    - apply reachable_init.
    - vm_compute. reflexivity. }
  split; [exact Hr|].
  apply (proj1 (one_live_timer_per_key testConfig 0 (openMachine testConfig) Hr)
           0%nat (mkTimer TimeoutKey.ping 5 Actions.PING_TIMEOUT true)).
  - vm_compute. reflexivity.
  - reflexivity.
Defined.

(** ** The backoff function of a machine *)

(** C6, as stated, fails: a configuration that leaves [backoffFn] out is
    not a [Config], so no machine is built from it, and none that uses
    [calcBackoff]. *)
Lemma no_default_backoffFn :
  lit_backoffFn literalWithoutBackoffFn = None
  /\ ~ exists config,
         asConfig literalWithoutBackoffFn = Some config
         /\ forall rand,
              backoffFn (context (wsState (wsMachine config rand)))
              = calcBackoffFn.
Proof.
  split; [reflexivity|]. intros (config & H & _). discriminate H.
Qed.

(** C6, amended: a configuration accepted by [wsMachine] supplies
    [backoffFn], and the machine built from it uses the supplied function as
    the backoff function of its context, in every state it can be in; there
    is no default. *)
Theorem backoffFn_is_the_configured_one
    (l : ConfigLiteral) (config : Config) (rand : Q) (rt : Runtime) :
  asConfig l = Some config ->
  reachable config rand rt ->
  lit_backoffFn l = Some (cfg_backoffFn config)
  /\ backoffFn (context (wsState rt)) = cfg_backoffFn config.
Proof.
  intros Hl Hr. split.
  - unfold asConfig in Hl.
    destruct (lit_url l), (lit_pingTimeoutMillis l),
      (lit_pongTimeoutMillis l), (lit_backoffFn l), (lit_onMessage l);
      try discriminate.
    injection Hl as <-. reflexivity.
  - pose proof (inv_context _ _ _ (reachable_Inv _ _ _ Hr)) as Hc.
    apply (f_equal backoffFn) in Hc. exact Hc.
Qed.

Lemma backoffFn_is_the_configured_one_witness :
  asConfig testLiteral = Some testConfig
  /\ reachable testConfig 0 (openMachine testConfig)
  /\ backoffFn (context (wsState (openMachine testConfig))) = calcBackoffFn.
Proof.
  assert (Hl : asConfig testLiteral = Some testConfig) by reflexivity.
  assert (Hr : reachable testConfig 0 (openMachine testConfig)).
  { apply (run_reachable testConfig 0 2
             [call_connect; socket_event 0 WsMessageKeys.open ""]
             (wsMachine testConfig 0)).
    - apply reachable_init.
    - vm_compute. reflexivity. }
  split; [exact Hl|]. split; [exact Hr|].
  exact (proj2 (backoffFn_is_the_configured_one
                  testLiteral testConfig 0 (openMachine testConfig) Hl Hr)).
Defined.

(** ** The pong timeout *)

Lemma transition_triggerFree_cell config n a rt :
  triggerFree a ->
  exists rt',
    transition config (S n) a rt = Some rt'
    /\ wsState rt' = (update a (wsState rt)).1
    /\ observed rt' = observed rt
    /\ stateChanges rt'
       = if observed rt
         then (stateChanges rt ++ [(wsState rt, (update a (wsState rt)).1)])%list
         else stateChanges rt.
Proof.
  intros Ha.
  destruct (transition_triggerFree config n a rt (Ha (wsState rt)))
    as (rt' & E & C).
  apply cell_eq in C as (C1 & C2 & _ & C4).
  destruct (swap_spec (fun _ => (update a (wsState rt)).1) rt)
    as (_ & _ & _ & _ & _ & S6 & _ & S8 & S9).
  exists rt'. repeat split; congruence.
Qed.

Lemma trigger_close_reconnect config n rt c :
  wsState rt = States.OPEN c -> observed rt = true ->
  exists rt',
    handleEffects (handleEffect config (transition config (S n)))
      [ Effects.TRIGGER_ACTION Actions.CLOSE;
        Effects.TRIGGER_ACTION Actions.RECONNECT ] rt
    = Some rt'
    /\ wsState rt'
       = States.RECONNECTING
           (with_reconnectAttempt c (reconnectAttempt c + 1)%Q)
    /\ stateChanges rt'
       = (stateChanges rt
          ++ [ (States.OPEN c, States.CLOSED c);
               (States.CLOSED c,
                States.RECONNECTING
                  (with_reconnectAttempt c (reconnectAttempt c + 1)%Q)) ])%list.
Proof.
  intros Hs Ho.
  destruct (transition_triggerFree_cell config n Actions.CLOSE rt
              triggerFree_CLOSE) as (rt1 & E1 & S1 & O1 & C1).
  rewrite Hs in S1, C1. rewrite Ho in O1, C1. simpl in S1, C1.
  destruct (transition_triggerFree_cell config n Actions.RECONNECT rt1
              triggerFree_RECONNECT) as (rt2 & E2 & S2 & O2 & C2).
  rewrite S1 in S2, C2. rewrite O1 in C2. simpl in S2, C2.
  exists rt2. split; [|split].
  - cbn [handleEffects handleEffect]. rewrite E1.
    cbn [mbind option_bind]. rewrite E2. reflexivity.
  - exact S2.
  - rewrite C2, C1, <- app_assoc. reflexivity.
Qed.

(** C9: in state OPEN, [update] answers PONG_TIMEOUT with the same state
    and the effects TRIGGER_ACTION(CLOSE), TRIGGER_ACTION(RECONNECT);
    executing these two effects takes the machine from OPEN to CLOSED and
    from CLOSED to RECONNECTING, which the observer sees as exactly these two
    changes (after the notification OPEN to OPEN of the PONG_TIMEOUT
    transition itself); the transitions for CLOSE and RECONNECT trigger no
    action in any state, they are the only actions ever triggered, at most
    two per batch, and with them every call of [transition] returns. *)
Theorem pong_timeout_chain
    (config : Config) (n : nat) (rt : Runtime) (c : Context) :
  wsState rt = States.OPEN c ->
  observed rt = true ->
  let closed := States.CLOSED c in
  let reconnecting :=
    States.RECONNECTING (with_reconnectAttempt c (reconnectAttempt c + 1)%Q) in
  update Actions.PONG_TIMEOUT (States.OPEN c)
  = (States.OPEN c,
     [ Effects.TRIGGER_ACTION Actions.CLOSE;
       Effects.TRIGGER_ACTION Actions.RECONNECT ])
  /\ (exists rt',
        handleEffects (handleEffect config (transition config (S n)))
          [ Effects.TRIGGER_ACTION Actions.CLOSE;
            Effects.TRIGGER_ACTION Actions.RECONNECT ] rt
        = Some rt'
        /\ wsState rt' = reconnecting
        /\ stateChanges rt'
           = (stateChanges rt
              ++ [(States.OPEN c, closed); (closed, reconnecting)])%list)
  /\ (exists rt',
        transition config (S (S n)) Actions.PONG_TIMEOUT rt = Some rt'
        /\ wsState rt' = reconnecting
        /\ stateChanges rt'
           = (stateChanges rt
              ++ [ (States.OPEN c, States.OPEN c);
                   (States.OPEN c, closed);
                   (closed, reconnecting) ])%list)
  /\ triggerFree Actions.CLOSE
  /\ triggerFree Actions.RECONNECT
  /\ (forall a s a',
        Effects.TRIGGER_ACTION a' ∈ (update a s).2 ->
        (a' = Actions.CLOSE \/ a' = Actions.RECONNECT) /\ triggerFree a')
  /\ (forall a s, length (List.filter isTrigger (update a s).2) <= 2)
  /\ (forall a rt0, is_Some (transition config (S (S n)) a rt0)).
Proof.
  intros Hs Ho closed reconnecting.
  split; [reflexivity|].
  split; [apply trigger_close_reconnect; assumption|].
  split.
  { rewrite transition_S, Hs.
    destruct (swap_spec (fun _ => States.OPEN c) rt)
      as (_ & _ & _ & _ & _ & S6 & _ & S8 & S9).
    rewrite Ho in S6, S9. rewrite Hs in S9.
    destruct (trigger_close_reconnect config n _ c S8 S6) as (rt' & E & W & C).
    exists rt'. split; [exact E|]. split; [exact W|].
    rewrite C, S9, <- app_assoc. reflexivity. }
  split; [apply triggerFree_CLOSE|].
  split; [apply triggerFree_RECONNECT|].
  split.
  { intros a s a' H. apply update_triggers in H. split; [exact H|].
    destruct H as [->| ->];
      [apply triggerFree_CLOSE|apply triggerFree_RECONNECT]. }
  split.
  { intros a s. destruct s, a; simpl; lia. }
  intros a rt0. apply transition_total.
Qed.

Lemma pong_timeout_chain_witness :
  wsState (openMachine testConfig)
  = States.OPEN (initialContext testConfig 0)
  /\ observed (openMachine testConfig) = true
  /\ exists rt',
       transition testConfig 2 Actions.PONG_TIMEOUT (openMachine testConfig)
       = Some rt'
       /\ wsState rt'
          = States.RECONNECTING
              (with_reconnectAttempt (initialContext testConfig 0)
                 (reconnectAttempt (initialContext testConfig 0) + 1)%Q).
Proof.
  assert (Hs : wsState (openMachine testConfig)
               = States.OPEN (initialContext testConfig 0))
    by (vm_compute; reflexivity).
  assert (Ho : observed (openMachine testConfig) = true)
    by (vm_compute; reflexivity).
  split; [exact Hs|]. split; [exact Ho|].
  destruct (proj1 (proj2 (proj2
              (pong_timeout_chain testConfig 0 (openMachine testConfig)
                 (initialContext testConfig 0) Hs Ho))))
    as (rt' & E & W & _).
  exists rt'. split; [exact E|exact W].
Defined.

(** * Further properties of the code *)

(** ** The backoff function: range, growth and cap *)

Lemma calcBackoff_zero (attempt randSeed : Q) (maxVal : option Q) :
  (attempt == 0)%Q -> calcBackoff attempt randSeed maxVal = 0%Q.
Proof.
  intros E. unfold calcBackoff.
  apply Qeq_bool_iff in E. rewrite E. reflexivity.
Qed.



(** X2: with a seed and a cap that are not negative, the delay does not
    decrease when the attempt grows, from attempt 0 on. *)
Theorem calcBackoff_monotone (a b randSeed : Q) (maxVal : option Q) :
  (0 <= a)%Q -> (a <= b)%Q ->
  (0 <= randSeed)%Q -> (0 <= default 30000 maxVal)%Q ->
  (calcBackoff a randSeed maxVal <= calcBackoff b randSeed maxVal)%Q.
Proof.
  intros Ha Hab Hr Hm.
  assert (Hnonneg : forall x, ~ (x == 0)%Q ->
            (0 <= Qmin (default 30000 maxVal) (x ^ 2 * 1000) + 2000 * randSeed)%Q).
  { intros x _.
    assert ((0 <= Qmin (default 30000 maxVal) (x ^ 2 * 1000))%Q).
    { apply Q.min_glb; [exact Hm|]. simpl. nra. }
    lra. }
  destruct (Qeq_dec a 0) as [Ea|Ea].
  - rewrite (calcBackoff_zero _ _ _ Ea).
    destruct (Qeq_dec b 0) as [Eb|Eb].
    + rewrite (calcBackoff_zero _ _ _ Eb). apply Qle_refl.
    + rewrite (calcBackoff_nonzero _ _ _ Eb). apply Hnonneg. exact Eb.
  - assert (Eb : ~ (b == 0)%Q).
    { intros Eb. apply Ea. rewrite Eb in Hab. apply Qle_antisym; assumption. }
    rewrite (calcBackoff_nonzero _ _ _ Ea), (calcBackoff_nonzero _ _ _ Eb).
    apply Qplus_le_compat; [|apply Qle_refl].
    apply Q.min_le_compat_l. simpl. nra.
Qed.

Lemma calcBackoff_monotone_witness :
  (calcBackoff 2 (1 # 2) None <= calcBackoff 9 (1 # 2) None)%Q.
Proof.
  apply (calcBackoff_monotone 2 9 (1 # 2) None); discriminate.
Defined.

(** X3: for an attempt other than 0 the delay is the cap plus the jitter
    as soon as [attempt^2 * 1000] reaches the cap, and
    [attempt^2 * 1000] plus the jitter as long as it does not exceed the
    cap; with the default cap the delay is [30000 + 2000 * randSeed] from
    attempt 6 on. *)
Theorem calcBackoff_regimes (attempt randSeed : Q) (maxVal : option Q) :
  ~ (attempt == 0)%Q ->
  ((default 30000 maxVal <= attempt ^ 2 * 1000)%Q ->
   (calcBackoff attempt randSeed maxVal
    == default 30000 maxVal + 2000 * randSeed)%Q)
  /\ ((attempt ^ 2 * 1000 <= default 30000 maxVal)%Q ->
      (calcBackoff attempt randSeed maxVal
       == attempt ^ 2 * 1000 + 2000 * randSeed)%Q)
  /\ ((6 <= attempt)%Q ->
      (calcBackoff attempt randSeed None == 30000 + 2000 * randSeed)%Q).
Proof.
  intros E. split; [|split].
  - intros H. rewrite (calcBackoff_nonzero _ _ _ E).
    rewrite (Q.min_l _ _ H). reflexivity.
  - intros H. rewrite (calcBackoff_nonzero _ _ _ E).
    rewrite (Q.min_r _ _ H). reflexivity.
  - intros H. rewrite (calcBackoff_nonzero _ _ _ E).
    rewrite Q.min_l; [reflexivity|]. simpl. nra.
Qed.

Lemma calcBackoff_regimes_witness :
  ~ (8 == 0)%Q
  /\ (calcBackoff 8 (1 # 4) None == 30000 + 2000 * (1 # 4))%Q.
Proof.
  assert (E : ~ (8 == 0)%Q) by discriminate.
  split; [exact E|].
  apply (proj2 (proj2 (calcBackoff_regimes 8 (1 # 4) None E))).
  discriminate.
Defined.

(** ** An induction principle for the machine *)

Section Principle.

Variable config : Config.
Variable A : Action -> Prop.
Variable I : Runtime -> Prop.
Variable E : Effect -> Prop.

Hypothesis A_CLOSE : A Actions.CLOSE.
Hypothesis A_RECONNECT : A Actions.RECONNECT.

Hypothesis I_update : forall a rt,
  A a -> I rt ->
  I (swap (fun _ => (update a (wsState rt)).1) rt)
  /\ Forall E (update a (wsState rt)).2.

Hypothesis I_effect : forall tr e rt rt',
  I rt -> E e -> isTrigger e = false ->
  handleEffect config tr e rt = Some rt' -> I rt'.

Lemma handleEffects_preserves tr effects :
  (forall a rt rt', A a -> I rt -> tr a rt = Some rt' -> I rt') ->
  Forall E effects ->
  (forall a, Effects.TRIGGER_ACTION a ∈ effects -> A a) ->
  forall rt rt',
    I rt -> handleEffects (handleEffect config tr) effects rt = Some rt' ->
    I rt'.
Proof.
  intros Htr. induction effects as [|e effects IH]; intros HE HA rt rt' HI H.
  - injection H as <-. exact HI.
  - rewrite handleEffects_cons in H.
    destruct (handleEffect config tr e rt) as [rt1|] eqn:E1; [|discriminate].
    simpl in H. inversion HE as [|? ? He HE']; subst.
    apply (IH HE') with (rt := rt1); [| |exact H].
    + intros a Ha. apply HA. right. exact Ha.
    + destruct (isTrigger e) eqn:Ht.
      * destruct e; try discriminate. simpl in E1.
        eapply Htr; [|exact HI|exact E1]. apply HA. left.
      * eapply I_effect; eauto.
Qed.

(** A property kept by the [swap] of a transition and by the effects that
    [update] emits is kept by [transition]. *)
Lemma transition_preserves fuel :
  forall a rt rt',
    A a -> I rt -> transition config fuel a rt = Some rt' -> I rt'.
Proof.
  induction fuel as [|fuel IH]; intros a rt rt' Ha HI H; [discriminate|].
  rewrite transition_S in H.
  destruct (I_update a rt Ha HI) as [HI' HE].
  eapply handleEffects_preserves; [exact IH|exact HE| |exact HI'|exact H].
  intros a' Ha'. apply update_triggers in Ha' as [->| ->]; assumption.
Qed.

End Principle.

Section StepPrinciple.

Variable config : Config.
Variable I : Runtime -> Prop.

Hypothesis I_transition : forall fuel a rt rt',
  I rt -> transition config fuel a rt = Some rt' -> I rt'.
Hypothesis I_disconnect : forall rt, I rt -> I (disconnect rt).
Hypothesis I_stop : forall rt t,
  I rt -> I (set_timers (alter stopped t (timers rt)) rt).
Hypothesis I_message : forall rt m, I rt -> I (set_messages m rt).

Lemma runHandlers_preserves fuel hs data :
  forall rt rt',
    I rt -> runHandlers config fuel hs data rt = Some rt' -> I rt'.
Proof.
  induction hs as [|h hs IH]; intros rt rt' HI H; simpl in H.
  - injection H as <-. exact HI.
  - destruct (runHandler config fuel h data rt) as [rt1|] eqn:E1;
      [|discriminate].
    simpl in H. eapply IH; [|exact H].
    unfold runHandler in E1. destruct (handler_body h) as [a|a|a].
    + eapply I_transition; eauto.
    + destruct (transition config fuel a rt) as [rt0|] eqn:E0; [|discriminate].
      simpl in E1. eapply I_transition; [|exact E1].
      eapply I_transition; eauto.
    + eapply I_transition; [|exact E1].
      destruct (negb (String.eqb data "pong")); auto.
Qed.

(** A property kept by [transition], by [disconnect], by a timer being
    consumed and by a call of [config.onMessage] is kept by every event. *)
Lemma step_preserves fuel e rt rt' :
  I rt -> step config fuel e rt = Some rt' -> I rt'.
Proof.
  intros HI H. destruct e; simpl in H.
  - eapply I_transition; eauto.
  - injection H as <-. exact HI.
  - injection H as <-. auto.
  - unfold fireTimer in H. destruct (timers rt !! t) as [tm|]; [|congruence].
    destruct (timer_live tm); [|congruence].
    eapply I_transition; [|exact H]. auto.
  - unfold dispatchEvent in H. destruct (sockets rt !! w); [|congruence].
    eapply runHandlers_preserves; eauto.
Qed.

Lemma run_preserves fuel es :
  forall rt rt', I rt -> run config fuel es rt = Some rt' -> I rt'.
Proof.
  induction es as [|e es IH]; intros rt rt' HI H; simpl in H.
  - injection H as <-. exact HI.
  - destruct (step config fuel e rt) as [rt1|] eqn:E1; [|discriminate].
    simpl in H. eapply IH; [|exact H]. eapply step_preserves; eauto.
Qed.

Lemma reachable_preserves rand :
  I (wsMachine config rand) ->
  forall rt, reachable config rand rt -> I rt.
Proof.
  intros H0 rt Hr. induction Hr as [|rt fuel e rt' _ IH Hstep].
  - exact H0.
  - eapply step_preserves; eauto.
Qed.

End StepPrinciple.

(** ** What one effect does to the timers *)

Lemma handleEffect_timers config tr e rt rt' :
  isTrigger e = false -> isSchedule e = false ->
  handleEffect config tr e rt = Some rt' ->
  stoppedSome (timers rt) (timers rt') /\ timeouts rt' = timeouts rt.
Proof.
  intros Ht Hs H. destruct e; try discriminate.
  - injection H as <-. destruct (ws rt) as [w|] eqn:Hw.
    + destruct (removeEventListeners_spec w rt)
        as (_ & _ & R3 & R4 & _).
      destruct (clearTimeouts_spec (removeEventListeners w rt))
        as (_ & _ & _ & _ & C5 & C6 & _).
      split.
      * change (stoppedSome (timers rt)
                  (timers (clearTimeouts (removeEventListeners w rt)))).
        rewrite <- R3. exact C6.
      * change (timeouts (clearTimeouts (removeEventListeners w rt))
                = timeouts rt).
        congruence.
    + split; [apply stoppedSome_refl|reflexivity].
  - simpl in H. destruct (ws rt); injection H as <-;
      (split; [apply stoppedSome_refl|reflexivity]).
  - injection H as <-.
    destruct (nukeTimeout_frame key rt) as (_ & _ & _ & _ & F5 & Fs).
    auto.
Qed.

Lemma handleEffect_schedule config tr key ms a rt rt' :
  handleEffect config tr (Effects.SCHEDULE_TIMEOUT key ms a) rt = Some rt' ->
  timers rt' = (timers rt ++ [mkTimer key ms a true])%list
  /\ timeouts rt' = <[key := length (timers rt)]> (timeouts rt)
  /\ sockets rt' = sockets rt /\ ws rt' = ws rt
  /\ wsHandlers rt' = wsHandlers rt.
Proof. intros H. injection H as <-. repeat split. Qed.

(** ** The context and the delays of the timers *)

Section ContextInvariant.

Variable config : Config.
Variable rand : Q.

Lemma update_scheduleOk a s :
  with_reconnectAttempt (context s) 0 = initialContext config rand ->
  isNonNegInteger (reconnectAttempt (context s)) ->
  Forall (scheduleOk config rand) (update a s).2.
Proof.
  intros Hc [n Hn].
  pose proof (f_equal pingTimeoutMillis Hc) as Hping.
  pose proof (f_equal pongTimeoutMillis Hc) as Hpong.
  pose proof (f_equal backoffFn Hc) as Hf.
  pose proof (f_equal randSeed Hc) as Hseed.
  destruct s, a; simpl in *; repeat constructor; simpl; auto.
  exists n. rewrite Hf, Hseed, Hn, inject_Z_succ. reflexivity.
Qed.

Lemma ContextInv_update a rt :
  ContextInv config rand rt ->
  ContextInv config rand (swap (fun _ => (update a (wsState rt)).1) rt)
  /\ Forall (scheduleOk config rand) (update a (wsState rt)).2.
Proof.
  intros [Hc Hn Hd]. split; [|apply update_scheduleOk; assumption].
  destruct (swap_spec (fun _ => (update a (wsState rt)).1) rt)
    as (_ & S2 & _ & _ & _ & _ & _ & S8 & _).
  split.
  - rewrite S8, update_context. exact Hc.
  - rewrite S8. apply update_isNonNegInteger. exact Hn.
  - rewrite S2. exact Hd.
Qed.

Lemma delayOk_stoppedSome ts ts' :
  stoppedSome ts ts' ->
  (forall t tm, ts !! t = Some tm ->
                delayOk config rand (timer_key tm) (timer_millis tm)) ->
  forall t tm, ts' !! t = Some tm ->
               delayOk config rand (timer_key tm) (timer_millis tm).
Proof.
  intros Hs H t tm Ht. destruct (Hs t) as [E|E]; rewrite Ht in E.
  - eapply H. symmetry. exact E.
  - destruct (ts !! t) as [tm0|] eqn:E0; [|discriminate].
    injection E as ->. simpl. eapply H. exact E0.
Qed.

Lemma ContextInv_effect tr e rt rt' :
  ContextInv config rand rt -> scheduleOk config rand e ->
  isTrigger e = false ->
  handleEffect config tr e rt = Some rt' ->
  ContextInv config rand rt'.
Proof.
  intros [Hc Hn Hd] He Ht H.
  destruct (handleEffect_cell config tr e rt Ht) as (rt1 & E1 & C1).
  rewrite H in E1. injection E1 as <-.
  apply cell_eq in C1 as (C1 & _).
  split; try (rewrite C1; assumption).
  destruct (isSchedule e) eqn:Hs.
  - destruct e; try discriminate.
    destruct (handleEffect_schedule _ _ _ _ _ _ _ H) as (T1 & _).
    intros t tm Htm. rewrite T1 in Htm.
    apply lookup_snoc_Some in Htm as [[_ Htm]|[_ <-]]; [eauto|exact He].
  - destruct (handleEffect_timers _ _ _ _ _ Ht Hs H) as (Hst & _).
    eapply delayOk_stoppedSome; eauto.
Qed.

Lemma ContextInv_transition fuel a rt rt' :
  ContextInv config rand rt ->
  transition config fuel a rt = Some rt' ->
  ContextInv config rand rt'.
Proof.
  intros HI H.
  apply (transition_preserves config (fun _ => True)
           (ContextInv config rand) (scheduleOk config rand)
           I I
           (fun a rt _ HI => ContextInv_update a rt HI)
           ContextInv_effect fuel a rt rt' I HI H).
Qed.

Lemma disconnect_cell rt :
  observed (disconnect rt) = false
  /\ messages (disconnect rt) = messages rt
  /\ stateChanges (disconnect rt) = stateChanges rt
  /\ wsState (disconnect rt)
     = match ws rt with
       | Some _ =>
           States.INITIAL (with_reconnectAttempt (context (wsState rt)) 0)
       | None => wsState rt
       end
  /\ stoppedSome (timers rt) (timers (disconnect rt))
  /\ timeouts (disconnect rt) = timeouts rt.
Proof.
  unfold disconnect. simpl. destruct (ws rt) as [w|] eqn:Hw.
  - set (rt1 := set_observed false rt).
    destruct (removeEventListeners_spec w rt1)
      as (_ & R2 & R3 & R4 & _).
    destruct (clearTimeouts_spec (removeEventListeners w rt1))
      as (_ & C2 & _ & _ & C5 & C6 & _).
    destruct (swap_spec
                (fun currState =>
                   States.INITIAL
                     (with_reconnectAttempt (context currState) 0))
                (clearTimeouts (removeEventListeners w rt1)))
      as (_ & S2 & S3 & _ & _ & S6 & S7 & S8 & S9).
    apply cell_eq in R2 as (R2a & R2b & R2c & R2d).
    apply cell_eq in C2 as (C2a & C2b & C2c & C2d).
    rewrite C2b, R2b in S9. simpl in S9.
    simpl. repeat split.
    + rewrite S6, C2b, R2b. reflexivity.
    + rewrite S7, C2c, R2c. reflexivity.
    + rewrite S9, C2d, R2d. reflexivity.
    + rewrite S8, C2a, R2a. reflexivity.
    + rewrite S2. rewrite R3 in C6. exact C6.
    + rewrite S3, C5, R4. reflexivity.
  - simpl. repeat split. apply stoppedSome_refl.
Qed.

Lemma ContextInv_reachable rt :
  reachable config rand rt -> ContextInv config rand rt.
Proof.
  apply (reachable_preserves config (ContextInv config rand)).
  - intros fuel a rt0 rt' HI H. eapply ContextInv_transition; eauto.
  - intros rt0 [Hc Hn Hd].
    destruct (disconnect_cell rt0) as (_ & _ & _ & D4 & D5 & _).
    split.
    + rewrite D4. destruct (ws rt0); [exact Hc|exact Hc].
    + rewrite D4. destruct (ws rt0); [exists 0%nat; reflexivity|exact Hn].
    + eapply delayOk_stoppedSome; eauto.
  - intros rt0 t [Hc Hn Hd]. split; auto.
    simpl. eapply delayOk_stoppedSome; [apply stoppedSome_alter|exact Hd].
  - intros rt0 m [Hc Hn Hd]. split; auto.
  - split.
    + reflexivity.
    + exists 0%nat. reflexivity.
    + intros t tm H. simpl in H. rewrite lookup_nil in H. discriminate.
Qed.

End ContextInvariant.

(** X4: in every state that a machine can be in, the context is the
    configuration: url, ping and pong timeouts and backoff function are the
    configured ones, the seed is the value drawn when the machine was
    built, and the reconnect counter is a non-negative integer. *)
Theorem machine_context (config : Config) (rand : Q) (rt : Runtime) :
  reachable config rand rt ->
  let c := context (wsState rt) in
  url c = cfg_url config
  /\ randSeed c = rand
  /\ pingTimeoutMillis c = cfg_pingTimeoutMillis config
  /\ pongTimeoutMillis c = cfg_pongTimeoutMillis config
  /\ backoffFn c = cfg_backoffFn config
  /\ isNonNegInteger (reconnectAttempt c).
Proof.
  intros Hr c. destruct (ContextInv_reachable _ _ _ Hr) as [Hc Hn _].
  repeat split; try exact Hn.
  - exact (f_equal url Hc).
  - exact (f_equal randSeed Hc).
  - exact (f_equal pingTimeoutMillis Hc).
  - exact (f_equal pongTimeoutMillis Hc).
  - exact (f_equal backoffFn Hc).
Qed.

Lemma machine_context_witness :
  reachable testConfig 0 (openMachine testConfig)
  /\ url (context (wsState (openMachine testConfig))) = "ws://localhost:1234".
Proof.
  assert (Hr : reachable testConfig 0 (openMachine testConfig)).
  { apply (run_reachable testConfig 0 2
             [call_connect; socket_event 0 WsMessageKeys.open ""]
             (wsMachine testConfig 0)).
    - apply reachable_init.
    - vm_compute. reflexivity. }
  split; [exact Hr|].
  exact (proj1 (machine_context testConfig 0 (openMachine testConfig) Hr)).
Defined.

(** X5: every timer that a machine ever starts, pending or not, waits
    for a delay taken from the configuration: a ping timer for
    [pingTimeoutMillis], a pong timer for [pongTimeoutMillis], a connect
    timer for [backoffFn(n, randSeed)] at some attempt [n] of 1 or more. *)
Theorem timer_delays (config : Config) (rand : Q) (rt : Runtime)
    (t : nat) (tm : Timer) :
  reachable config rand rt ->
  timers rt !! t = Some tm ->
  match timer_key tm with
  | TimeoutKey.ping => timer_millis tm = cfg_pingTimeoutMillis config
  | TimeoutKey.pong => timer_millis tm = cfg_pongTimeoutMillis config
  | TimeoutKey.connect =>
      exists n : nat,
        timer_millis tm
        = cfg_backoffFn config (inject_Z (Z.of_nat (S n))) rand
  end.
Proof.
  intros Hr Ht.
  exact (ci_delays _ _ _ (ContextInv_reachable _ _ _ Hr) t tm Ht).
Qed.

Lemma timer_delays_witness :
  reachable testConfig 0 (openMachine testConfig)
  /\ timers (openMachine testConfig) !! 0%nat
     = Some (mkTimer TimeoutKey.ping 5 Actions.PING_TIMEOUT true)
  /\ timer_millis (mkTimer TimeoutKey.ping 5 Actions.PING_TIMEOUT true)
     = cfg_pingTimeoutMillis testConfig.
Proof.
  assert (Hr : reachable testConfig 0 (openMachine testConfig)).
  { apply (run_reachable testConfig 0 2
             [call_connect; socket_event 0 WsMessageKeys.open ""]
             (wsMachine testConfig 0)).
    - apply reachable_init.
    - vm_compute. reflexivity. }
  assert (Ht : timers (openMachine testConfig) !! 0%nat
               = Some (mkTimer TimeoutKey.ping 5 Actions.PING_TIMEOUT true))
    by (vm_compute; reflexivity).
  split; [exact Hr|]. split; [exact Ht|].
  exact (timer_delays testConfig 0 (openMachine testConfig) 0%nat _ Hr Ht).
Defined.

(** ** What the observer sees *)

Lemma isPath_snoc s0 l s s' :
  isPath s0 l s -> isPath s0 (l ++ [(s, s')]) s'.
Proof.
  revert s0. induction l as [|[p c] l IH]; intros s0 H; simpl in *.
  - split; [symmetry; exact H|reflexivity].
  - destruct H as [-> H]. split; [reflexivity|]. apply IH. exact H.
Qed.

Section Observer.

Variable config : Config.

Lemma observed_path_transition s0 fuel a rt rt' :
  (observed rt = true -> isPath s0 (stateChanges rt) (wsState rt)) ->
  transition config fuel a rt = Some rt' ->
  observed rt' = true -> isPath s0 (stateChanges rt') (wsState rt').
Proof.
  intros HI H.
  refine (transition_preserves config (fun _ => True)
            (fun rt => observed rt = true ->
                       isPath s0 (stateChanges rt) (wsState rt))
            (fun _ => True) I I _ _ fuel a rt rt' I HI H).
  - intros a0 rt0 _ HI0. split; [|apply Forall_forall; auto].
    destruct (swap_spec (fun _ => (update a0 (wsState rt0)).1) rt0)
      as (_ & _ & _ & _ & _ & S6 & _ & S8 & S9).
    intros Ho. rewrite S6 in Ho. rewrite Ho in S9.
    rewrite S8, S9. apply isPath_snoc. auto.
  - intros tr e rt0 rt1 HI0 _ Ht He.
    destruct (handleEffect_cell config tr e rt0 Ht) as (rt2 & E2 & C2).
    rewrite He in E2. injection E2 as <-.
    apply cell_eq in C2 as (-> & -> & _ & ->). exact HI0.
Qed.

Lemma unobserved_transition l0 fuel a rt rt' :
  observed rt = false /\ stateChanges rt = l0 ->
  transition config fuel a rt = Some rt' ->
  observed rt' = false /\ stateChanges rt' = l0.
Proof.
  intros HI H.
  refine (transition_preserves config (fun _ => True)
            (fun rt => observed rt = false /\ stateChanges rt = l0)
            (fun _ => True) I I _ _ fuel a rt rt' I HI H).
  - intros a0 rt0 _ [Ho Hl]. split; [|apply Forall_forall; auto].
    destruct (swap_spec (fun _ => (update a0 (wsState rt0)).1) rt0)
      as (_ & _ & _ & _ & _ & S6 & _ & _ & S9).
    rewrite Ho in S9. split; congruence.
  - intros tr e rt0 rt1 HI0 _ Ht He.
    destruct (handleEffect_cell config tr e rt0 Ht) as (rt2 & E2 & C2).
    rewrite He in E2. injection E2 as <-.
    apply cell_eq in C2 as (_ & -> & _ & ->). exact HI0.
Qed.

End Observer.

(** X6: as long as the observer is registered, the notifications it has
    received lead without a gap from the initial state of the machine to its
    current state: the first starts in INITIAL with the context built from
    the configuration, each one starts in the state in which the one before
    it ended, and the last ends in the current state. *)
Theorem notifications_form_a_path (config : Config) (rand : Q) (rt : Runtime) :
  reachable config rand rt ->
  observed rt = true ->
  isPath (States.INITIAL (initialContext config rand))
    (stateChanges rt) (wsState rt).
Proof.
  intros Hr. revert rt Hr.
  apply (reachable_preserves config
           (fun rt => observed rt = true ->
                      isPath (States.INITIAL (initialContext config rand))
                        (stateChanges rt) (wsState rt))).
  - intros fuel a rt rt'. apply observed_path_transition.
  - intros rt _ Ho. destruct (disconnect_cell rt) as (D1 & _).
    congruence.
  - intros rt t H. exact H.
  - intros rt m H. exact H.
  - intros _. reflexivity.
Qed.

Lemma notifications_form_a_path_witness :
  reachable testConfig 0 (openMachine testConfig)
  /\ observed (openMachine testConfig) = true
  /\ isPath (States.INITIAL (initialContext testConfig 0))
       (stateChanges (openMachine testConfig))
       (wsState (openMachine testConfig)).
Proof.
  assert (Hr : reachable testConfig 0 (openMachine testConfig)).
  { apply (run_reachable testConfig 0 2
             [call_connect; socket_event 0 WsMessageKeys.open ""]
             (wsMachine testConfig 0)).
    - apply reachable_init.
    - vm_compute. reflexivity. }
  assert (Ho : observed (openMachine testConfig) = true)
    by (vm_compute; reflexivity).
  split; [exact Hr|]. split; [exact Ho|].
  exact (notifications_form_a_path testConfig 0 _ Hr Ho).
Defined.

(** X7: [disconnect()] removes the observer for good: whatever happens
    to the machine afterwards, a new [connect()] and the transitions that
    follow it included, [config.onStateChange] is not called again. *)
Theorem no_notification_after_disconnect
    (config : Config) (fuel : nat) (es : list Event) (rt rt' : Runtime) :
  run config fuel es (disconnect rt) = Some rt' ->
  observed rt' = false /\ stateChanges rt' = stateChanges rt.
Proof.
  intros H.
  destruct (disconnect_cell rt) as (D1 & _ & D3 & D4 & _).
  apply (run_preserves config
           (fun rt0 => observed rt0 = false
                       /\ stateChanges rt0 = stateChanges rt))
    with (fuel := fuel) (es := es) (rt := disconnect rt); [| | | | |exact H].
  - intros f a rt0 rt1. apply unobserved_transition.
  - intros rt0 [Ho Hl]. destruct (disconnect_cell rt0) as (E1 & _ & E3 & _).
    split; congruence.
  - intros rt0 t H0. exact H0.
  - intros rt0 m H0. exact H0.
  - split; assumption.
Qed.

Lemma no_notification_after_disconnect_witness :
  exists rt',
    run testConfig 2 [call_connect; socket_event 1 WsMessageKeys.open ""]
      (disconnect (openMachine testConfig)) = Some rt'
    /\ wsState rt' = States.OPEN (initialContext testConfig 0)
    /\ observed rt' = false
    /\ stateChanges rt' = stateChanges (openMachine testConfig).
Proof.
  eexists.
  assert (H : run testConfig 2
                [call_connect; socket_event 1 WsMessageKeys.open ""]
                (disconnect (openMachine testConfig))
              = Some (default (openMachine testConfig)
                        (run testConfig 2
                           [call_connect;
                            socket_event 1 WsMessageKeys.open ""]
                           (disconnect (openMachine testConfig)))))
    by (vm_compute; reflexivity).
  split; [exact H|]. split; [vm_compute; reflexivity|].
  exact (no_notification_after_disconnect testConfig 2 _ _ _ H).
Defined.

(** ** Sockets: what the CONNECT_WS effect does *)

Lemma handleEffect_connect_ws config tr u o c p rt :
  handleEffect config tr (Effects.CONNECT_WS u o c p) rt
  = Some (openSocket u o c p (retireSocket rt)).
Proof. reflexivity. Qed.

Lemma removeEventListeners_sockets w rt :
  (forall w', w' <> w ->
     sockets (removeEventListeners w rt) !! w' = sockets rt !! w')
  /\ (forall s', sockets (removeEventListeners w rt) !! w = Some s' ->
        exists s,
          sockets rt !! w = Some s
          /\ ws_url s' = ws_url s /\ ws_closed s' = ws_closed s
          /\ ws_sent s' = ws_sent s
          /\ forall l, l ∈ ws_listeners s' ->
               l ∈ ws_listeners s /\ wsHandlers rt !! l.1 <> Some l.2).
Proof.
  unfold removeEventListeners.
  apply (map_fold_weak_ind
    (fun (acc : Runtime) (m : gmap WsMessageKeys Handler) =>
       (forall w', w' <> w -> sockets acc !! w' = sockets rt !! w')
       /\ (forall s', sockets acc !! w = Some s' ->
             exists s,
               sockets rt !! w = Some s
               /\ ws_url s' = ws_url s /\ ws_closed s' = ws_closed s
               /\ ws_sent s' = ws_sent s
               /\ forall l, l ∈ ws_listeners s' ->
                    l ∈ ws_listeners s /\ m !! l.1 <> Some l.2))).
  - split; [reflexivity|]. intros s' Hs'. exists s'.
    repeat split; auto.
  - intros k h m r Hk [IH1 IH2]. simpl. split.
    + intros w' Hne. rewrite list_lookup_alter_ne by auto. auto.
    + intros s' Hs'. rewrite list_lookup_alter_eq in Hs'.
      destruct (sockets r !! w) as [s1|] eqn:E1; [|discriminate].
      injection Hs' as <-.
      destruct (IH2 s1 eq_refl) as (s & Hs & Hu & Hc & Hse & Hl).
      exists s. simpl. repeat split; auto.
      * apply list_elem_of_filter in H as [_ H]. apply Hl. exact H.
      * apply list_elem_of_filter in H as [Hne H].
        destruct (Hl l H) as [_ Hm].
        destruct l as [k' h']. simpl in *.
        destruct (decide (k = k')) as [<-|Hkk].
        -- rewrite lookup_insert_eq. intros E. injection E as <-.
           apply Hne. reflexivity.
        -- rewrite lookup_insert_ne by exact Hkk. exact Hm.
Qed.

Lemma retireSocket_frame rt :
  ws (retireSocket rt) = ws rt
  /\ cell (retireSocket rt) = cell rt
  /\ wsHandlers (retireSocket rt) = wsHandlers rt
  /\ timeouts (retireSocket rt) = timeouts rt
  /\ stoppedSome (timers rt) (timers (retireSocket rt))
  /\ length (sockets (retireSocket rt)) = length (sockets rt).
Proof.
  unfold retireSocket. destruct (ws rt) as [w|] eqn:Hw.
  - destruct (removeEventListeners_spec w rt)
      as (R1 & R2 & R3 & R4 & R5 & R6 & _).
    destruct (clearTimeouts_spec (removeEventListeners w rt))
      as (C1 & C2 & C3 & C4 & C5 & C6 & _).
    simpl. split; [congruence|]. split.
    { rewrite <- R2, <- C2. reflexivity. }
    split; [congruence|]. split; [congruence|]. split.
    + rewrite <- R3. exact C6.
    + rewrite length_alter. congruence.
  - repeat split; auto using stoppedSome_refl.
Qed.

(** The socket that CONNECT_WS finds is closed and loses the listeners
    stored in [wsHandlers]; nothing else happens to the sockets. *)
Lemma retireSocket_sockets rt w s' :
  sockets (retireSocket rt) !! w = Some s' ->
  exists s,
    sockets rt !! w = Some s
    /\ ws_url s' = ws_url s /\ ws_sent s' = ws_sent s
    /\ ws_closed s' = (if decide (ws rt = Some w) then true else ws_closed s)
    /\ (forall l, l ∈ ws_listeners s' ->
          l ∈ ws_listeners s
          /\ (ws rt = Some w -> wsHandlers rt !! l.1 <> Some l.2)).
Proof.
  unfold retireSocket. destruct (ws rt) as [w0|] eqn:Hw.
  - destruct (removeEventListeners_sockets w0 rt) as [RS1 RS2].
    destruct (clearTimeouts_spec (removeEventListeners w0 rt))
      as (_ & _ & C3 & _).
    simpl. rewrite C3. intros H.
    destruct (decide (w0 = w)) as [->|Hne].
    + rewrite list_lookup_alter_eq in H.
      destruct (sockets (removeEventListeners w rt) !! w) as [s1|] eqn:E1;
        [|discriminate].
      injection H as <-.
      destruct (RS2 s1 eq_refl) as (s & Hs & Hu & Hc & Hse & Hl).
      exists s. simpl. rewrite decide_True by reflexivity.
      split; [exact Hs|]. split; [exact Hu|]. split; [exact Hse|].
      split; [reflexivity|]. intros l Hl'.
      destruct (Hl l Hl') as [H1 H2]. split; [exact H1|intros _; exact H2].
    + rewrite list_lookup_alter_ne in H by exact Hne.
      rewrite RS1 in H by auto.
      exists s'. rewrite decide_False by congruence.
      split; [exact H|]. repeat split; auto. congruence.
  - intros H. exists s'. rewrite decide_False by discriminate.
    split; [exact H|]. repeat split; auto.
Qed.

(** The new socket gets the next handle, the three listeners and nothing
    else; the sockets that exist are not touched. *)
Lemma openSocket_spec u o c p rt :
  let w := length (sockets rt) in
  let rt' := openSocket u o c p rt in
  ws rt' = Some w
  /\ cell rt' = cell rt
  /\ timers rt' = timers rt /\ timeouts rt' = timeouts rt
  /\ length (sockets rt') = S w
  /\ (forall w', w' < w -> sockets rt' !! w' = sockets rt !! w')
  /\ sockets rt' !! w
     = Some {| ws_url := u;
               ws_listeners :=
                 [ (WsMessageKeys.open, mkHandler w (OnOpen o));
                   (WsMessageKeys.close, mkHandler w (OnClose c));
                   (WsMessageKeys.message, mkHandler w (OnMessage p)) ];
               ws_closed := false;
               ws_sent := [] |}
  /\ wsHandlers rt' !! WsMessageKeys.open = Some (mkHandler w (OnOpen o))
  /\ wsHandlers rt' !! WsMessageKeys.close = Some (mkHandler w (OnClose c))
  /\ wsHandlers rt' !! WsMessageKeys.message
     = Some (mkHandler w (OnMessage p)).
Proof.
  intros w rt'. subst rt'. unfold openSocket, addEventListener. cbv zeta.
  fold w. simpl.
  repeat split.
  - rewrite !length_alter, length_app. simpl. lia.
  - intros w' Hlt. rewrite !list_lookup_alter_ne by lia.
    apply lookup_app_l. exact Hlt.
  - rewrite !list_lookup_alter_eq.
    rewrite list_lookup_middle by reflexivity. reflexivity.
  - rewrite lookup_insert_ne by discriminate.
    rewrite lookup_insert_ne by discriminate.
    apply lookup_insert_eq.
  - rewrite lookup_insert_ne by discriminate. apply lookup_insert_eq.
  - apply lookup_insert_eq.
Qed.

(** What an effect other than CONNECT_WS and TRIGGER_ACTION does to the
    sockets: nothing, except that SEND_PING writes the ping payload to the
    current one. *)
Lemma handleEffect_sockets config tr e rt rt' :
  isTrigger e = false -> isConnectWs e = false ->
  handleEffect config tr e rt = Some rt' ->
  ws rt' = ws rt
  /\ wsHandlers rt' = wsHandlers rt
  /\ length (sockets rt') = length (sockets rt)
  /\ forall w s',
       sockets rt' !! w = Some s' ->
       exists s,
         sockets rt !! w = Some s
         /\ ws_listeners s' = ws_listeners s
         /\ ws_url s' = ws_url s /\ ws_closed s' = ws_closed s
         /\ (ws_sent s' = ws_sent s
             \/ (ws rt = Some w /\ e = Effects.SEND_PING
                 /\ ws_sent s'
                    = (ws_sent s ++ [default "ping" (cfg_pingMsg config)])%list)).
Proof.
  intros Ht Hc H. destruct e; try discriminate.
  - destruct (handleEffect_schedule _ _ _ _ _ _ _ H) as (_ & _ & S3 & S4 & S5).
    rewrite S3, S4, S5. repeat split. intros w s' Hs'. exists s'. auto 10.
  - simpl in H. destruct (ws rt) as [w0|] eqn:Hw; injection H as <-; simpl.
    + split; [exact Hw|]. split; [reflexivity|].
      split; [apply length_alter|].
      intros w s' Hs'. rewrite list_lookup_alter in Hs'.
      case_decide as Hd.
      * subst w0. destruct (sockets rt !! w) as [s|]; [|discriminate].
        injection Hs' as <-. exists s. simpl. auto 10.
      * exists s'. auto 10.
    + rewrite Hw. repeat split. intros w s' Hs'. exists s'. auto 10.
  - injection H as <-.
    destruct (nukeTimeout_frame key rt) as (F1 & _ & F3 & F4 & _).
    rewrite F1, F3, F4. repeat split. intros w s' Hs'. exists s'. auto 10.
Qed.

(** ** Where the listeners are *)

Section Listeners.

Variable config : Config.

Lemma update_isInitial a s :
  a <> Actions.CONNECT -> isInitial (update a s).1 = isInitial s.
Proof. intros Ha. destruct s, a; try reflexivity; congruence. Qed.

Lemma update_no_connect_ws a s :
  a <> Actions.CONNECT ->
  Forall (fun e => isConnectWs e = false) (update a s).2.
Proof.
  intros Ha. destruct s, a; try congruence; simpl; repeat constructor.
Qed.

Lemma ListenersInv_frame rt rt' :
  ws rt' = ws rt -> wsHandlers rt' = wsHandlers rt ->
  isInitial (wsState rt') = isInitial (wsState rt) ->
  (forall w s', sockets rt' !! w = Some s' ->
     exists s, sockets rt !! w = Some s /\ ws_listeners s' = ws_listeners s) ->
  length (sockets rt') = length (sockets rt) ->
  ListenersInv rt -> ListenersInv rt'.
Proof.
  intros Ew Eh Ei Hs Hlen [L1 L2 L3 L4]. split.
  - intros w s' Hs' Hne. destruct (Hs _ _ Hs') as (s & Hss & ->).
    rewrite Ew in Hne. eauto.
  - intros w Hw. rewrite Ew in Hw. destruct (L2 w Hw) as (s & Hss & Hl).
    destruct (lookup_lt_is_Some_2 (sockets rt') w) as (s' & Hs').
    { rewrite Hlen. eapply lookup_lt_Some. exact Hss. }
    exists s'. split; [exact Hs'|].
    destruct (Hs _ _ Hs') as (s0 & Hs0 & ->).
    rewrite Ei. congruence.
  - intros w s' l Hw Hs' Hl. rewrite Ew in Hw. rewrite Eh.
    destruct (Hs _ _ Hs') as (s & Hss & E). rewrite E in Hl. eauto.
  - intros Hw. rewrite Ew in Hw. rewrite Ei. auto.
Qed.

Lemma ListenersInv_effect tr e rt rt' :
  ListenersInv rt -> isConnectWs e = false -> isTrigger e = false ->
  handleEffect config tr e rt = Some rt' -> ListenersInv rt'.
Proof.
  intros HI Hc Ht H.
  destruct (handleEffect_sockets _ _ _ _ _ Ht Hc H) as (E1 & E2 & E3 & Hs).
  destruct (handleEffect_cell config tr e rt Ht) as (rt1 & H1 & C1).
  rewrite H in H1. injection H1 as <-.
  apply cell_eq in C1 as (C1 & _).
  apply (ListenersInv_frame rt rt'); auto.
  - rewrite C1. reflexivity.
  - intros w s' Hs'. destruct (Hs _ _ Hs') as (s & Hss & Hl & _). eauto.
Qed.

Lemma ListenersInv_swap s rt :
  isInitial s = isInitial (wsState rt) ->
  ListenersInv rt -> ListenersInv (swap (fun _ => s) rt).
Proof.
  intros Ei. destruct (swap_spec (fun _ => s) rt)
    as (S1 & _ & _ & S4 & S5 & _ & _ & S8 & _).
  apply ListenersInv_frame; auto.
  - rewrite S8. exact Ei.
  - intros w s' Hs'. rewrite S4 in Hs'. eauto.
  - rewrite S4. reflexivity.
Qed.

Lemma ListenersInv_other fuel a rt rt' :
  a <> Actions.CONNECT ->
  ListenersInv rt -> transition config fuel a rt = Some rt' ->
  ListenersInv rt'.
Proof.
  intros Ha HI H.
  refine (transition_preserves config (fun a => a <> Actions.CONNECT)
            ListenersInv (fun e => isConnectWs e = false)
            _ _ _ _ fuel a rt rt' Ha HI H); try discriminate.
  - intros a0 rt0 Ha0 HI0. split.
    + apply ListenersInv_swap; [|exact HI0]. apply update_isInitial. exact Ha0.
    + apply update_no_connect_ws. exact Ha0.
  - intros tr e rt0 rt1. apply ListenersInv_effect.
Qed.

(** After the CONNECT_WS of [connect] only the new socket has listeners:
    its three. *)
Lemma ListenersInv_connect_ws u rt :
  (forall w s, sockets rt !! w = Some s -> ws rt <> Some w ->
               ws_listeners s = []) ->
  (forall w s l, ws rt = Some w -> sockets rt !! w = Some s ->
                 l ∈ ws_listeners s -> wsHandlers rt !! l.1 = Some l.2) ->
  isInitial (wsState rt) = false ->
  ListenersInv
    (openSocket u Actions.OPEN Actions.CLOSE Actions.HEARTBEAT
       (retireSocket rt)).
Proof.
  intros L1 L3 Hi.
  destruct (retireSocket_frame rt) as (R1 & R2 & R3 & _ & _ & R6).
  assert (Hquiet : forall w s', sockets (retireSocket rt) !! w = Some s' ->
                     ws_listeners s' = []).
  { intros w s' Hs'.
    destruct (retireSocket_sockets rt w s' Hs') as (s & Hs & _ & _ & _ & Hl).
    apply elem_of_nil_inv. intros l Hin. destruct (Hl l Hin) as [Hls Hm].
    destruct (decide (ws rt = Some w)) as [Hw|Hw].
    - apply (Hm Hw). eapply L3; eauto.
    - rewrite (L1 _ _ Hs Hw) in Hls. inversion Hls. }
  destruct (openSocket_spec u Actions.OPEN Actions.CLOSE Actions.HEARTBEAT
              (retireSocket rt))
    as (O1 & O2 & _ & _ & O5 & O6 & O7 & O8 & O9 & O10).
  apply cell_eq in O2 as (O2 & _). apply cell_eq in R2 as (R2 & _).
  set (rt' := openSocket u Actions.OPEN Actions.CLOSE Actions.HEARTBEAT
                (retireSocket rt)) in *.
  set (w' := length (sockets (retireSocket rt))) in *.
  split.
  - intros w s Hs Hne. rewrite O1 in Hne.
    assert (Hlt : w < w').
    { apply lookup_lt_Some in Hs. rewrite O5 in Hs.
      assert (w <> w') by congruence. lia. }
    rewrite (O6 w Hlt) in Hs. eauto.
  - intros w Hw. rewrite O1 in Hw. injection Hw as <-.
    eexists. split; [exact O7|]. rewrite O2, R2, Hi. reflexivity.
  - intros w s l Hw Hs Hl. rewrite O1 in Hw. injection Hw as <-.
    rewrite O7 in Hs. injection Hs as <-. simpl in Hl.
    repeat (apply elem_of_cons in Hl as [->|Hl]; [assumption|]).
    inversion Hl.
  - intros Hw. rewrite O1 in Hw. discriminate.
Qed.

Lemma transition_connect_enters n c rt :
  wsState rt = States.INITIAL c \/ wsState rt = States.RECONNECTING c ->
  transition config (S n) Actions.CONNECT rt
  = Some (openSocket (url c) Actions.OPEN Actions.CLOSE Actions.HEARTBEAT
            (retireSocket
               (nukeTimeout TimeoutKey.connect
                  (swap (fun _ => States.CONNECTING c) rt)))).
Proof.
  intros [Hs|Hs]; rewrite transition_S, Hs; reflexivity.
Qed.

Lemma ListenersInv_connect fuel rt rt' :
  ListenersInv rt -> transition config fuel Actions.CONNECT rt = Some rt' ->
  ListenersInv rt'.
Proof.
  intros HI H. destruct fuel as [|n]; [discriminate|].
  destruct (entersConnecting (wsState rt) Actions.CONNECT) eqn:He.
  - assert (Hc : exists c, wsState rt = States.INITIAL c
                           \/ wsState rt = States.RECONNECTING c).
    { destruct (wsState rt) as [c|c|c|c|c]; try discriminate; eauto. }
    destruct Hc as (c & Hc).
    rewrite (transition_connect_enters n c rt Hc) in H. injection H as <-.
    destruct (swap_spec (fun _ => States.CONNECTING c) rt)
      as (S1 & _ & _ & S4 & S5 & _ & _ & S8 & _).
    destruct (nukeTimeout_frame TimeoutKey.connect
                (swap (fun _ => States.CONNECTING c) rt))
      as (F1 & F2 & F3 & F4 & _).
    apply cell_eq in F2 as (F2 & _).
    destruct HI as [L1 L2 L3 L4].
    apply ListenersInv_connect_ws.
    + intros w s. rewrite F3, S4, F1, S1. apply L1.
    + intros w s l. rewrite F1, S1, F3, S4, F4, S5. apply L3.
    + rewrite F2, S8. reflexivity.
  - rewrite transition_S in H.
    assert (Hu : update Actions.CONNECT (wsState rt) = (wsState rt, [])).
    { destruct (wsState rt); try discriminate; reflexivity. }
    rewrite Hu in H. simpl in H. injection H as <-.
    apply ListenersInv_swap; auto.
Qed.

Lemma ListenersInv_transition fuel a rt rt' :
  ListenersInv rt -> transition config fuel a rt = Some rt' ->
  ListenersInv rt'.
Proof.
  destruct (decide (a = Actions.CONNECT)) as [->|Ha].
  - apply ListenersInv_connect.
  - apply ListenersInv_other. exact Ha.
Qed.

Lemma ListenersInv_disconnect rt :
  ListenersInv rt -> ListenersInv (disconnect rt).
Proof.
  intros [L1 L2 L3 L4]. unfold disconnect. simpl.
  destruct (ws rt) as [w|] eqn:Hw.
  - set (rt1 := set_observed false rt).
    destruct (removeEventListeners_spec w rt1)
      as (R1 & R2 & _ & _ & R5 & R6 & _).
    destruct (removeEventListeners_sockets w rt1) as [RS1 RS2].
    destruct (clearTimeouts_spec (removeEventListeners w rt1))
      as (C1 & C2 & C3 & C4 & _).
    set (rt3 := clearTimeouts (removeEventListeners w rt1)) in *.
    destruct (swap_spec
                (fun currState =>
                   States.INITIAL
                     (with_reconnectAttempt (context currState) 0)) rt3)
      as (S1 & _ & _ & S4 & S5 & _ & _ & S8 & _).
    set (rt4 := swap _ rt3) in *.
    assert (Hws : ws rt4 = Some w) by (rewrite S1, C1, R1; exact Hw).
    assert (Hsock : sockets rt1 = sockets rt) by reflexivity.
    assert (Hhand : wsHandlers rt1 = wsHandlers rt) by reflexivity.
    assert (Hquiet : forall w0 s', sockets rt4 !! w0 = Some s' ->
                       ws_listeners s' = []).
    { intros w0 s' Hs'. rewrite S4, C3 in Hs'.
      destruct (decide (w0 = w)) as [->|Hne].
      - destruct (RS2 s' Hs') as (s & Hs & _ & _ & _ & Hl).
        apply elem_of_nil_inv. intros l Hin. destruct (Hl l Hin) as [Hls Hm].
        apply Hm. apply (L3 w s l eq_refl Hs Hls).
      - rewrite RS1 in Hs' by exact Hne. apply (L1 w0 s' Hs'). congruence. }
    clearbody rt4.
    split; simpl.
    + intros w0 s Hs _. rewrite list_lookup_alter in Hs.
      case_decide.
      * subst w0.
        destruct (sockets rt4 !! w) as [s0|] eqn:E0; [|discriminate Hs].
        injection Hs as <-. simpl. eauto.
      * eauto.
    + intros w0 Hw0. rewrite Hws in Hw0. injection Hw0 as <-.
      destruct (L2 w eq_refl) as (s & Hs & _).
      destruct (lookup_lt_is_Some_2 (sockets rt4) w) as (s4 & Hs4).
      { rewrite S4, C3, R6. eapply lookup_lt_Some. exact Hs. }
      exists (closed s4). split.
      * rewrite list_lookup_alter_eq, Hs4. reflexivity.
      * rewrite S8. simpl. eauto.
    + intros w0 s l _ Hs Hl. rewrite list_lookup_alter in Hs.
      case_decide.
      * subst w0.
        destruct (sockets rt4 !! w) as [s0|] eqn:E0; [|discriminate Hs].
        injection Hs as <-. simpl in Hl. rewrite (Hquiet _ _ E0) in Hl.
        inversion Hl.
      * rewrite (Hquiet _ _ Hs) in Hl. inversion Hl.
    + rewrite Hws. discriminate.
  - split; simpl; rewrite ?Hw; auto.
Qed.

Lemma ListenersInv_reachable rand rt :
  reachable config rand rt -> ListenersInv rt.
Proof.
  apply (reachable_preserves config ListenersInv).
  - intros fuel a rt0 rt'. apply ListenersInv_transition.
  - apply ListenersInv_disconnect.
  - intros rt0 t [L1 L2 L3 L4]. split; auto.
  - intros rt0 m [L1 L2 L3 L4]. split; auto.
  - split; simpl; try discriminate; auto.
Qed.

End Listeners.

(** X8: in every state that a machine can be in, only the current socket
    has listeners: none while the machine is INITIAL, and otherwise exactly
    the three that its CONNECT_WS attached, one for each of [open], [close]
    and [message]; an event on any other socket, such as one that was
    replaced by a reconnect, changes nothing. *)
Theorem listeners_on_current_socket_only
    (config : Config) (rand : Q) (rt : Runtime) :
  reachable config rand rt ->
  (forall w s,
      sockets rt !! w = Some s -> ws rt <> Some w -> ws_listeners s = [])
  /\ (forall w,
        ws rt = Some w ->
        exists s,
          sockets rt !! w = Some s
          /\ ws_listeners s
             = if isInitial (wsState rt) then [] else connListeners w)
  /\ (forall w fuel type data,
        ws rt <> Some w ->
        step config fuel (socket_event w type data) rt = Some rt).
Proof.
  intros Hr. destruct (ListenersInv_reachable _ _ _ Hr) as [L1 L2 L3 L4].
  split; [exact L1|]. split; [exact L2|].
  intros w fuel type data Hne. simpl. unfold dispatchEvent.
  destruct (sockets rt !! w) as [s|] eqn:Es; [|reflexivity].
  unfold listenersFor. rewrite (L1 w s Es Hne). reflexivity.
Qed.

Lemma listeners_on_current_socket_only_witness :
  reachable testConfig 0 (openMachine testConfig)
  /\ exists s,
       sockets (openMachine testConfig) !! 0%nat = Some s
       /\ ws_listeners s = connListeners 0.
Proof.
  assert (Hr : reachable testConfig 0 (openMachine testConfig)).
  { apply (run_reachable testConfig 0 2
             [call_connect; socket_event 0 WsMessageKeys.open ""]
             (wsMachine testConfig 0)).
    - apply reachable_init.
    - vm_compute. reflexivity. }
  split; [exact Hr|].
  apply (proj1 (proj2 (listeners_on_current_socket_only
                         testConfig 0 (openMachine testConfig) Hr)) 0%nat).
  vm_compute. reflexivity.
Defined.

(** ** After [disconnect()] *)







Lemma disconnect_no_timer config rand rt t tm :
  reachable config rand rt ->
  timers (disconnect rt) !! t = Some tm -> timer_live tm = false.
Proof.
  intros Hr Ht.
  assert (Hr' : reachable config rand (disconnect rt)).
  { apply (reachable_step config rand rt 0 call_disconnect); [exact Hr|].
    reflexivity. }
  pose proof (reachable_Inv _ _ _ Hr') as [_ _ (x & Ha & [Hlive _]) _].
  pose proof (reachable_Inv _ _ _ Hr) as [_ _ (x0 & Ha0 & [_ Hini]) _].
  assert (Hi : exists c, wsState (disconnect rt) = States.INITIAL c).
  { destruct (disconnect_cell rt) as (_ & _ & _ & D4 & _). rewrite D4.
    destruct (ws rt) eqn:Hw; [eauto|].
    destruct Hini as (c0 & Hc0 & _).
    - rewrite (abs_ws _ _ Ha0), Hw. reflexivity.
    - rewrite (abs_state _ _ Ha0) in Hc0. eauto. }
  destruct Hi as (c & Hc).
  rewrite (abs_state _ _ Ha), Hc in Hlive.
  destruct (timer_live tm) eqn:El; [|reflexivity].
  assert (Hk : isLive (a_live x) (timer_key tm) = true).
  { apply (abs_live _ _ Ha). exists t, tm. auto. }
  rewrite Hlive in Hk. destruct (timer_key tm); discriminate.
Qed.




(** ** What the sockets are opened to and what is written to them *)

Section Content.

Variable config : Config.

Lemma disconnect_sockets rt w s' :
  sockets (disconnect rt) !! w = Some s' ->
  exists s,
    sockets rt !! w = Some s
    /\ ws_url s' = ws_url s /\ ws_sent s' = ws_sent s.
Proof.
  unfold disconnect. simpl. destruct (ws rt) as [w0|] eqn:Hw.
  - set (rt1 := set_observed false rt).
    destruct (removeEventListeners_sockets w0 rt1) as [RS1 RS2].
    destruct (clearTimeouts_spec (removeEventListeners w0 rt1))
      as (_ & _ & C3 & _).
    destruct (swap_spec
                (fun currState =>
                   States.INITIAL
                     (with_reconnectAttempt (context currState) 0))
                (clearTimeouts (removeEventListeners w0 rt1)))
      as (_ & _ & _ & S4 & _).
    simpl. rewrite S4, C3. intros H. rewrite list_lookup_alter in H.
    case_decide as Hd.
    + subst w.
      destruct (sockets (removeEventListeners w0 rt1) !! w0) as [s1|] eqn:E1;
        [|discriminate H].
      injection H as <-.
      destruct (RS2 s1 eq_refl) as (s & Hs & Hu & _ & Hse & _).
      exists s. simpl. auto.
    + rewrite RS1 in H by auto. exists s'. auto.
  - simpl. intros H. exists s'. auto.
Qed.

Lemma content_effect tr e rt rt' :
  url (context (wsState rt)) = cfg_url config /\ socketsContent config rt ->
  connectOk config e -> isTrigger e = false ->
  handleEffect config tr e rt = Some rt' ->
  url (context (wsState rt')) = cfg_url config /\ socketsContent config rt'.
Proof.
  intros [Hu Hc] He Ht H.
  destruct (handleEffect_cell config tr e rt Ht) as (rt1 & H1 & C1).
  rewrite H in H1. injection H1 as <-.
  apply cell_eq in C1 as (C1 & _).
  split; [rewrite C1; exact Hu|].
  destruct (isConnectWs e) eqn:Hcw.
  - destruct e; try discriminate. simpl in He. subst url0.
    rewrite handleEffect_connect_ws in H. injection H as <-.
    destruct (openSocket_spec (cfg_url config) onOpen onClose onPongMessage
                (retireSocket rt))
      as (_ & _ & _ & _ & O5 & O6 & O7 & _).
    intros w s Hs.
    destruct (decide (w < length (sockets (retireSocket rt)))) as [Hlt|Hge].
    + rewrite (O6 w Hlt) in Hs.
      destruct (retireSocket_sockets rt w s Hs) as (s0 & Hs0 & E1 & E2 & _).
      rewrite E1, E2. apply (Hc w s0 Hs0).
    + assert (w = length (sockets (retireSocket rt))).
      { apply lookup_lt_Some in Hs. rewrite O5 in Hs. lia. }
      subst w. rewrite O7 in Hs. injection Hs as <-. simpl.
      split; [reflexivity|]. intros d Hd. inversion Hd.
  - destruct (handleEffect_sockets _ _ _ _ _ Ht Hcw H) as (_ & _ & _ & Hs).
    intros w s' Hs'.
    destruct (Hs w s' Hs') as (s & Hss & _ & E1 & _ & E2).
    destruct (Hc w s Hss) as [Hurl Hsent].
    split; [congruence|].
    destruct E2 as [E2|(_ & _ & E2)]; rewrite E2; [exact Hsent|].
    intros d Hd. apply elem_of_app in Hd as [Hd|Hd]; [auto|].
    apply list_elem_of_singleton in Hd. exact Hd.
Qed.

Lemma content_update a rt :
  url (context (wsState rt)) = cfg_url config /\ socketsContent config rt ->
  (url (context (wsState (swap (fun _ => (update a (wsState rt)).1) rt)))
   = cfg_url config
   /\ socketsContent config (swap (fun _ => (update a (wsState rt)).1) rt))
  /\ Forall (connectOk config) (update a (wsState rt)).2.
Proof.
  intros [Hu Hc].
  destruct (swap_spec (fun _ => (update a (wsState rt)).1) rt)
    as (_ & _ & _ & S4 & _ & _ & _ & S8 & _).
  split; [split|].
  - rewrite S8. rewrite <- Hu.
    exact (f_equal url (update_context a (wsState rt))).
  - intros w s. rewrite S4. apply Hc.
  - destruct (wsState rt), a; simpl in *; repeat constructor; exact Hu.
Qed.

Lemma content_reachable rand rt :
  reachable config rand rt ->
  url (context (wsState rt)) = cfg_url config /\ socketsContent config rt.
Proof.
  apply (reachable_preserves config
           (fun rt => url (context (wsState rt)) = cfg_url config
                      /\ socketsContent config rt)).
  - intros fuel a rt0 rt' HI H.
    exact (transition_preserves config (fun _ => True)
             (fun rt => url (context (wsState rt)) = cfg_url config
                        /\ socketsContent config rt)
             (connectOk config) I I
             (fun a rt _ HI => content_update a rt HI)
             content_effect fuel a rt0 rt' I HI H).
  - intros rt0 [Hu Hc]. split.
    + destruct (disconnect_cell rt0) as (_ & _ & _ & D4 & _). rewrite D4.
      destruct (ws rt0); exact Hu.
    + intros w s' Hs'.
      destruct (disconnect_sockets rt0 w s' Hs') as (s & Hs & E1 & E2).
      rewrite E1, E2. apply (Hc w s Hs).
  - intros rt0 t H. exact H.
  - intros rt0 m H. exact H.
  - split; [reflexivity|]. intros w s H. simpl in H.
    rewrite lookup_nil in H. discriminate.
Qed.

End Content.

(** X10: every socket that a machine ever opens is opened to the
    configured url, and the only data the machine ever writes to a socket is
    the ping payload, [config.pingMsg] or ["ping"] when there is none. *)
Theorem sockets_content
    (config : Config) (rand : Q) (rt : Runtime) (w : nat) (s : WebSocket) :
  reachable config rand rt ->
  sockets rt !! w = Some s ->
  ws_url s = cfg_url config
  /\ forall d, d ∈ ws_sent s -> d = default "ping" (cfg_pingMsg config).
Proof.
  intros Hr Hs. exact (proj2 (content_reachable _ _ _ Hr) w s Hs).
Qed.

Lemma sockets_content_witness :
  exists rt s,
    reachable customConfig 0 rt
    /\ sockets rt !! 0%nat = Some s
    /\ ws_sent s = ["MyPing"]
    /\ ws_url s = "ws://localhost:2345".
Proof.
  assert (H : run customConfig 2
                [call_connect; socket_event 0 WsMessageKeys.open "";
                 timer_fires 0]
                (wsMachine customConfig 0)
              = Some (default (wsMachine customConfig 0)
                        (run customConfig 2
                           [call_connect;
                            socket_event 0 WsMessageKeys.open "";
                            timer_fires 0]
                           (wsMachine customConfig 0))))
    by (vm_compute; reflexivity).
  assert (Hr := run_reachable customConfig 0 2 _ _ _
                  (reachable_init customConfig 0) H).
  eexists. eexists. split; [exact Hr|].
  assert (Hs : sockets
                 (default (wsMachine customConfig 0)
                    (run customConfig 2
                       [call_connect;
                        socket_event 0 WsMessageKeys.open "";
                        timer_fires 0]
                       (wsMachine customConfig 0))) !! 0%nat
               = Some {| ws_url := "ws://localhost:2345";
                         ws_listeners := connListeners 0;
                         ws_closed := false;
                         ws_sent := ["MyPing"] |})
    by (vm_compute; reflexivity).
  split; [exact Hs|]. split; [reflexivity|].
  exact (proj1 (sockets_content customConfig 0 _ 0%nat _ Hr Hs)).
Defined.

(** ** The state after a transition *)

Section Settle.

Variable config : Config.

Lemma handleEffects_settle fuel effects :
  (forall a, Effects.TRIGGER_ACTION a ∈ effects -> triggerFree a) ->
  forall rt rt',
    handleEffects (handleEffect config (transition config fuel)) effects rt
    = Some rt' ->
    wsState rt'
    = foldl
        (fun s e =>
           match e with
           | Effects.TRIGGER_ACTION a' => (update a' s).1
           | _ => s
           end)
        (wsState rt) effects.
Proof.
  induction effects as [|e effects IH]; intros Htf rt rt' H.
  - injection H as <-. reflexivity.
  - rewrite handleEffects_cons in H.
    destruct (handleEffect config (transition config fuel) e rt)
      as [rt1|] eqn:E1; [|discriminate].
    simpl in H.
    rewrite (IH (fun a Ha => Htf a (list_elem_of_further _ _ _ Ha)) rt1 rt' H).
    simpl. f_equal.
    destruct (isTrigger e) eqn:Ht.
    + destruct e; try discriminate. simpl in E1.
      destruct fuel as [|n]; [discriminate|].
      destruct (transition_triggerFree_cell config n action rt)
        as (rt2 & E2 & S2 & _).
      { apply Htf. left. }
      congruence.
    + destruct (handleEffect_cell config (transition config fuel) e rt Ht)
        as (rt2 & E2 & C2).
      rewrite E1 in E2. injection E2 as <-.
      apply cell_eq in C2 as (-> & _). destruct e; try discriminate;
        reflexivity.
Qed.

(** The state in which [transition] leaves the machine depends on the
    action and on the state before only, through [update]. *)
Lemma transition_settle fuel a rt rt' :
  transition config fuel a rt = Some rt' ->
  wsState rt' = settle a (wsState rt).
Proof.
  intros H. destruct fuel as [|n]; [discriminate|].
  rewrite transition_S in H.
  apply handleEffects_settle in H.
  - rewrite H. unfold settle.
    destruct (swap_spec (fun _ => (update a (wsState rt)).1) rt)
      as (_ & _ & _ & _ & _ & _ & _ & S8 & _).
    rewrite S8. reflexivity.
  - intros a' Ha'. apply update_triggers in Ha' as [->| ->].
    + apply triggerFree_CLOSE.
    + apply triggerFree_RECONNECT.
Qed.

Lemma settle_not_closed a s :
  a <> Actions.CLOSE -> isClosed s = false -> isClosed (settle a s) = false.
Proof.
  intros Ha Hs.
  destruct s, a; try reflexivity; try discriminate Hs; congruence.
Qed.

Lemma settle_close_reconnect s :
  isClosed s = false ->
  isClosed (settle Actions.RECONNECT (settle Actions.CLOSE s)) = false.
Proof. intros Hs. destruct s; try reflexivity; discriminate. Qed.

Lemma not_closed_runHandlers fuel hs data :
  Forall handlerOk hs ->
  forall rt rt',
    isClosed (wsState rt) = false ->
    runHandlers config fuel hs data rt = Some rt' ->
    isClosed (wsState rt') = false.
Proof.
  induction 1 as [|h hs Hh Hhs IH]; intros rt rt' HI H; simpl in H.
  - injection H as <-. exact HI.
  - destruct (runHandler config fuel h data rt) as [rt1|] eqn:E1;
      [|discriminate].
    simpl in H. eapply IH; [|exact H].
    unfold runHandler in E1. destruct Hh as [E|[E|E]]; rewrite E in E1.
    + rewrite (transition_settle _ _ _ _ E1).
      apply settle_not_closed; [discriminate|exact HI].
    + destruct (transition config fuel Actions.CLOSE rt) as [rt0|] eqn:E0;
        [|discriminate].
      simpl in E1.
      rewrite (transition_settle _ _ _ _ E1), (transition_settle _ _ _ _ E0).
      apply settle_close_reconnect. exact HI.
    + rewrite (transition_settle _ _ _ _ E1).
      apply settle_not_closed; [discriminate|].
      destruct (negb (String.eqb data "pong")); exact HI.
Qed.

Lemma not_closed_reachable rand rt :
  reachable config rand rt -> isClosed (wsState rt) = false.
Proof.
  induction 1 as [|rt fuel e rt' Hr IH Hstep]; [reflexivity|].
  pose proof (reachable_Inv _ _ _ Hr) as [Ht Hs _ _].
  destruct e; simpl in Hstep.
  - rewrite (transition_settle _ _ _ _ Hstep).
    apply settle_not_closed; [discriminate|exact IH].
  - injection Hstep as <-. exact IH.
  - injection Hstep as <-.
    destruct (disconnect_cell rt) as (_ & _ & _ & D4 & _). rewrite D4.
    destruct (ws rt); [reflexivity|exact IH].
  - unfold fireTimer in Hstep.
    destruct (timers rt !! t) as [tm|] eqn:Et; [|congruence].
    destruct (timer_live tm); [|congruence].
    rewrite (transition_settle _ _ _ _ Hstep).
    apply settle_not_closed; [|exact IH].
    rewrite (ok_action _ Ht _ _ Et). destruct (timer_key tm); discriminate.
  - unfold dispatchEvent in Hstep.
    destruct (sockets rt !! w) as [s|] eqn:Es; [|congruence].
    eapply not_closed_runHandlers; [|exact IH|exact Hstep].
    apply listenersFor_ok. intros l Hl.
    eapply (ok_listeners _ Hs); eauto.
Qed.

End Settle.

(** X11: the state in which a transition leaves the machine is a
    function of the action and of the state before: effects other than
    TRIGGER_ACTION never touch the state, and each triggered action applies
    [update] to the state reached so far; the sockets, the timers and the
    configuration have no influence on it. *)
Theorem state_after_transition
    (config : Config) (fuel : nat) (a : Action) (rt rt' : Runtime) :
  transition config fuel a rt = Some rt' ->
  wsState rt' = settle a (wsState rt)
  /\ (a <> Actions.PONG_TIMEOUT -> wsState rt' = (update a (wsState rt)).1).
Proof.
  intros H. split; [eapply transition_settle; exact H|].
  intros Ha. rewrite (transition_settle _ _ _ _ _ H).
  destruct (wsState rt), a; try reflexivity; congruence.
Qed.

Lemma state_after_transition_witness :
  exists rt',
    transition testConfig 2 Actions.PONG_TIMEOUT (openMachine testConfig)
    = Some rt'
    /\ wsState rt'
       = settle Actions.PONG_TIMEOUT (wsState (openMachine testConfig)).
Proof.
  assert (H : transition testConfig 2 Actions.PONG_TIMEOUT
                (openMachine testConfig)
              = Some (default (openMachine testConfig)
                        (transition testConfig 2 Actions.PONG_TIMEOUT
                           (openMachine testConfig))))
    by (vm_compute; reflexivity).
  eexists. split; [exact H|].
  exact (proj1 (state_after_transition testConfig 2 Actions.PONG_TIMEOUT
                  _ _ H)).
Defined.

(** X12: CLOSED is only passed through: between two events a machine is
    never in state CLOSED, since the close listener and the pong timeout
    both follow CLOSE with RECONNECT at once. *)
Theorem never_left_closed (config : Config) (rand : Q) (rt : Runtime) :
  reachable config rand rt -> isClosed (wsState rt) = false.
Proof. apply not_closed_reachable. Qed.

Lemma never_left_closed_witness :
  exists rt,
    reachable testConfig 0 rt
    /\ isReconnecting (wsState rt) = true
    /\ isClosed (wsState rt) = false.
Proof.
  assert (H : run testConfig 2
                [call_connect; socket_event 0 WsMessageKeys.open "";
                 socket_event 0 WsMessageKeys.close ""]
                (wsMachine testConfig 0)
              = Some (default (wsMachine testConfig 0)
                        (run testConfig 2
                           [call_connect;
                            socket_event 0 WsMessageKeys.open "";
                            socket_event 0 WsMessageKeys.close ""]
                           (wsMachine testConfig 0))))
    by (vm_compute; reflexivity).
  assert (Hr := run_reachable testConfig 0 2 _ _ _
                  (reachable_init testConfig 0) H).
  eexists. split; [exact Hr|]. split; [vm_compute; reflexivity|].
  exact (never_left_closed testConfig 0 _ Hr).
Defined.

(** ** The pending timers, exactly *)

Section Exact.

Variable config : Config.

Lemma absEffectsX_absEffects trX tr effects :
  (forall a x x', trX a x = Some x' -> tr a x = Some x') ->
  forall x x',
    absEffects (absEffectX trX) effects x = Some x' ->
    absEffects (absEffect tr) effects x = Some x'.
Proof.
  intros Htr. induction effects as [|e effects IH]; intros x x' H.
  - exact H.
  - simpl in *.
    destruct (absEffectX trX e x) as [x1|] eqn:E1; [|discriminate].
    assert (E2 : absEffect tr e x = Some x1).
    { destruct e; try exact E1.
      - simpl in E1. destruct (noneLive (a_live x)); [exact E1|discriminate].
      - simpl in *. auto. }
    rewrite E2. simpl in *. auto.
Qed.

Lemma absTransitionX_absTransition fuel :
  forall a x x',
    absTransitionX fuel a x = Some x' -> absTransition fuel a x = Some x'.
Proof.
  induction fuel as [|fuel IH]; intros a x x' H; [discriminate|].
  simpl in *. destruct (update a (a_state x)) as [s effects].
  eapply absEffectsX_absEffects; eauto.
Qed.

Lemma Low_effect tr atr e rt rt' x x' :
  Sim rt x -> Low rt x -> isTrigger e = false ->
  absEffectX atr e x = Some x' ->
  handleEffect config tr e rt = Some rt' ->
  Low rt' x'.
Proof.
  intros ([Htr Hk Ha] & _ & HA) HL Ht He H.
  destruct e; try discriminate.
  - simpl in He. destruct (noneLive (a_live x)) eqn:En; [|discriminate].
    case_bool_decide; [|discriminate]. injection He as <-.
    intros k Hk'. simpl in Hk'. unfold noneLive in En.
    destruct (a_live x) as [[] [] []], k; discriminate.
  - simpl in He.
    destruct (isLive (a_live x) key) eqn:El; [discriminate|].
    case_bool_decide; [|discriminate]. injection He as <-.
    destruct (handleEffect_schedule _ _ _ _ _ _ _ H) as (T1 & _).
    intros k Hk'. simpl in Hk'. rewrite isLive_setLive in Hk'.
    case_decide as Hd.
    + subst k. exists (length (timers rt)). eexists. rewrite T1.
      split; [apply list_lookup_middle; reflexivity|]. split; reflexivity.
    + destruct (HL k Hk') as (t & tm & Ht' & Hl & Hkey).
      exists t, tm. rewrite T1.
      split; [apply lookup_app_l_Some; exact Ht'|auto].
  - simpl in He. injection He as <-. simpl in H.
    intros k Hk'. destruct (HL k Hk') as (t & tm & Ht' & Hl & Hkey).
    exists t, tm. destruct (ws rt); injection H as <-; auto.
  - simpl in He. injection He as <-. injection H as <-.
    intros k Hk'. simpl in Hk'. rewrite isLive_setLive in Hk'.
    case_decide as Hd; [discriminate|].
    destruct (HL k Hk') as (t & tm & Ht' & Hl & Hkey).
    exists t, tm. split; [|auto].
    unfold nukeTimeout. destruct (timeouts rt !! key) as [t0|] eqn:E0;
      [|exact Ht'].
    simpl. rewrite list_lookup_alter_ne; [exact Ht'|].
    intros <-. destruct (Hk _ _ E0) as (tm0 & Htm0 & Hkey0).
    rewrite Ht' in Htm0. injection Htm0 as <-. congruence.
Qed.

Lemma SimX_effects fuel effects :
  (forall a rt x x',
      Sim rt x -> Low rt x -> absTransitionX fuel a x = Some x' ->
      exists rt',
        transition config fuel a rt = Some rt' /\ Sim rt' x' /\ Low rt' x') ->
  forall rt x x',
    Sim rt x -> Low rt x ->
    absEffects (absEffectX (absTransitionX fuel)) effects x = Some x' ->
    exists rt',
      handleEffects (handleEffect config (transition config fuel)) effects rt
      = Some rt'
      /\ Sim rt' x' /\ Low rt' x'.
Proof.
  intros IH. induction effects as [|e effects IHe]; intros rt x x' HS HL H.
  - injection H as <-. exists rt. auto.
  - simpl in H.
    destruct (absEffectX (absTransitionX fuel) e x) as [x1|] eqn:E1;
      [|discriminate].
    simpl in H.
    assert (H1 : exists rt1,
               handleEffect config (transition config fuel) e rt = Some rt1
               /\ Sim rt1 x1 /\ Low rt1 x1).
    { destruct (isTrigger e) eqn:Ht.
      - destruct e; try discriminate. simpl in E1. simpl. eauto.
      - assert (E2 : absEffect (absTransition fuel) e x = Some x1).
        { destruct e; try exact E1; try discriminate.
          simpl in E1. destruct (noneLive (a_live x)); [exact E1|discriminate]. }
        destruct (Sim_effect config (transition config fuel)
                    (absTransition fuel) e rt x x1
                    (Sim_transition config fuel) HS E2) as (rt1 & R1 & S1).
        exists rt1. split; [exact R1|]. split; [exact S1|].
        exact (Low_effect (transition config fuel) (absTransitionX fuel)
                 e rt rt1 x x1 HS HL Ht E1 R1). }
    destruct H1 as (rt1 & R1 & S1 & L1).
    destruct (IHe rt1 x1 x' S1 L1 H) as (rt' & R' & S' & L').
    exists rt'. rewrite handleEffects_cons, R1. auto.
Qed.

Lemma SimX_transition fuel :
  forall a rt x x',
    Sim rt x -> Low rt x -> absTransitionX fuel a x = Some x' ->
    exists rt',
      transition config fuel a rt = Some rt' /\ Sim rt' x' /\ Low rt' x'.
Proof.
  induction fuel as [|fuel IH]; intros a rt x x' HS HL Ha; [discriminate|].
  simpl in Ha. rewrite transition_S.
  assert (As : a_state x = wsState rt) by apply HS.
  rewrite As in Ha.
  destruct (update a (wsState rt)) as [newState effects]. simpl.
  eapply SimX_effects; [exact IH| | |exact Ha].
  - apply Sim_swap. exact HS.
  - intros k Hk. destruct (HL k Hk) as (t & tm & Ht & Hrest).
    destruct (swap_spec (fun _ => newState) rt) as (_ & S2 & _).
    exists t, tm. rewrite S2. auto.
Qed.

Lemma absTransitionX_external n a x :
  exactShape x -> a <> Actions.PING_TIMEOUT ->
  exists x', absTransitionX (S (S n)) a x = Some x' /\ exactShape x'.
Proof.
  destruct x as [s L w]. unfold exactShape. simpl. intros Hl Ha.
  destruct s, a; simpl in *; try congruence;
    try (destruct Hl as [Hl|Hl]); subst L;
    eexists; (split; [reflexivity|]); simpl; auto.
Qed.

Lemma absTransitionX_fire n k x :
  exactShape x -> isLive (a_live x) k = true ->
  exists x',
    absTransitionX (S (S n)) (timeoutAction k)
      (mkAbstract (a_state x) (setLive k false (a_live x)) (a_ws x))
    = Some x'
    /\ exactShape x'.
Proof.
  destruct x as [s L w]. unfold exactShape. simpl. intros Hl Hk.
  destruct s, k; simpl in *;
    try (destruct Hl as [Hl|Hl]); subst L; try discriminate;
    eexists; (split; [reflexivity|]); simpl; auto.
Qed.

Lemma InvX_transition fuel a rt rt' :
  InvX rt -> a <> Actions.PING_TIMEOUT ->
  transition config fuel a rt = Some rt' -> InvX rt'.
Proof.
  intros (x & HS & HL & Hsh) Hne H.
  destruct (absTransitionX_external fuel a x Hsh Hne) as (x' & Hx' & Hsh').
  destruct (SimX_transition _ a rt x x' HS HL Hx') as (rt'' & Hrt'' & HS' & HL').
  assert (E : rt'' = rt').
  { apply (transition_fuel config fuel (S (S fuel))) in H; [congruence|lia]. }
  subst rt''. exists x'. auto.
Qed.

Lemma InvX_fireTimer fuel t rt rt' :
  InvX rt -> fireTimer config fuel t rt = Some rt' -> InvX rt'.
Proof.
  intros HI H. unfold fireTimer in H.
  destruct (timers rt !! t) as [tm|] eqn:Et; [|congruence].
  destruct (timer_live tm) eqn:El; [|congruence].
  destruct HI as (x & HS & HL & Hsh).
  pose proof HS as (Ht & Hs & Ha).
  rewrite (fire_is_nukeTimeout _ _ _ Ht Et El) in H.
  rewrite (ok_action _ Ht _ _ Et) in H.
  assert (Hk : isLive (a_live x) (timer_key tm) = true).
  { apply (abs_live _ _ Ha). exists t, tm. auto. }
  destruct (absTransitionX_fire fuel _ x Hsh Hk) as (x' & Hx' & Hsh').
  pose proof (Sim_clear (timer_key tm) rt x HS) as HS0.
  assert (HL0 : Low (nukeTimeout (timer_key tm) rt)
                  (mkAbstract (a_state x)
                     (setLive (timer_key tm) false (a_live x)) (a_ws x))).
  { apply (Low_effect (transition config 0) (absTransitionX 0)
             (Effects.CLEAR_TIMEOUT (timer_key tm)) rt _ x _ HS HL);
      reflexivity. }
  destruct (SimX_transition _ _ _ _ x' HS0 HL0 Hx') as (rt'' & Hrt'' & HS' & HL').
  assert (E : rt'' = rt').
  { apply (transition_fuel config fuel (S (S fuel))) in H; [congruence|lia]. }
  subst rt''. exists x'. auto.
Qed.

Lemma InvX_frame rt rt' :
  ws rt' = ws rt -> wsState rt' = wsState rt ->
  timers rt' = timers rt -> timeouts rt' = timeouts rt ->
  sockets rt' = sockets rt ->
  InvX rt -> InvX rt'.
Proof.
  intros E1 E2 E3 E4 E5 (x & (Ht & [Hl Hw] & Ha) & HL & Hsh).
  exists x. split; [split; [|split]|split].
  - eapply TimersOk_stoppedSome; eauto. rewrite E3. apply stoppedSome_refl.
  - split; rewrite E5; [exact Hl|]. rewrite E1. exact Hw.
  - eapply Abs_frame; eauto. rewrite E3. apply stoppedSome_refl.
  - intros k Hk. destruct (HL k Hk) as (t & tm & Hrest).
    exists t, tm. rewrite E3. exact Hrest.
  - exact Hsh.
Qed.

Lemma InvX_runHandlers fuel hs data :
  Forall handlerOk hs ->
  forall rt rt',
    InvX rt -> runHandlers config fuel hs data rt = Some rt' -> InvX rt'.
Proof.
  induction 1 as [|h hs Hh Hhs IH]; intros rt rt' HI H; simpl in H.
  - injection H as <-. exact HI.
  - destruct (runHandler config fuel h data rt) as [rt1|] eqn:E1;
      [|discriminate].
    simpl in H. eapply IH; [|exact H].
    unfold runHandler in E1. destruct Hh as [E|[E|E]]; rewrite E in E1.
    + apply (InvX_transition fuel Actions.OPEN rt rt1);
        [exact HI|discriminate|exact E1].
    + destruct (transition config fuel Actions.CLOSE rt) as [rt0|] eqn:E0;
        [|discriminate].
      simpl in E1.
      apply (InvX_transition fuel Actions.RECONNECT rt0 rt1);
        [|discriminate|exact E1].
      apply (InvX_transition fuel Actions.CLOSE rt rt0);
        [exact HI|discriminate|exact E0].
    + eapply InvX_transition; [| |exact E1]; [|discriminate].
      destruct (negb (String.eqb data "pong")); [|exact HI].
      eapply InvX_frame; [..|exact HI]; reflexivity.
Qed.

Lemma InvX_reachable rand rt : reachable config rand rt -> InvX rt.
Proof.
  induction 1 as [|rt fuel e rt' Hr IH Hstep].
  - exists (mkAbstract (States.INITIAL (initialContext config rand))
              (mkLive false false false) false).
    destruct (Inv_wsMachine config rand) as [Ht Hs _ _].
    split; [split; [exact Ht|split; [exact Hs|]]|split].
    + split; simpl; [reflexivity| |reflexivity].
      intros k (t & tm & H & _). simpl in H.
      rewrite lookup_nil in H. discriminate.
    + intros k Hk. destruct k; discriminate.
    + reflexivity.
  - destruct e; simpl in Hstep.
    + eapply InvX_transition; [exact IH| |exact Hstep]. discriminate.
    + injection Hstep as <-. exact IH.
    + injection Hstep as <-.
      assert (Hr' : reachable config rand (disconnect rt)).
      { apply (reachable_step config rand rt 0 call_disconnect);
          [exact Hr|reflexivity]. }
      pose proof (reachable_Inv _ _ _ Hr') as [Ht Hs (x & Ha & _) _].
      assert (Hi : exists c, wsState (disconnect rt) = States.INITIAL c).
      { destruct (disconnect_cell rt) as (_ & _ & _ & D4 & _).
        destruct (ListenersInv_reachable _ _ _ Hr) as [_ _ _ K4].
        rewrite D4. destruct (ws rt); [eauto|].
        specialize (K4 eq_refl).
        destruct (wsState rt); try discriminate; eauto. }
      destruct Hi as (c & Hc).
      exists (mkAbstract (States.INITIAL c) (mkLive false false false)
                (a_ws x)).
      split; [split; [exact Ht|split; [exact Hs|]]|split].
      * split; simpl; [symmetry; exact Hc| |apply Ha].
        intros k (t & tm & Htm & Hl & _).
        rewrite (disconnect_no_timer _ _ _ _ _ Hr Htm) in Hl. discriminate.
      * intros k Hk. destruct k; discriminate.
      * reflexivity.
    + eapply InvX_fireTimer; eauto.
    + unfold dispatchEvent in Hstep.
      destruct (sockets rt !! w) as [s|] eqn:Es.
      * eapply InvX_runHandlers; [|exact IH|exact Hstep].
        apply listenersFor_ok. intros l Hl.
        destruct IH as (x & (_ & Hs & _) & _).
        eapply (ok_listeners _ Hs); eauto.
      * injection Hstep as <-. exact IH.
Qed.

End Exact.

Lemma stoppedSome_length ts ts' :
  stoppedSome ts ts' -> length ts' = length ts.
Proof.
  intros H.
  destruct (Nat.lt_trichotomy (length ts') (length ts)) as [L|[E|L]];
    [|exact E|]; exfalso.
  - destruct (lookup_lt_is_Some_2 ts _ L) as (tm & Htm).
    pose proof (lookup_ge_None_2 ts' (length ts') (Nat.le_refl _)) as Hn.
    destruct (H (length ts')) as [E|E]; rewrite Hn, Htm in E; discriminate.
  - destruct (lookup_lt_is_Some_2 ts' _ L) as (tm & Htm).
    pose proof (lookup_ge_None_2 ts (length ts) (Nat.le_refl _)) as Hn.
    destruct (H (length ts)) as [E|E]; rewrite Hn, Htm in E; discriminate.
Qed.

Lemma InvX_pending rt :
  InvX rt ->
  match wsState rt with
  | States.OPEN _ =>
      pendingExactly rt [TimeoutKey.ping]
      \/ pendingExactly rt [TimeoutKey.pong]
  | States.RECONNECTING _ => pendingExactly rt [TimeoutKey.connect]
  | _ => pendingExactly rt []
  end.
Proof.
  intros (x & (_ & _ & [As Al _]) & HL & Hsh).
  unfold exactShape in Hsh. rewrite As in Hsh.
  assert (K : forall ks,
             (forall k, isLive (a_live x) k = true <-> k ∈ ks) ->
             pendingExactly rt ks).
  { intros ks Hks k. rewrite <- Hks. split; [apply Al|apply HL]. }
  destruct (wsState rt); try destruct Hsh as [Hsh|Hsh];
    [| | left | right | |]; apply K; rewrite Hsh;
    intros []; simpl; split; intros Hk; try discriminate Hk;
    try reflexivity; try (apply elem_of_nil in Hk; contradiction);
    try (apply list_elem_of_singleton in Hk; discriminate Hk);
    apply list_elem_of_singleton; reflexivity.
Qed.

(** X13: which timers are pending is determined by the state.  While the
    machine is OPEN exactly one heartbeat timer is pending, either the ping
    timer or the pong timer; while it is RECONNECTING exactly the connect
    timer is pending; in every other state no timer is pending. *)
Theorem pending_timers_by_state
    (config : Config) (rand : Q) (rt : Runtime) :
  reachable config rand rt ->
  match wsState rt with
  | States.OPEN _ =>
      pendingExactly rt [TimeoutKey.ping]
      \/ pendingExactly rt [TimeoutKey.pong]
  | States.RECONNECTING _ => pendingExactly rt [TimeoutKey.connect]
  | _ => pendingExactly rt []
  end.
Proof.
  intros Hr. apply InvX_pending. exact (InvX_reachable config rand rt Hr).
Qed.

Lemma pending_timers_by_state_witness :
  reachable testConfig 0 (openMachine testConfig)
  /\ (pendingExactly (openMachine testConfig) [TimeoutKey.ping]
      \/ pendingExactly (openMachine testConfig) [TimeoutKey.pong]).
Proof.
  split; [exact openMachine_reachable|].
  exact (pending_timers_by_state testConfig 0 (openMachine testConfig)
           openMachine_reachable).
Defined.

(** ** What each event does *)

Lemma sameFrame_refl rt : sameFrame rt rt.
Proof. repeat split. Qed.

Lemma sameFrame_trans rt1 rt2 rt3 :
  sameFrame rt1 rt2 -> sameFrame rt2 rt3 -> sameFrame rt1 rt3.
Proof.
  intros (A1 & A2 & A3 & A4) (B1 & B2 & B3 & B4).
  repeat split; congruence.
Qed.

Lemma sameFrame_nukeTimeout k rt : sameFrame rt (nukeTimeout k rt).
Proof.
  destruct (nukeTimeout_frame k rt) as (N1 & N2 & N3 & _ & _ & N6).
  apply cell_eq in N2 as (_ & _ & N2 & _).
  repeat split; auto. apply stoppedSome_length. exact N6.
Qed.

Lemma sameFrame_swap f rt : sameFrame rt (swap f rt).
Proof.
  destruct (swap_spec f rt) as (S1 & S2 & _ & S4 & _ & _ & S7 & _).
  repeat split; auto. rewrite S2. reflexivity.
Qed.

Lemma sameFrame_stop t rt :
  sameFrame rt (set_timers (alter stopped t (timers rt)) rt).
Proof. repeat split. simpl. apply length_alter. Qed.

Lemma nukeTimeout_wsState k rt : wsState (nukeTimeout k rt) = wsState rt.
Proof.
  destruct (nukeTimeout_frame k rt) as (_ & N2 & _).
  apply cell_eq in N2 as (N2 & _). exact N2.
Qed.

Lemma swap_wsState f rt : wsState (swap f rt) = f (wsState rt).
Proof. apply swap_spec. Qed.

Lemma listenersFor_conn w s type :
  ws_listeners s = connListeners w ->
  listenersFor type s
  = match type with
    | WsMessageKeys.open => [mkHandler w (OnOpen Actions.OPEN)]
    | WsMessageKeys.close => [mkHandler w (OnClose Actions.CLOSE)]
    | WsMessageKeys.message => [mkHandler w (OnMessage Actions.HEARTBEAT)]
    | WsMessageKeys.error => []
    end.
Proof.
  intros E. unfold listenersFor. rewrite E. destruct type; reflexivity.
Qed.

Lemma runHandlers_one config fuel h data rt :
  runHandlers config fuel [h] data rt = runHandler config fuel h data rt.
Proof.
  cbn [runHandlers].
  destruct (runHandler config fuel h data rt); reflexivity.
Qed.

Lemma scheduled_onlyPending key ms a rt :
  InvX (scheduleTimeout key ms a rt) ->
  (exists k, pendingExactly (scheduleTimeout key ms a rt) [k]) ->
  onlyPending (scheduleTimeout key ms a rt) (length (timers rt))
    (mkTimer key ms a true).
Proof.
  intros (x & ([Htr _ _] & _) & _) (k & Hp).
  assert (Hn : timers (scheduleTimeout key ms a rt) !! length (timers rt)
               = Some (mkTimer key ms a true)).
  { simpl. apply list_lookup_middle. reflexivity. }
  split; [exact Hn|]. split; [reflexivity|].
  intros t' tm' Ht' Hl'.
  assert (Hk0 : key = k).
  { apply list_elem_of_singleton. apply Hp.
    exists (length (timers rt)), (mkTimer key ms a true). auto. }
  assert (Hk : timer_key tm' = key).
  { rewrite Hk0. apply list_elem_of_singleton. apply Hp.
    exists t', tm'. auto. }
  pose proof (Htr _ _ Ht' Hl') as E1.
  pose proof (Htr _ _ Hn eq_refl) as E2.
  rewrite Hk in E1. simpl in E2. simpl in E1. congruence.
Qed.

Section Steps.

Variable config : Config.
Variable rand : Q.

Lemma handleEffect_send_ping tr rt :
  handleEffect config tr Effects.SEND_PING rt = Some (sendPing config rt).
Proof. unfold sendPing. simpl. destruct (ws rt); reflexivity. Qed.

Lemma transition_close n c rt :
  wsState rt = States.OPEN c \/ wsState rt = States.CONNECTING c ->
  transition config (S n) Actions.CLOSE rt
  = Some (nukeTimeout TimeoutKey.pong
            (nukeTimeout TimeoutKey.ping
               (nukeTimeout TimeoutKey.connect
                  (swap (fun _ => States.CLOSED c) rt)))).
Proof.
  intros [Hs|Hs]; rewrite transition_S, Hs; reflexivity.
Qed.

Lemma transition_reconnect n c rt :
  wsState rt = States.CLOSED c ->
  transition config (S n) Actions.RECONNECT rt
  = Some (scheduleTimeout TimeoutKey.connect
            (backoffFn c (reconnectAttempt c + 1)%Q (randSeed c))
            Actions.CONNECT
            (swap (fun _ =>
                     States.RECONNECTING
                       (with_reconnectAttempt c (reconnectAttempt c + 1)%Q))
               rt)).
Proof.
  intros Hs. rewrite transition_S, Hs. reflexivity.
Qed.

Lemma transition_open n c rt :
  wsState rt = States.CONNECTING c ->
  transition config (S n) Actions.OPEN rt
  = Some (scheduleTimeout TimeoutKey.ping (pingTimeoutMillis c)
            Actions.PING_TIMEOUT
            (swap (fun _ => States.OPEN (with_reconnectAttempt c 0)) rt)).
Proof.
  intros Hs. rewrite transition_S, Hs. reflexivity.
Qed.

Lemma transition_ping_timeout n c rt :
  wsState rt = States.OPEN c ->
  transition config (S n) Actions.PING_TIMEOUT rt
  = Some (scheduleTimeout TimeoutKey.pong (pongTimeoutMillis c)
            Actions.PONG_TIMEOUT
            (sendPing config
               (nukeTimeout TimeoutKey.ping
                  (swap (fun _ => States.OPEN c) rt)))).
Proof.
  intros Hs. rewrite transition_S, Hs.
  change (handleEffect config (transition config n) Effects.SEND_PING
            (nukeTimeout TimeoutKey.ping (swap (fun _ => States.OPEN c) rt))
          ≫= handleEffects (handleEffect config (transition config n))
               [waitForPong (States.OPEN c)]
          = Some (scheduleTimeout TimeoutKey.pong (pongTimeoutMillis c)
                    Actions.PONG_TIMEOUT
                    (sendPing config
                       (nukeTimeout TimeoutKey.ping
                          (swap (fun _ => States.OPEN c) rt))))).
  rewrite handleEffect_send_ping. reflexivity.
Qed.

Lemma transition_heartbeat n c rt :
  wsState rt = States.OPEN c ->
  transition config (S n) Actions.HEARTBEAT rt
  = Some (scheduleTimeout TimeoutKey.ping (pingTimeoutMillis c)
            Actions.PING_TIMEOUT
            (nukeTimeout TimeoutKey.pong
               (nukeTimeout TimeoutKey.ping
                  (swap (fun _ => States.OPEN c) rt)))).
Proof.
  intros Hs. rewrite transition_S, Hs. reflexivity.
Qed.

Lemma current_listeners rt w :
  reachable config rand rt -> ws rt = Some w ->
  isInitial (wsState rt) = false ->
  exists s, sockets rt !! w = Some s /\ ws_listeners s = connListeners w.
Proof.
  intros Hr Hw Hi.
  destruct (ListenersInv_reachable config rand rt Hr) as [_ L2 _ _].
  destruct (L2 w Hw) as (s & Es & El). rewrite Hi in El. eauto.
Qed.

Lemma current_context rt :
  reachable config rand rt ->
  let c := context (wsState rt) in
  url c = cfg_url config /\ randSeed c = rand
  /\ pingTimeoutMillis c = cfg_pingTimeoutMillis config
  /\ pongTimeoutMillis c = cfg_pongTimeoutMillis config
  /\ backoffFn c = cfg_backoffFn config.
Proof.
  intros Hr c. destruct (ContextInv_reachable _ _ _ Hr) as [Hc _ _].
  repeat split.
  - exact (f_equal url Hc).
  - exact (f_equal randSeed Hc).
  - exact (f_equal pingTimeoutMillis Hc).
  - exact (f_equal pongTimeoutMillis Hc).
  - exact (f_equal backoffFn Hc).
Qed.

End Steps.

(** X14: when the current socket closes while the machine is OPEN or
    CONNECTING, the machine ends up RECONNECTING with the reconnect counter
    one higher; the one timer pending afterwards is a new connect timer
    whose delay is the configured backoff function applied to the new
    counter and the seed of the machine.  The machine does not touch its
    sockets or deliver a message. *)
Theorem socket_close_schedules_reconnect
    (config : Config) (rand : Q) (rt : Runtime) (n : nat) (w : nat)
    (data : string) (c : Context) :
  reachable config rand rt ->
  ws rt = Some w ->
  wsState rt = States.OPEN c \/ wsState rt = States.CONNECTING c ->
  exists rt',
    step config (S n) (socket_event w WsMessageKeys.close data) rt = Some rt'
    /\ wsState rt'
       = States.RECONNECTING
           (with_reconnectAttempt c (reconnectAttempt c + 1)%Q)
    /\ ws rt' = Some w /\ sockets rt' = sockets rt
    /\ messages rt' = messages rt
    /\ onlyPending rt' (length (timers rt))
         (mkTimer TimeoutKey.connect
            (cfg_backoffFn config (reconnectAttempt c + 1)%Q rand)
            Actions.CONNECT true).
Proof.
  intros Hr Hw Hs.
  assert (Hi : isInitial (wsState rt) = false)
    by (destruct Hs as [Hs|Hs]; rewrite Hs; reflexivity).
  destruct (current_listeners config rand rt w Hr Hw Hi) as (s & Es & El).
  assert (Hc : context (wsState rt) = c)
    by (destruct Hs as [Hs|Hs]; rewrite Hs; reflexivity).
  destruct (current_context config rand rt Hr) as (_ & C2 & _ & _ & C5).
  rewrite Hc in C2, C5.
  set (rt1 := nukeTimeout TimeoutKey.pong
                (nukeTimeout TimeoutKey.ping
                   (nukeTimeout TimeoutKey.connect
                      (swap (fun _ => States.CLOSED c) rt)))).
  set (rt2 := swap (fun _ =>
                      States.RECONNECTING
                        (with_reconnectAttempt c (reconnectAttempt c + 1)%Q))
                rt1).
  assert (S1 : wsState rt1 = States.CLOSED c).
  { unfold rt1. rewrite !nukeTimeout_wsState. apply swap_wsState. }
  assert (F2 : sameFrame rt rt2).
  { unfold rt2, rt1.
    repeat (eapply sameFrame_trans;
            [|first [apply sameFrame_swap|apply sameFrame_nukeTimeout]]).
    apply sameFrame_refl. }
  assert (Hstep : step config (S n)
                    (socket_event w WsMessageKeys.close data) rt
                  = Some (scheduleTimeout TimeoutKey.connect
                            (cfg_backoffFn config (reconnectAttempt c + 1)%Q
                               rand)
                            Actions.CONNECT rt2)).
  { cbn [step]. unfold dispatchEvent. rewrite Es.
    rewrite (listenersFor_conn w s _ El), runHandlers_one.
    unfold runHandler. cbn [handler_body].
    rewrite (transition_close config n c rt Hs). cbn [mbind option_bind].
    fold rt1. rewrite (transition_reconnect config n c rt1 S1).
    rewrite C2, C5. reflexivity. }
  eexists. split; [exact Hstep|].
  assert (Hr' : reachable config rand
                  (scheduleTimeout TimeoutKey.connect
                     (cfg_backoffFn config (reconnectAttempt c + 1)%Q rand)
                     Actions.CONNECT rt2)).
  { exact (reachable_step config rand rt _ _ _ Hr Hstep). }
  assert (S2 : wsState rt2
               = States.RECONNECTING
                   (with_reconnectAttempt c (reconnectAttempt c + 1)%Q)).
  { unfold rt2. apply swap_wsState. }
  split; [exact S2|].
  split; [rewrite <- Hw; apply F2|].
  split; [apply F2|]. split; [apply F2|].
  pose proof (InvX_reachable config rand _ Hr') as HX.
  pose proof (InvX_pending _ HX) as Hp.
  change (wsState (scheduleTimeout TimeoutKey.connect
                     (cfg_backoffFn config (reconnectAttempt c + 1)%Q rand)
                     Actions.CONNECT rt2))
    with (wsState rt2) in Hp.
  rewrite S2 in Hp.
  destruct F2 as (_ & _ & _ & F4). rewrite <- F4.
  apply scheduled_onlyPending; [exact HX|eauto].
Qed.

Lemma socket_close_schedules_reconnect_witness :
  reachable testConfig 0 (openMachine testConfig)
  /\ ws (openMachine testConfig) = Some 0%nat
  /\ wsState (openMachine testConfig)
     = States.OPEN (initialContext testConfig 0)
  /\ exists rt',
       step testConfig 1 (socket_event 0 WsMessageKeys.close "")
         (openMachine testConfig)
       = Some rt'
       /\ wsState rt'
          = States.RECONNECTING
              (with_reconnectAttempt (initialContext testConfig 0) (0 + 1)%Q)
       /\ onlyPending rt' 1
            (mkTimer TimeoutKey.connect (calcBackoffFn (0 + 1)%Q 0%Q)
               Actions.CONNECT true).
Proof.
  assert (Hw : ws (openMachine testConfig) = Some 0%nat)
    by (vm_compute; reflexivity).
  assert (Hs : wsState (openMachine testConfig)
               = States.OPEN (initialContext testConfig 0))
    by (vm_compute; reflexivity).
  split; [exact openMachine_reachable|]. split; [exact Hw|].
  split; [exact Hs|].
  destruct (socket_close_schedules_reconnect testConfig 0
              (openMachine testConfig) 0 0 "" (initialContext testConfig 0)
              openMachine_reachable Hw (or_introl Hs))
    as (rt' & H1 & H2 & _ & _ & _ & H6).
  exists rt'. split; [exact H1|]. split; [exact H2|]. exact H6.
Defined.




Lemma heartbeat_pending rt :
  InvX rt -> (exists c, wsState rt = States.OPEN c) ->
  exists k, pendingExactly rt [k].
Proof.
  intros HX (c & Hs). pose proof (InvX_pending _ HX) as Hp.
  rewrite Hs in Hp. destruct Hp; eauto.
Qed.

(** X16: when the ping timer fires, the machine stays OPEN, sends the ping
    payload (the configured [pingMsg], or ["ping"] when there is none) on
    the current socket and on no other, and the one timer pending
    afterwards is a new pong timer with the configured
    [pongTimeoutMillis]. *)
Theorem ping_timer_sends_ping
    (config : Config) (rand : Q) (rt : Runtime) (n : nat) (c : Context)
    (t : nat) (tm : Timer) :
  reachable config rand rt ->
  wsState rt = States.OPEN c ->
  timers rt !! t = Some tm -> timer_live tm = true ->
  timer_key tm = TimeoutKey.ping ->
  exists rt' w,
    step config (S n) (timer_fires t) rt = Some rt'
    /\ wsState rt' = States.OPEN c
    /\ ws rt = Some w /\ ws rt' = Some w
    /\ is_Some (sockets rt !! w)
    /\ sockets rt'
       = alter (sent (default "ping" (cfg_pingMsg config))) w (sockets rt)
    /\ messages rt' = messages rt
    /\ onlyPending rt' (length (timers rt))
         (mkTimer TimeoutKey.pong (cfg_pongTimeoutMillis config)
            Actions.PONG_TIMEOUT true).
Proof.
  intros Hr Hs Et El Ek.
  destruct (reachable_Inv _ _ _ Hr) as [Ht _ _ _].
  destruct (ListenersInv_reachable config rand rt Hr) as [_ L2 _ L4].
  destruct (ws rt) as [w|] eqn:Hw;
    [|specialize (L4 eq_refl); rewrite Hs in L4; discriminate L4].
  destruct (L2 w eq_refl) as (s & Es & _).
  destruct (current_context config rand rt Hr) as (_ & _ & _ & C4 & _).
  rewrite Hs in C4. simpl in C4.
  set (rt0 := set_timers (alter stopped t (timers rt)) rt).
  set (rt1 := nukeTimeout TimeoutKey.ping
                (swap (fun _ => States.OPEN c) rt0)).
  assert (F1 : sameFrame rt rt1).
  { unfold rt1, rt0.
    eapply sameFrame_trans; [|apply sameFrame_nukeTimeout].
    eapply sameFrame_trans; [|apply sameFrame_swap].
    apply sameFrame_stop. }
  assert (S1 : wsState rt1 = States.OPEN c).
  { unfold rt1. rewrite nukeTimeout_wsState. apply swap_wsState. }
  destruct F1 as (F1 & F2 & F3 & F4). rewrite Hw in F1.
  set (rt2 := set_sockets
                (alter (sent (default "ping" (cfg_pingMsg config))) w
                   (sockets rt1)) rt1).
  assert (Hstep : step config (S n) (timer_fires t) rt
                  = Some (scheduleTimeout TimeoutKey.pong
                            (cfg_pongTimeoutMillis config)
                            Actions.PONG_TIMEOUT rt2)).
  { cbn [step]. unfold fireTimer. rewrite Et, El.
    rewrite (ok_action _ Ht _ _ Et), Ek. cbn [timeoutAction].
    fold rt0. rewrite (transition_ping_timeout config n c rt0 Hs).
    fold rt1. unfold sendPing. rewrite F1, C4. reflexivity. }
  pose proof (reachable_step config rand rt _ _ _ Hr Hstep) as Hr'.
  eexists. exists w. split; [exact Hstep|].
  split; [exact S1|]. split; [reflexivity|]. split; [exact F1|].
  split; [eauto|]. split; [simpl; rewrite F2; reflexivity|].
  split; [exact F3|].
  rewrite <- F4.
  apply (scheduled_onlyPending TimeoutKey.pong _ _ rt2).
  - exact (InvX_reachable config rand _ Hr').
  - apply heartbeat_pending; [exact (InvX_reachable config rand _ Hr')|].
    exists c. exact S1.
Qed.

Lemma ping_timer_sends_ping_witness :
  reachable testConfig 0 (openMachine testConfig)
  /\ exists rt',
       step testConfig 1 (timer_fires 0) (openMachine testConfig) = Some rt'
       /\ sockets rt'
          = alter (sent "ping") 0%nat (sockets (openMachine testConfig))
       /\ onlyPending rt' 1
            (mkTimer TimeoutKey.pong 5%Q Actions.PONG_TIMEOUT true).
Proof.
  split; [exact openMachine_reachable|].
  destruct (ping_timer_sends_ping testConfig 0 (openMachine testConfig) 0
              (initialContext testConfig 0) 0
              (mkTimer TimeoutKey.ping 5%Q Actions.PING_TIMEOUT true)
              openMachine_reachable)
    as (rt' & w & H1 & _ & H3 & _ & _ & H6 & _ & H8);
    try (vm_compute; reflexivity).
  assert (Hw : w = 0%nat).
  { assert (E : ws (openMachine testConfig) = Some 0%nat)
      by (vm_compute; reflexivity).
    rewrite E in H3. injection H3 as <-. reflexivity. }
  subst w. exists rt'. split; [exact H1|]. split; [exact H6|]. exact H8.
Defined.

(** X17: every message on the current socket of an OPEN machine restarts
    the heartbeat, whatever its text: the message is handed to
    [config.onMessage] unless it is ["pong"], the state stays OPEN, and the
    one timer pending afterwards is a new ping timer with the configured
    [pingTimeoutMillis], so that a pong timer that was pending is
    cancelled. *)
Theorem message_restarts_heartbeat
    (config : Config) (rand : Q) (rt : Runtime) (n : nat) (c : Context)
    (w : nat) (data : string) :
  reachable config rand rt ->
  ws rt = Some w ->
  wsState rt = States.OPEN c ->
  exists rt',
    step config (S n) (socket_event w WsMessageKeys.message data) rt
    = Some rt'
    /\ wsState rt' = States.OPEN c
    /\ ws rt' = Some w /\ sockets rt' = sockets rt
    /\ messages rt'
       = (if String.eqb data "pong" then messages rt
          else (messages rt ++ [data])%list)
    /\ onlyPending rt' (length (timers rt))
         (mkTimer TimeoutKey.ping (cfg_pingTimeoutMillis config)
            Actions.PING_TIMEOUT true).
Proof.
  intros Hr Hw Hs.
  assert (Hi : isInitial (wsState rt) = false) by (rewrite Hs; reflexivity).
  destruct (current_listeners config rand rt w Hr Hw Hi) as (s & Es & El).
  destruct (current_context config rand rt Hr) as (_ & _ & C3 & _).
  rewrite Hs in C3. simpl in C3.
  set (rt0 := if negb (String.eqb data "pong")
              then set_messages (messages rt ++ [data]) rt else rt).
  assert (F0 : ws rt0 = ws rt /\ sockets rt0 = sockets rt
               /\ timers rt0 = timers rt /\ wsState rt0 = wsState rt
               /\ messages rt0
                  = (if String.eqb data "pong" then messages rt
                     else (messages rt ++ [data])%list)).
  { unfold rt0. destruct (String.eqb data "pong"); repeat split. }
  destruct F0 as (A1 & A2 & A3 & A4 & A5).
  set (rt1 := nukeTimeout TimeoutKey.pong
                (nukeTimeout TimeoutKey.ping
                   (swap (fun _ => States.OPEN c) rt0))).
  assert (F1 : sameFrame rt0 rt1).
  { unfold rt1.
    repeat (eapply sameFrame_trans;
            [|first [apply sameFrame_swap|apply sameFrame_nukeTimeout]]).
    apply sameFrame_refl. }
  assert (S1 : wsState rt1 = States.OPEN c).
  { unfold rt1. rewrite !nukeTimeout_wsState. apply swap_wsState. }
  destruct F1 as (F1 & F2 & F3 & F4).
  assert (Hstep : step config (S n)
                    (socket_event w WsMessageKeys.message data) rt
                  = Some (scheduleTimeout TimeoutKey.ping
                            (cfg_pingTimeoutMillis config)
                            Actions.PING_TIMEOUT rt1)).
  { cbn [step]. unfold dispatchEvent. rewrite Es.
    rewrite (listenersFor_conn w s _ El), runHandlers_one.
    unfold runHandler. cbn [handler_body]. fold rt0.
    rewrite (transition_heartbeat config n c rt0) by congruence.
    fold rt1. rewrite C3. reflexivity. }
  pose proof (reachable_step config rand rt _ _ _ Hr Hstep) as Hr'.
  eexists. split; [exact Hstep|].
  split; [exact S1|]. split; [simpl; congruence|].
  split; [simpl; congruence|]. split; [simpl; congruence|].
  replace (length (timers rt)) with (length (timers rt1))
    by (rewrite F4, A3; reflexivity).
  apply (scheduled_onlyPending TimeoutKey.ping _ _ rt1).
  - exact (InvX_reachable config rand _ Hr').
  - apply heartbeat_pending; [exact (InvX_reachable config rand _ Hr')|].
    exists c. exact S1.
Qed.

Lemma message_restarts_heartbeat_witness :
  reachable testConfig 0 (openMachine testConfig)
  /\ exists rt',
       step testConfig 1 (socket_event 0 WsMessageKeys.message "Hello")
         (openMachine testConfig)
       = Some rt'
       /\ messages rt' = ["Hello"]
       /\ onlyPending rt' 1
            (mkTimer TimeoutKey.ping 5%Q Actions.PING_TIMEOUT true).
Proof.
  split; [exact openMachine_reachable|].
  destruct (message_restarts_heartbeat testConfig 0 (openMachine testConfig)
              0 (initialContext testConfig 0) 0 "Hello"
              openMachine_reachable)
    as (rt' & H1 & _ & _ & _ & H5 & H6);
    try (vm_compute; reflexivity).
  exists rt'. split; [exact H1|]. split; [exact H5|]. exact H6.
Defined.

(** X18: the open event of the current socket takes a CONNECTING machine
    to OPEN with the reconnect counter back at 0, and the one timer pending
    afterwards is a new ping timer with the configured
    [pingTimeoutMillis]. *)
Theorem socket_open_starts_heartbeat
    (config : Config) (rand : Q) (rt : Runtime) (n : nat) (c : Context)
    (w : nat) (data : string) :
  reachable config rand rt ->
  ws rt = Some w ->
  wsState rt = States.CONNECTING c ->
  exists rt',
    step config (S n) (socket_event w WsMessageKeys.open data) rt = Some rt'
    /\ wsState rt' = States.OPEN (with_reconnectAttempt c 0)
    /\ ws rt' = Some w /\ sockets rt' = sockets rt
    /\ messages rt' = messages rt
    /\ onlyPending rt' (length (timers rt))
         (mkTimer TimeoutKey.ping (cfg_pingTimeoutMillis config)
            Actions.PING_TIMEOUT true).
Proof.
  intros Hr Hw Hs.
  assert (Hi : isInitial (wsState rt) = false) by (rewrite Hs; reflexivity).
  destruct (current_listeners config rand rt w Hr Hw Hi) as (s & Es & El).
  destruct (current_context config rand rt Hr) as (_ & _ & C3 & _).
  rewrite Hs in C3. simpl in C3.
  set (rt1 := swap (fun _ => States.OPEN (with_reconnectAttempt c 0)) rt).
  pose proof (sameFrame_swap
                (fun _ => States.OPEN (with_reconnectAttempt c 0)) rt)
    as (F1 & F2 & F3 & F4).
  fold rt1 in F1, F2, F3, F4.
  assert (S1 : wsState rt1 = States.OPEN (with_reconnectAttempt c 0)).
  { unfold rt1. apply swap_wsState. }
  assert (Hstep : step config (S n)
                    (socket_event w WsMessageKeys.open data) rt
                  = Some (scheduleTimeout TimeoutKey.ping
                            (cfg_pingTimeoutMillis config)
                            Actions.PING_TIMEOUT rt1)).
  { cbn [step]. unfold dispatchEvent. rewrite Es.
    rewrite (listenersFor_conn w s _ El), runHandlers_one.
    unfold runHandler. cbn [handler_body].
    rewrite (transition_open config n c rt Hs).
    fold rt1. rewrite C3. reflexivity. }
  pose proof (reachable_step config rand rt _ _ _ Hr Hstep) as Hr'.
  eexists. split; [exact Hstep|].
  split; [exact S1|]. split; [simpl; congruence|].
  split; [exact F2|]. split; [exact F3|].
  rewrite <- F4.
  apply (scheduled_onlyPending TimeoutKey.ping _ _ rt1).
  - exact (InvX_reachable config rand _ Hr').
  - apply heartbeat_pending; [exact (InvX_reachable config rand _ Hr')|].
    eexists. exact S1.
Qed.

Lemma connectingMachine_reachable :
  reachable testConfig 0 (connectingMachine testConfig).
Proof.
  apply (run_reachable testConfig 0 1 [call_connect] (wsMachine testConfig 0)).
  - apply reachable_init.
  - vm_compute. reflexivity.
Qed.

Lemma socket_open_starts_heartbeat_witness :
  reachable testConfig 0 (connectingMachine testConfig)
  /\ exists rt',
       step testConfig 1 (socket_event 0 WsMessageKeys.open "")
         (connectingMachine testConfig)
       = Some rt'
       /\ wsState rt'
          = States.OPEN
              (with_reconnectAttempt (initialContext testConfig 0) 0)
       /\ onlyPending rt' 0
            (mkTimer TimeoutKey.ping 5%Q Actions.PING_TIMEOUT true).
Proof.
  split; [exact connectingMachine_reachable|].
  destruct (socket_open_starts_heartbeat testConfig 0
              (connectingMachine testConfig) 0
              (initialContext testConfig 0) 0 ""
              connectingMachine_reachable)
    as (rt' & H1 & H2 & _ & _ & _ & H6);
    try (vm_compute; reflexivity).
  exists rt'. split; [exact H1|]. split; [exact H2|]. exact H6.
Defined.

Lemma transition_pong_timeout config n c rt :
  wsState rt = States.OPEN c ->
  transition config (S (S n)) Actions.PONG_TIMEOUT rt
  = transition config (S n) Actions.CLOSE (swap (fun _ => States.OPEN c) rt)
    ≫= transition config (S n) Actions.RECONNECT.
Proof.
  intros Hs. rewrite transition_S, Hs.
  change (transition config (S n) Actions.CLOSE
            (swap (fun _ => States.OPEN c) rt)
          ≫= handleEffects (handleEffect config (transition config (S n)))
               [Effects.TRIGGER_ACTION Actions.RECONNECT]
          = transition config (S n) Actions.CLOSE
              (swap (fun _ => States.OPEN c) rt)
            ≫= transition config (S n) Actions.RECONNECT).
  destruct (transition config (S n) Actions.CLOSE
              (swap (fun _ => States.OPEN c) rt)) as [rt1|];
    [|reflexivity].
  cbn [mbind option_bind]. rewrite handleEffects_cons.
  cbn [handleEffect].
  destruct (transition config (S n) Actions.RECONNECT rt1); reflexivity.
Qed.

(** X19: when the pong timer fires, the machine gives the connection up:
    it ends up RECONNECTING with the reconnect counter one higher, and the
    one timer pending afterwards is a new connect timer whose delay is the
    configured backoff function applied to the new counter.  The machine
    does not close the socket at this point and does not detach its
    listeners: the socket stays the current one until the next
    CONNECT_WS. *)
Theorem pong_timer_schedules_reconnect
    (config : Config) (rand : Q) (rt : Runtime) (n : nat) (c : Context)
    (t : nat) (tm : Timer) :
  reachable config rand rt ->
  wsState rt = States.OPEN c ->
  timers rt !! t = Some tm -> timer_live tm = true ->
  timer_key tm = TimeoutKey.pong ->
  exists rt',
    step config (S (S n)) (timer_fires t) rt = Some rt'
    /\ wsState rt'
       = States.RECONNECTING
           (with_reconnectAttempt c (reconnectAttempt c + 1)%Q)
    /\ ws rt' = ws rt /\ sockets rt' = sockets rt
    /\ messages rt' = messages rt
    /\ onlyPending rt' (length (timers rt))
         (mkTimer TimeoutKey.connect
            (cfg_backoffFn config (reconnectAttempt c + 1)%Q rand)
            Actions.CONNECT true).
Proof.
  intros Hr Hs Et El Ek.
  destruct (reachable_Inv _ _ _ Hr) as [Ht _ _ _].
  destruct (current_context config rand rt Hr) as (_ & C2 & _ & _ & C5).
  rewrite Hs in C2, C5. simpl in C2, C5.
  set (rt0 := swap (fun _ => States.OPEN c)
                (set_timers (alter stopped t (timers rt)) rt)).
  set (rt1 := nukeTimeout TimeoutKey.pong
                (nukeTimeout TimeoutKey.ping
                   (nukeTimeout TimeoutKey.connect
                      (swap (fun _ => States.CLOSED c) rt0)))).
  set (rt2 := swap (fun _ =>
                      States.RECONNECTING
                        (with_reconnectAttempt c (reconnectAttempt c + 1)%Q))
                rt1).
  assert (S0 : wsState rt0 = States.OPEN c) by apply swap_wsState.
  assert (S1 : wsState rt1 = States.CLOSED c).
  { unfold rt1. rewrite !nukeTimeout_wsState. apply swap_wsState. }
  assert (S2 : wsState rt2
               = States.RECONNECTING
                   (with_reconnectAttempt c (reconnectAttempt c + 1)%Q))
    by apply swap_wsState.
  assert (F2 : sameFrame rt rt2).
  { unfold rt2, rt1, rt0.
    repeat (eapply sameFrame_trans;
            [|first [apply sameFrame_swap|apply sameFrame_nukeTimeout]]).
    apply sameFrame_stop. }
  assert (Hstep : step config (S (S n)) (timer_fires t) rt
                  = Some (scheduleTimeout TimeoutKey.connect
                            (cfg_backoffFn config (reconnectAttempt c + 1)%Q
                               rand)
                            Actions.CONNECT rt2)).
  { cbn [step]. unfold fireTimer. rewrite Et, El.
    rewrite (ok_action _ Ht _ _ Et), Ek. cbn [timeoutAction].
    rewrite (transition_pong_timeout config n c
               (set_timers (alter stopped t (timers rt)) rt) Hs).
    fold rt0.
    rewrite (transition_close config n c rt0 (or_introl S0)).
    cbn [mbind option_bind]. fold rt1.
    rewrite (transition_reconnect config n c rt1 S1).
    rewrite C2, C5. reflexivity. }
  pose proof (reachable_step config rand rt _ _ _ Hr Hstep) as Hr'.
  destruct F2 as (F1 & F2 & F3 & F4).
  eexists. split; [exact Hstep|]. split; [exact S2|].
  split; [exact F1|]. split; [exact F2|]. split; [exact F3|].
  rewrite <- F4.
  apply (scheduled_onlyPending TimeoutKey.connect _ _ rt2).
  - exact (InvX_reachable config rand _ Hr').
  - exists TimeoutKey.connect.
    pose proof (InvX_pending _ (InvX_reachable config rand _ Hr')) as Hp.
    change (wsState (scheduleTimeout TimeoutKey.connect
                       (cfg_backoffFn config (reconnectAttempt c + 1)%Q rand)
                       Actions.CONNECT rt2))
      with (wsState rt2) in Hp.
    rewrite S2 in Hp. exact Hp.
Qed.

Lemma awaitingPong_reachable :
  reachable testConfig 0 (awaitingPong testConfig).
Proof.
  apply (run_reachable testConfig 0 2
           [call_connect; socket_event 0 WsMessageKeys.open ""; timer_fires 0]
           (wsMachine testConfig 0)).
  - apply reachable_init.
  - vm_compute. reflexivity.
Qed.

Lemma pong_timer_schedules_reconnect_witness :
  reachable testConfig 0 (awaitingPong testConfig)
  /\ exists rt',
       step testConfig 2 (timer_fires 1) (awaitingPong testConfig) = Some rt'
       /\ wsState rt'
          = States.RECONNECTING
              (with_reconnectAttempt (initialContext testConfig 0) (0 + 1)%Q)
       /\ sockets rt' = sockets (awaitingPong testConfig)
       /\ onlyPending rt' 2
            (mkTimer TimeoutKey.connect (calcBackoffFn (0 + 1)%Q 0%Q)
               Actions.CONNECT true).
Proof.
  split; [exact awaitingPong_reachable|].
  destruct (pong_timer_schedules_reconnect testConfig 0
              (awaitingPong testConfig) 0 (initialContext testConfig 0) 1
              (mkTimer TimeoutKey.pong 5%Q Actions.PONG_TIMEOUT true)
              awaitingPong_reachable)
    as (rt' & H1 & H2 & _ & H4 & _ & H6);
    try (vm_compute; reflexivity).
  exists rt'. split; [exact H1|]. split; [exact H2|].
  split; [exact H4|]. exact H6.
Defined.
